(** * A video downloader bot: the download-and-delivery pipeline

    A shallow embedding of the Python sources [auth.py], [url_parser.py],
    [error_handler.py], [downloader.py], [sender.py] and [progress.py],
    followed by the properties proved about them.

    Conventions of the embedding.
    - The text of a message, a path or an exception is a [string];
      characters outside ASCII are carried as the bytes of their UTF-8
      encoding.  A text that regular expressions scan is the list of its
      code points.
    - On ASCII, case folding ([str.lower]) and the classes [\w] and [\d]
      are spelled out.  Beyond ASCII they depend on the Unicode database
      of the interpreter: it is a parameter of the functions that
      consult it, written [db], and every statement holds whatever it
      says.
    - A Python [int] is a [Z]; a Python [float] is a binary64 number of
      [SpecFloat] ([prec = 53], [emax = 1024]).
    - Code that logs, touches the file system, talks to the transport or may
      raise runs in the monad [M]: a state of type [world] is threaded, and
      a result is either a value or a raised exception.
    - An [exn] is an instance of Python's [Exception] class, that is,
      something a clause [except Exception] catches. *)

From Stdlib Require Import ZArith String Ascii List Lia Bool DecimalString.
From Stdlib Require Import Floats.SpecFloat.
From stdpp Require Import gmap strings.

Local Open Scope string_scope.
Local Open Scope list_scope.
Local Open Scope Z_scope.

(* ===================================================================== *)
(** * Part I: the embedding                                              *)
(* ===================================================================== *)

(** ** Python values *)

Module Py.

(** Exceptions: the class name ([type(e).__name__]) and [str(e)]. *)
Record exn := Exn { exn_type : string; exn_msg : string }.

Definition prec : Z := 53.
Definition emax : Z := 1024.

(** A float literal such as [100.0], and [float(n)] where it is exact. *)
Definition float_of_Z (z : Z) : spec_float := binary_normalize prec emax z 0 false.

Definition is_infinite (x : spec_float) : bool :=
  match x with S754_infinity _ => true | _ => false end.

Definition is_zero (x : spec_float) : bool :=
  match x with S754_zero _ => true | _ => false end.

(** [a / b] on two ints: the correctly rounded quotient. *)
Definition int_truediv (a b : Z) : exn + spec_float :=
  if b =? 0 then inl (Exn "ZeroDivisionError" "division by zero")
  else if a =? 0 then inr (S754_zero (b <? 0))
  else
    let q := SFdiv prec emax
               (S754_finite (a <? 0) (Z.to_pos (Z.abs a)) 0)
               (S754_finite (b <? 0) (Z.to_pos (Z.abs b)) 0) in
    if is_infinite q
    then inl (Exn "OverflowError" "integer division result too large for a float")
    else inr q.

(** [float(n)] as binary arithmetic performs it on an int operand. *)
Definition int_to_float (a : Z) : exn + spec_float :=
  let x := float_of_Z a in
  if is_infinite x
  then inl (Exn "OverflowError" "int too large to convert to float")
  else inr x.

Definition float_truediv (x y : spec_float) : exn + spec_float :=
  if is_zero y then inl (Exn "ZeroDivisionError" "division by zero")
  else inr (SFdiv prec emax x y).

(** The values found in the dictionaries the extraction engine hands to
    its progress hooks. *)
Inductive val :=
| VNone
| VInt (z : Z)
| VFloat (x : spec_float)
| VStr (s : string).

Definition truthy (v : val) : bool :=
  match v with
  | VNone => false
  | VInt z => negb (z =? 0)
  | VFloat x => negb (is_zero x)
  | VStr s => negb (String.eqb s EmptyString)
  end.

(** [a or b] *)
Definition or_ (a b : val) : val := if truthy a then a else b.

(** [d.get(k)] and [d.get(k, default)] *)
Definition get (d : gmap string val) (k : string) : val := default VNone (d !! k).
Definition get_or (d : gmap string val) (k : string) (dflt : val) : val :=
  default dflt (d !! k).

(** [v == s] for a string literal [s] *)
Definition eq_str (v : val) (s : string) : bool :=
  match v with VStr t => String.eqb t s | _ => false end.

Definition type_name (v : val) : string :=
  match v with
  | VNone => "NoneType" | VInt _ => "int" | VFloat _ => "float" | VStr _ => "str"
  end.

(** [v > 0] *)
Definition gt_zero (v : val) : exn + bool :=
  match v with
  | VInt z => inr (0 <? z)
  | VFloat x => inr (SFltb (S754_zero false) x)
  | _ => inl (Exn "TypeError"
                ("'>' not supported between instances of '" +:+ type_name v +:+ "' and 'int'"))
  end.

(** [a / b] *)
Definition truediv (a b : val) : exn + spec_float :=
  match a, b with
  | VInt x, VInt y => int_truediv x y
  | VInt x, VFloat y =>
      match int_to_float x with inl e => inl e | inr fx => float_truediv fx y end
  | VFloat x, VInt y =>
      match int_to_float y with inl e => inl e | inr fy => float_truediv x fy end
  | VFloat x, VFloat y => float_truediv x y
  | _, _ => inl (Exn "TypeError"
                   ("unsupported operand type(s) for /: '" +:+ type_name a +:+ "' and '"
                    +:+ type_name b +:+ "'"))
  end.

(** [x * y] on floats; an overflow gives an infinity, not an exception. *)
Definition float_mul (x y : spec_float) : spec_float := SFmul prec emax x y.

(** [min(x, y)]: the second argument replaces the first only when it is
    strictly smaller. *)
Definition float_min (x y : spec_float) : spec_float := if SFltb y x then y else x.

(** *** Formatting *)

(** [str(n)] for a natural number. *)
Definition str_of_N (n : N) : string := NilZero.string_of_uint (N.to_uint n).

Fixpoint zeros (k : nat) : string :=
  match k with O => EmptyString | S k' => String "0" (zeros k') end.

(** The [d] digits of [n], padded with zeros on the left. *)
Definition pad_digits (d : nat) (n : N) : string :=
  let s := NilEmpty.string_of_uint (N.to_uint n) in
  zeros (d - String.length s) +:+ s.

(** The nearest integer to [num / den], ties to even ([0 < den]). *)
Definition round_half_even (num den : Z) : Z :=
  let q := num / den in
  let r := num mod den in
  match 2 * r ?= den with
  | Lt => q
  | Gt => q + 1
  | Eq => if Z.even q then q else q + 1
  end.

(** The magnitude [m * 2^e] scaled by [10^d] and rounded to an integer. *)
Definition scaled_digits (d : nat) (m : positive) (e : Z) : Z :=
  let p := Zpos m * 10 ^ Z.of_nat d in
  if 0 <=? e then p * 2 ^ e else round_half_even p (2 ^ (- e)).

(** [f"{x:.<d>f}"]: fixed notation with [d] digits after the point, no
    point at all when [d = 0]. *)
Definition format_f (d : nat) (x : spec_float) : string :=
  let sign (s : bool) := if s then "-" else EmptyString in
  let point_and (frac : string) := match d with O => EmptyString | _ => "." +:+ frac end in
  match x with
  | S754_nan => "nan"
  | S754_infinity s => sign s +:+ "inf"
  | S754_zero s => sign s +:+ "0" +:+ point_and (zeros d)
  | S754_finite s m e =>
      let n := Z.to_N (scaled_digits d m e) in
      let unit_ := (10 ^ N.of_nat d)%N in
      sign s +:+ str_of_N (n / unit_)%N +:+ point_and (pad_digits d (n mod unit_)%N)
  end.

(** [str(z)] for an int *)
Definition str_of_Z (z : Z) : string :=
  if z <? 0 then "-" +:+ str_of_N (Z.to_N (- z)) else str_of_N (Z.to_N z).

(** *** Ordering of numbers, [min] and [max] *)

(** A float against an int, by their exact values (no conversion of the
    int); nothing for a NaN. *)
Definition float_cmp_int (x : spec_float) (z : Z) : option comparison :=
  match x with
  | S754_nan => None
  | S754_infinity s => Some (if s then Lt else Gt)
  | S754_zero _ => Some (0 ?= z)
  | S754_finite s m e =>
      let v := if s then Zneg m else Zpos m in
      Some (if 0 <=? e then v * 2 ^ e ?= z else v ?= z * 2 ^ (- e))
  end.

(** [a < b] *)
Definition lt (a b : val) : exn + bool :=
  match a, b with
  | VInt x, VInt y => inr (x <? y)
  | VFloat x, VFloat y => inr (SFltb x y)
  | VFloat x, VInt y =>
      inr (match float_cmp_int x y with Some Lt => true | _ => false end)
  | VInt x, VFloat y =>
      inr (match float_cmp_int y x with Some Gt => true | _ => false end)
  | VStr x, VStr y => inr (String.ltb x y)
  | _, _ => inl (Exn "TypeError"
                   ("'<' not supported between instances of '" +:+ type_name a +:+ "' and '"
                    +:+ type_name b +:+ "'"))
  end.

(** [min(a, b)]: [b] replaces [a] only when [b < a]. *)
Definition min2 (a b : val) : exn + val :=
  match lt b a with
  | inl e => inl e
  | inr smaller => inr (if smaller then b else a)
  end.

(** [max(a, b)]: [b] replaces [a] only when [b > a]. *)
Definition max2 (a b : val) : exn + val :=
  match lt a b with
  | inl e => inl e
  | inr greater => inr (if greater then b else a)
  end.

(** [f"{v:.0f}"]: an int is converted to a float first. *)
Definition format_0f (v : val) : exn + string :=
  match v with
  | VInt z => match int_to_float z with
              | inl e => inl e
              | inr x => inr (format_f 0 x)
              end
  | VFloat x => inr (format_f 0 x)
  | VNone => inl (Exn "TypeError" "unsupported format string passed to NoneType.__format__")
  | VStr _ => inl (Exn "ValueError" "Unknown format code 'f' for object of type 'str'")
  end.

(** *** Unicode

    What the Unicode database of the interpreter decides about the
    characters outside ASCII.  Its tables change with the version of the
    interpreter, so the embedding takes them as a parameter.  A character
    outside ASCII may be a letter or a digit, and lowering it may give
    ASCII letters (the Kelvin sign gives [k]), several characters, or a
    result that depends on its neighbours (the capital sigma). *)
Record unicode := {
  (* [chr(c).isalnum()], asked for a code point [c] above 127 *)
  is_alnum : N -> bool;
  (* whether a code point above 127 is a decimal digit *)
  is_decimal : N -> bool;
  (* what [str.lower] writes for a byte above 127 of the encoded text,
     given the bytes before it and the bytes after it: the lowered
     character at the first byte of a character, nothing at the others *)
  lower_beyond : string -> ascii -> string -> string
}.

End Py.

(** ** The world: file system, log, transport *)

Inductive level := DEBUG | INFO | WARNING | ERROR.

(** What a path names: a regular file of some size, or a directory. *)
Inductive node :=
| File (size : N)
| Dir (size : N).

Definition node_size (n : node) : N :=
  match n with File s => s | Dir s => s end.

(** System calls can fail for reasons the file map does not show (access
    rights, a medium error, a change made by another process between two
    calls); [faults] says which calls on which paths do, and with what. *)
Record faults := Faults {
  getsize_fault : string -> option Py.exn;
  open_fault : string -> option Py.exn;
  remove_fault : string -> option Py.exn
}.

Definition no_faults : faults :=
  Faults (fun _ => None) (fun _ => None) (fun _ => None).

(** The calls made on the transport, in order. *)
Inductive call :=
| SendMessage (chat_id : Z) (text : string)
| EditMessageText (chat_id message_id : Z) (text : string)
| DeleteMessage (chat_id message_id : Z)
| SendVideo (chat_id : Z) (path : string).

Record world := World {
  w_fs : gmap string node;
  w_faults : faults;
  w_log : list (level * string);
  w_calls : list call
}.

(** ** The monad of effectful code *)

Definition M (A : Type) : Type := world -> (Py.exn + A) * world.

Definition ret {A} (a : A) : M A := fun w => (inr a, w).

Definition bind {A B} (m : M A) (k : A -> M B) : M B :=
  fun w => match m w with
           | (inl e, w') => (inl e, w')
           | (inr a, w') => k a w'
           end.

Definition raise {A} (e : Py.exn) : M A := fun w => (inl e, w).

(** Lifting of a pure computation that may raise. *)
Definition lift {A} (r : Py.exn + A) : M A := fun w => (r, w).

(** [try: m except Exception as e: h e] *)
Definition try_except {A} (m : M A) (h : Py.exn -> M A) : M A :=
  fun w => match m w with
           | (inl e, w') => h e w'
           | (inr a, w') => (inr a, w')
           end.

(** [try: m finally: f].  The outcome of [m], a value or an exception, is
    kept unless [f] itself raises. *)
Definition try_finally {A B} (m : M A) (f : M B) : M A :=
  fun w => match m w with
           | (r, w') => match f w' with
                        | (inl e, w'') => (inl e, w'')
                        | (inr _, w'') => (r, w'')
                        end
           end.

Notation "x <- m ;; k" := (bind m (fun x => k))
  (at level 100, m at next level, right associativity, only parsing).
Notation "m ;;; k" := (bind m (fun _ => k))
  (at level 100, right associativity, only parsing).

Definition log (l : level) (msg : string) : M unit :=
  fun w => (inr tt, World (w_fs w) (w_faults w) (w_log w ++ [(l, msg)]) (w_calls w)).

Definition record_call (c : call) : M unit :=
  fun w => (inr tt, World (w_fs w) (w_faults w) (w_log w) (w_calls w ++ [c])).

(** ** The operating system, as [os] and [open] expose it *)

Module Os.

(** [os.path.exists(p)]: never raises on a string. *)
Definition path_exists (p : string) : M bool :=
  fun w => (inr (bool_decide (is_Some (w_fs w !! p))), w).

Definition not_found (p : string) : Py.exn :=
  Py.Exn "FileNotFoundError" ("[Errno 2] No such file or directory: '" +:+ p +:+ "'").

Definition is_a_directory (p : string) : Py.exn :=
  Py.Exn "IsADirectoryError" ("[Errno 21] Is a directory: '" +:+ p +:+ "'").

(** [os.path.getsize(p)] *)
Definition getsize (p : string) : M Z :=
  fun w => match getsize_fault (w_faults w) p with
           | Some e => (inl e, w)
           | None => match w_fs w !! p with
                     | Some n => (inr (Z.of_N (node_size n)), w)
                     | None => (inl (not_found p), w)
                     end
           end.

(** [os.remove(p)]: removes a regular file, refuses a directory. *)
Definition remove (p : string) : M unit :=
  fun w => match remove_fault (w_faults w) p with
           | Some e => (inl e, w)
           | None => match w_fs w !! p with
                     | Some (File _) =>
                         (inr tt, World (delete p (w_fs w)) (w_faults w) (w_log w) (w_calls w))
                     | Some (Dir _) => (inl (is_a_directory p), w)
                     | None => (inl (not_found p), w)
                     end
           end.

(** [with open(p, 'rb') as f: body]: the file is closed again whatever
    [body] does, and closing changes nothing the model records. *)
Definition with_open_rb {A} (p : string) (body : M A) : M A :=
  fun w => match open_fault (w_faults w) p with
           | Some e => (inl e, w)
           | None => match w_fs w !! p with
                     | Some (File _) => body w
                     | Some (Dir _) => (inl (is_a_directory p), w)
                     | None => (inl (not_found p), w)
                     end
           end.

(** [os.path.join(a, b)] for a relative [b] *)
Definition path_join (a b : string) : string :=
  if String.eqb a EmptyString then b
  else if String.eqb (String.substring (String.length a - 1) 1 a) "/" then a +:+ b
  else a +:+ "/" +:+ b.

End Os.

(** ** The transport

    A bot is given by what each of its primitives answers; every call is
    recorded in the world. *)

Record Bot := {
  send_message_result : Z -> string -> Py.exn + Z;
  edit_message_text_result : Z -> Z -> string -> Py.exn + unit;
  delete_message_result : Z -> Z -> Py.exn + unit;
  send_video_result : Z -> string -> Py.exn + unit
}.

Module Transport.

(** [await bot.send_message(chat_id=.., text=..)]; the value is the
    [message_id] of the message sent. *)
Definition send_message (bot : Bot) (chat_id : Z) (text : string) : M Z :=
  record_call (SendMessage chat_id text) ;;;
  lift (send_message_result bot chat_id text).

Definition edit_message_text (bot : Bot) (chat_id message_id : Z) (text : string) : M unit :=
  record_call (EditMessageText chat_id message_id text) ;;;
  lift (edit_message_text_result bot chat_id message_id text).

Definition delete_message (bot : Bot) (chat_id message_id : Z) : M unit :=
  record_call (DeleteMessage chat_id message_id) ;;;
  lift (delete_message_result bot chat_id message_id).

(** [await bot.send_video(chat_id=.., video=..)], the video being the
    file opened at [path]. *)
Definition send_video (bot : Bot) (chat_id : Z) (path : string) : M unit :=
  record_call (SendVideo chat_id path) ;;;
  lift (send_video_result bot chat_id path).

End Transport.

(** ** sender.py *)

Module Sender.

Definition DEFAULT_MAX_FILE_SIZE : Z := 50 * 1024 * 1024.

Definition cleanup_file (file_path : string) : M bool :=
  try_except
    (present <- Os.path_exists file_path ;;
     if present then
       Os.remove file_path ;;;
       log INFO ("Đã xóa file tạm: " +:+ file_path) ;;;
       ret true
     else
       log DEBUG ("File không tồn tại, bỏ qua: " +:+ file_path) ;;;
       ret true)
    (fun e =>
       log ERROR ("Lỗi khi xóa file " +:+ file_path +:+ ": " +:+ Py.exn_msg e) ;;;
       ret false).

Definition get_file_size (file_path : string) : M Z :=
  try_except
    (present <- Os.path_exists file_path ;;
     if present then Os.getsize file_path else ret (-1))
    (fun e =>
       log ERROR ("Lỗi khi lấy kích thước file " +:+ file_path +:+ ": " +:+ Py.exn_msg e) ;;;
       ret (-1)).

Definition is_file_size_valid (file_path : string) (max_size : Z) : M bool :=
  file_size <- get_file_size file_path ;;
  if file_size <? 0 then ret false
  else ret (file_size <=? max_size).

(** The text of the rejection of a file that is too large. *)
Definition too_large_msg (size_mb max_mb : spec_float) : string :=
  "Video quá lớn (" +:+ Py.format_f 1 size_mb +:+ "MB > " +:+ Py.format_f 0 max_mb
  +:+ "MB). " +:+ "Vui lòng thử giảm chất lượng hoặc cắt video ngắn hơn.".

(** The [try] block of [send_video]. *)
Definition send_video_try (bot : Bot) (chat_id : Z) (file_path : string) (max_size : Z)
  : M (bool * option string) :=
  present <- Os.path_exists file_path ;;
  if negb present then
    log ERROR ("File không tồn tại: " +:+ file_path) ;;;
    ret (false, Some "File video không tồn tại")
  else
    file_size <- get_file_size file_path ;;
    if file_size <? 0 then
      log ERROR ("Không thể đọc kích thước file: " +:+ file_path) ;;;
      ret (false, Some "Không thể đọc kích thước file")
    else if max_size <? file_size then
      size_mb <- lift (Py.int_truediv file_size (1024 * 1024)) ;;
      max_mb <- lift (Py.int_truediv max_size (1024 * 1024)) ;;
      let error_msg := too_large_msg size_mb max_mb in
      log WARNING ("File quá lớn: " +:+ file_path +:+ " (" +:+ Py.format_f 1 size_mb
                   +:+ "MB)") ;;;
      ret (false, Some error_msg)
    else
      mb <- lift (Py.int_truediv file_size (1024 * 1024)) ;;
      log INFO ("Đang gửi video: " +:+ file_path +:+ " (" +:+ Py.format_f 1 mb
                +:+ "MB)") ;;;
      Os.with_open_rb file_path (Transport.send_video bot chat_id file_path) ;;;
      log INFO ("Gửi video thành công: " +:+ file_path) ;;;
      ret (true, None).

(** Its [except Exception as e] block. *)
Definition send_video_except (e : Py.exn) : M (bool * option string) :=
  let error_msg := "Lỗi khi gửi video: " +:+ Py.exn_msg e in
  log ERROR error_msg ;;;
  ret (false, Some error_msg).

(** [send_video]: the two blocks, and [cleanup_file] as the [finally] block. *)
Definition send_video (bot : Bot) (chat_id : Z) (file_path : string) (max_size : Z)
  : M (bool * option string) :=
  try_finally
    (try_except (send_video_try bot chat_id file_path max_size) send_video_except)
    (cleanup_file file_path).

End Sender.

(** ** models.py *)

Module Models.

Inductive Platform := YOUTUBE | FACEBOOK | INSTAGRAM | UNKNOWN.

Definition Platform_eqb (a b : Platform) : bool :=
  match a, b with
  | YOUTUBE, YOUTUBE | FACEBOOK, FACEBOOK | INSTAGRAM, INSTAGRAM | UNKNOWN, UNKNOWN => true
  | _, _ => false
  end.

Inductive DownloadError :=
| VIDEO_NOT_FOUND
| ACCESS_DENIED
| NETWORK_ERROR
| FILE_TOO_LARGE
| YTDLP_ERROR
| UNKNOWN_ERROR.

(** The [.value] of each member of the enumeration. *)
Definition DownloadError_value (e : DownloadError) : string :=
  match e with
  | VIDEO_NOT_FOUND => "Video không tồn tại hoặc đã bị xóa"
  | ACCESS_DENIED => "Video bị giới hạn, không thể tải"
  | NETWORK_ERROR => "Lỗi kết nối mạng, vui lòng thử lại sau"
  | FILE_TOO_LARGE => "Video quá lớn (>50MB), không thể gửi qua Telegram"
  | YTDLP_ERROR => "Lỗi yt-dlp, có thể cần cập nhật"
  | UNKNOWN_ERROR => "Lỗi không xác định"
  end.

Record DownloadResult := {
  success : bool;
  file_path : option string;
  error_message : option string;
  file_size : Z
}.

End Models.

(** ** downloader.py *)

Module Downloader.
Import Models.

(** A progress callback takes a percentage. *)
Definition callback := spec_float -> M unit.

(** The options handed to the extraction engine. *)
Record ydl_opts := {
  opt_format : string;
  opt_outtmpl : string;
  opt_quiet : bool;
  opt_no_warnings : bool;
  opt_merge_output_format : string;
  opt_progress_hooks : list (gmap string Py.val -> M unit)
}.

Definition _handle_progress (progress_dict : gmap string Py.val) (cb : option callback)
  : M unit :=
  match cb with
  | None => ret tt
  | Some callback =>
      let status := Py.get_or progress_dict "status" (Py.VStr EmptyString) in
      if Py.eq_str status "downloading" then
        let downloaded := Py.get_or progress_dict "downloaded_bytes" (Py.VInt 0) in
        let total :=
          Py.or_ (Py.or_ (Py.get progress_dict "total_bytes")
                         (Py.get progress_dict "total_bytes_estimate"))
                 (Py.VInt 0) in
        total_known <- lift (Py.gt_zero total) ;;
        if total_known then
          ratio <- lift (Py.truediv downloaded total) ;;
          let percentage := Py.float_mul ratio (Py.float_of_Z 100) in
          callback (Py.float_min percentage (Py.float_of_Z 99))
        else
          let fragment_index := Py.get_or progress_dict "fragment_index" (Py.VInt 0) in
          let fragment_count := Py.get_or progress_dict "fragment_count" (Py.VInt 0) in
          count_known <- lift (Py.gt_zero fragment_count) ;;
          if count_known then
            ratio <- lift (Py.truediv fragment_index fragment_count) ;;
            let percentage := Py.float_mul ratio (Py.float_of_Z 100) in
            callback (Py.float_min percentage (Py.float_of_Z 99))
          else ret tt
      else if Py.eq_str status "finished" then
        callback (Py.float_of_Z 100)
      else ret tt
  end.

Definition get_yt_dlp_options (output_path : string) (max_size : Z)
    (progress_callback : option callback) : ydl_opts :=
  let format_string :=
    "best[filesize<" +:+ Py.str_of_Z max_size +:+ "]/bestvideo[filesize<"
    +:+ Py.str_of_Z max_size +:+ "]+bestaudio/best" in
  {| opt_format := format_string;
     opt_outtmpl := output_path;
     opt_quiet := true;
     opt_no_warnings := true;
     opt_merge_output_format := "mp4";
     opt_progress_hooks :=
       match progress_callback with
       | Some _ => [fun d => _handle_progress d progress_callback]
       | None => []
       end |}.

Fixpoint has_dot (s : string) : bool :=
  match s with
  | EmptyString => false
  | String c s' => Ascii.eqb c "." || has_dot s'
  end.

(** [s.rsplit('.', 1)[0]]: what stands before the last dot, all of [s]
    when it has none. *)
Fixpoint rsplit_dot_head (s : string) : string :=
  match s with
  | EmptyString => EmptyString
  | String c s' =>
      if has_dot s' then String c (rsplit_dot_head s')
      else if Ascii.eqb c "." then EmptyString
      else s
  end.

Definition succeeded (path : string) (size : Z) : DownloadResult :=
  {| success := true; file_path := Some path; error_message := None; file_size := size |}.

Definition failed (msg : string) : DownloadResult :=
  {| success := false; file_path := None; error_message := Some msg; file_size := 0 |}.

(** The loop over the alternative extensions, with what follows it. *)
Fixpoint probe_extensions (base_path : string) (exts : list string) : M DownloadResult :=
  match exts with
  | [] => ret (failed "File không được tạo sau khi tải")
  | ext :: rest =>
      let alt_path := base_path +:+ ext in
      present <- Os.path_exists alt_path ;;
      if present then
        file_size <- Os.getsize alt_path ;;
        ret (succeeded alt_path file_size)
      else probe_extensions base_path rest
  end.

Section Engine.

(** The extraction engine is a collaborator: [YoutubeDL(opts)] used as
    a context manager around [ydl.download(urls)].  It may write files,
    call the progress hooks, log and raise. *)
Variable ydl_download : ydl_opts -> list string -> M unit.

(** The text of the identifier [uuid.uuid4()] draws for this call. *)
Variable uuid4 : string.

Definition download_video (url output_dir : string) (max_size : Z)
    (progress_callback : option callback) : M DownloadResult :=
  let unique_filename := uuid4 +:+ ".mp4" in
  let output_path := Os.path_join output_dir unique_filename in
  let opts := get_yt_dlp_options output_path max_size progress_callback in
  try_except
    (ydl_download opts [url] ;;;
     present <- Os.path_exists output_path ;;
     if present then
       file_size <- Os.getsize output_path ;;
       ret (succeeded output_path file_size)
     else
       let base_path := rsplit_dot_head output_path in
       probe_extensions base_path [".mp4"; ".mkv"; ".webm"; ".m4a"])
    (fun e =>
       if String.eqb (Py.exn_type e) "DownloadError"
       then ret (failed (Py.exn_msg e))
       else ret (failed (Py.exn_msg e))).

End Engine.

End Downloader.

(** ** Regular expressions, as [re.search] runs the patterns of url_parser.py

    The text is a list of code points, each a number. *)

Module Re.

(** The fragment of the pattern language the module uses: literals,
    classes, sequence, alternation, a greedy optional group and a greedy
    repetition of a class. *)
Inductive regex :=
| Eps
| Chr (c : N)
| Set_ (p : N -> bool)
| Seq (r1 r2 : regex)
| Alt (r1 r2 : regex)
| Opt (r : regex)
| PlusSet (p : N -> bool).

(** The code points of a text written in ASCII. *)
Definition str (s : string) : list N := List.map N_of_ascii (list_ascii_of_string s).

(** A literal text. *)
Fixpoint lit_of (l : list N) : regex :=
  match l with
  | [] => Eps
  | c :: l' => Seq (Chr c) (lit_of l')
  end.

Definition lit (s : string) : regex := lit_of (str s).

Definition in_range (lo hi c : N) : bool := ((lo <=? c) && (c <=? hi))%N.

(** [0-9] *)
Definition ascii_digit (c : N) : bool := in_range 48 57 c.

(** [a-zA-Z0-9_] *)
Definition ascii_word (c : N) : bool :=
  in_range 97 122 c || in_range 65 90 c || ascii_digit c || (c =? 95)%N.

(** [\d] in a pattern that is a [str]: a decimal digit of any script. *)
Definition digit (db : Py.unicode) (c : N) : bool :=
  if (c <? 128)%N then ascii_digit c else Py.is_decimal db c.

(** [\w] in a pattern that is a [str]: alphanumeric in any script, or
    the underscore. *)
Definition word (db : Py.unicode) (c : N) : bool :=
  if (c <? 128)%N then ascii_word c else Py.is_alnum db c.

(** [.]: anything but a line feed *)
Definition dot (c : N) : bool := negb (c =? 10)%N.

(** The remainders [class+] can leave, the longest run first. *)
Fixpoint star_rems (p : N -> bool) (s : list N) : list (list N) :=
  match s with
  | c :: s' => if p c then star_rems p s' ++ [s] else [s]
  | [] => [s]
  end.

Definition plus_rems (p : N -> bool) (s : list N) : list (list N) :=
  match s with
  | c :: s' => if p c then star_rems p s' else []
  | [] => []
  end.

(** Matching at the start of [s]: every remainder a match can leave, in
    the order in which a backtracking matcher finds them. *)
Fixpoint match_here (r : regex) (s : list N) : list (list N) :=
  match r with
  | Eps => [s]
  | Chr c => match s with
             | c' :: s' => if (c =? c')%N then [s'] else []
             | [] => []
             end
  | Set_ p => match s with
              | c' :: s' => if p c' then [s'] else []
              | [] => []
              end
  | Seq r1 r2 => List.flat_map (match_here r2) (match_here r1 s)
  | Alt r1 r2 => match_here r1 s ++ match_here r2 s
  | Opt r1 => match_here r1 s ++ [s]
  | PlusSet p => plus_rems p s
  end.

(** [re.search(r, s)] followed by [.group(0)]: the leftmost position at
    which a match starts, and there the first match found. *)
Fixpoint search (r : regex) (s : list N) : option (list N) :=
  match match_here r s with
  | rest :: _ => Some (take (length s - length rest)%nat s)
  | [] => match s with
          | [] => None
          | _ :: s' => search r s'
          end
  end.

End Re.

(** ** url_parser.py *)

Module UrlParser.
Import Models Re.

Section Patterns.
Variable db : Py.unicode.

(** [(?:https?://)?] *)
Definition scheme : regex := Opt (Seq (lit "http") (Seq (Opt (Chr 115)) (lit "://"))).
(** [(?:www\.)?] *)
Definition www : regex := Opt (lit "www.").
(** [[\w-]+] *)
Definition word_or_hyphen (c : N) : bool := word db c || (c =? 45)%N.
(** [[\w._]+] *)
Definition word_dot_underscore (c : N) : bool :=
  word db c || (c =? 46)%N || (c =? 95)%N.

Definition PLATFORM_PATTERNS : list (Platform * list regex) :=
  [ (YOUTUBE,
      [ Seq scheme (Seq www (Seq (lit "youtube.com/watch?v=") (PlusSet word_or_hyphen)));
        Seq scheme (Seq www (Seq (lit "youtube.com/shorts/") (PlusSet word_or_hyphen)));
        Seq scheme (Seq www (Seq (lit "youtu.be/") (PlusSet word_or_hyphen))) ]);
    (FACEBOOK,
      [ Seq scheme (Seq www (Seq (lit "facebook.com/")
          (Seq (PlusSet dot) (Seq (lit "/videos/") (PlusSet (digit db))))));
        Seq scheme (Seq www (Seq (lit "facebook.com/reel/") (PlusSet (digit db))));
        Seq scheme (Seq www (Seq (lit "facebook.com/stories/") (PlusSet (digit db))));
        Seq scheme (Seq (lit "fb.watch/") (PlusSet word_or_hyphen)) ]);
    (INSTAGRAM,
      [ Seq scheme (Seq www (Seq (lit "instagram.com/")
          (Seq (Alt (lit "p") (Alt (lit "reel") (lit "reels")))
               (Seq (lit "/") (PlusSet word_or_hyphen)))));
        Seq scheme (Seq www (Seq (lit "instagram.com/stories/")
          (Seq (PlusSet word_dot_underscore) (Seq (lit "/") (PlusSet (digit db)))))) ]) ].

(** The inner loop: the patterns of one platform, in their listed order. *)
Fixpoint first_match (patterns : list regex) (text : list N) : option (list N) :=
  match patterns with
  | [] => None
  | pattern :: rest =>
      match search pattern text with
      | Some m => Some m
      | None => first_match rest text
      end
  end.

(** The outer loop: the platforms in the order of the table. *)
Fixpoint scan (table : list (Platform * list regex)) (text : list N)
  : option (list N) * Platform :=
  match table with
  | [] => (None, UNKNOWN)
  | (platform, patterns) :: rest =>
      match first_match patterns text with
      | Some m => (Some m, platform)
      | None => scan rest text
      end
  end.

Definition parse_url (text : list N) : option (list N) * Platform :=
  scan PLATFORM_PATTERNS text.

End Patterns.

Definition is_supported_platform (platform : Platform) : bool :=
  negb (Platform_eqb platform UNKNOWN).

End UrlParser.

(** ** error_handler.py *)

Module ErrorHandler.
Import Models.

Definition is_ascii (c : ascii) : bool := (N_of_ascii c <? 128)%N.

Definition is_upper (c : ascii) : bool :=
  ((65 <=? N_of_ascii c) && (N_of_ascii c <=? 90))%N.

(** The lower case of an ASCII character. *)
Definition lower_char (c : ascii) : ascii :=
  if is_upper c then ascii_of_N (N_of_ascii c + 32) else c.

(** [s.lower()], from the place in the text that follows [before]: an
    ASCII character is lowered where it stands, whatever is around it;
    what is written for the others is the database's. *)
Fixpoint lower_from (db : Py.unicode) (before s : string) : string :=
  match s with
  | EmptyString => EmptyString
  | String c s' =>
      (if is_ascii c then String (lower_char c) EmptyString
       else Py.lower_beyond db before c s')
      +:+ lower_from db (before +:+ String c EmptyString) s'
  end.

(** [s.lower()] *)
Definition lower (db : Py.unicode) (s : string) : string := lower_from db EmptyString s.

Fixpoint starts_with (k s : string) : bool :=
  match k, s with
  | EmptyString, _ => true
  | String a k', String b s' => Ascii.eqb a b && starts_with k' s'
  | String _ _, EmptyString => false
  end.

(** [k in s] *)
Fixpoint contains (k s : string) : bool :=
  starts_with k s ||
  match s with
  | EmptyString => false
  | String _ s' => contains k s'
  end.

(** [any(keyword in error_str for keyword in keywords)] *)
Definition any_keyword (keywords : list string) (error_str : string) : bool :=
  existsb (fun keyword => contains keyword error_str) keywords.

Definition not_found_keywords : list string :=
  [ "video unavailable"; "not found"; "does not exist"; "has been removed";
    "deleted"; "unavailable"; "no video"; "404" ].

Definition access_denied_keywords : list string :=
  [ "private"; "restricted"; "age-restricted"; "age restricted"; "login required";
    "sign in"; "members only"; "subscribers only"; "permission denied";
    "access denied"; "forbidden"; "403" ].

Definition network_keywords : list string :=
  [ "network"; "connection"; "timeout"; "timed out"; "unreachable"; "dns"; "socket";
    "ssl"; "certificate"; "connect error"; "connection refused"; "connection reset";
    "no internet" ].

Definition update_keywords : list string :=
  [ "update"; "outdated"; "upgrade"; "new version"; "please update"; "yt-dlp needs";
    "extractor error" ].

Definition _is_video_not_found_error (error_str : string) : bool :=
  any_keyword not_found_keywords error_str.

Definition _is_access_denied_error (error_str : string) : bool :=
  any_keyword access_denied_keywords error_str.

Definition _is_network_error (error_str : string) : bool :=
  any_keyword network_keywords error_str.

Definition _is_ytdlp_update_error (error_str : string) : bool :=
  any_keyword update_keywords error_str.

Definition log_error (error : Py.exn) (context : string) : M unit :=
  if negb (String.eqb context EmptyString) then
    log ERROR ("[" +:+ context +:+ "] Error: " +:+ Py.exn_type error +:+ ": "
               +:+ Py.exn_msg error)
  else
    log ERROR ("Error: " +:+ Py.exn_type error +:+ ": " +:+ Py.exn_msg error).

Definition map_ytdlp_error (db : Py.unicode) (error : Py.exn) : M DownloadError :=
  log_error error EmptyString ;;;
  let error_str := lower db (Py.exn_msg error) in
  if _is_video_not_found_error error_str then ret VIDEO_NOT_FOUND
  else if _is_access_denied_error error_str then ret ACCESS_DENIED
  else if _is_network_error error_str then ret NETWORK_ERROR
  else if _is_ytdlp_update_error error_str then ret YTDLP_ERROR
  else ret UNKNOWN_ERROR.

Definition get_error_message (error : DownloadError) : string :=
  DownloadError_value error.

Definition get_user_friendly_error (db : Py.unicode) (error : Py.exn) : M string :=
  download_error <- map_ytdlp_error db error ;;
  ret (get_error_message download_error).

End ErrorHandler.

(** ** progress.py *)

Module Progress.

Definition MSG_DOWNLOADING : string := "Đang tải video...".
Definition MSG_SENDING : string := "Đang gửi video...".
Definition MSG_COMPLETED : string := "Hoàn tất!".

Record ProgressManager := { bot : Bot }.

Definition send_progress (self : ProgressManager) (chat_id : Z) (text : string) : M Z :=
  log DEBUG ("Gửi tin nhắn tiến trình đến chat " +:+ Py.str_of_Z chat_id +:+ ": " +:+ text) ;;;
  message_id <- Transport.send_message (bot self) chat_id text ;;
  log INFO ("Đã gửi tin nhắn tiến trình (message_id=" +:+ Py.str_of_Z message_id +:+ ")") ;;;
  ret message_id.

Definition update_progress (self : ProgressManager) (chat_id message_id : Z)
    (text : string) : M bool :=
  try_except
    (log DEBUG ("Cập nhật tin nhắn tiến trình (chat=" +:+ Py.str_of_Z chat_id +:+ ", msg="
                +:+ Py.str_of_Z message_id +:+ "): " +:+ text) ;;;
     Transport.edit_message_text (bot self) chat_id message_id text ;;;
     log INFO ("Đã cập nhật tin nhắn tiến trình (message_id=" +:+ Py.str_of_Z message_id
               +:+ ")") ;;;
     ret true)
    (fun e =>
       log WARNING ("Không thể cập nhật tin nhắn tiến trình: " +:+ Py.exn_msg e) ;;;
       ret false).

Definition delete_progress (self : ProgressManager) (chat_id message_id : Z) : M bool :=
  try_except
    (log DEBUG ("Xóa tin nhắn tiến trình (chat=" +:+ Py.str_of_Z chat_id +:+ ", msg="
                +:+ Py.str_of_Z message_id +:+ ")") ;;;
     Transport.delete_message (bot self) chat_id message_id ;;;
     log INFO ("Đã xóa tin nhắn tiến trình (message_id=" +:+ Py.str_of_Z message_id
               +:+ ")") ;;;
     ret true)
    (fun e =>
       log WARNING ("Không thể xóa tin nhắn tiến trình: " +:+ Py.exn_msg e) ;;;
       ret false).

Definition send_downloading (self : ProgressManager) (chat_id : Z) : M Z :=
  send_progress self chat_id MSG_DOWNLOADING.

Definition update_sending (self : ProgressManager) (chat_id message_id : Z) : M bool :=
  update_progress self chat_id message_id MSG_SENDING.

Definition finalize_progress (self : ProgressManager) (chat_id message_id : Z)
    (delete : bool) (final_text : option string) : M bool :=
  if delete then delete_progress self chat_id message_id
  else
    let text := match final_text with
                | Some t => if String.eqb t EmptyString then MSG_COMPLETED else t
                | None => MSG_COMPLETED
                end in
    update_progress self chat_id message_id text.

Definition update_downloading_percent (self : ProgressManager) (chat_id message_id : Z)
    (percent : Py.val) : M bool :=
  capped <- lift (Py.min2 (Py.VInt 100) percent) ;;
  clamped <- lift (Py.max2 (Py.VInt 0) capped) ;;
  shown <- lift (Py.format_0f clamped) ;;
  let text := "Đang tải video... " +:+ shown +:+ "%" in
  update_progress self chat_id message_id text.

End Progress.

(** ** auth.py *)

Module Auth.

Record User := { id : Z }.

(** Of an incoming update only the sender matters here; the rest of
    the update and the handler's context are kept abstract. *)
Record Update (payload : Type) := {
  effective_user : option User;
  update_payload : payload
}.
Arguments effective_user {payload} _.
Arguments update_payload {payload} _.

Definition is_authorized (user_id owner_id : Z) : bool := user_id =? owner_id.

Section Decorator.
Context {payload context : Type}.

(** A handler is a coroutine of the update and the context; what it
    returns is a Python value. *)
Definition handler := Update payload -> context -> M Py.val.

Definition auth_decorator (owner_id : Z) (func : handler) : handler :=
  fun update ctx =>
    match effective_user update with
    | None => ret Py.VNone
    | Some user =>
        if negb (is_authorized (id user) owner_id) then ret Py.VNone
        else func update ctx
    end.

End Decorator.

End Auth.

(* ===================================================================== *)
(** * Part II: the vocabulary of the statements, and sample data         *)
(* ===================================================================== *)

Definition empty_world : world := World ∅ no_faults [] [].

(** A small part of the Unicode database, enough for the samples: the
    letters of Latin-1 and the Arabic-Indic digits are alphanumeric, the
    latter are decimal digits, and the Kelvin sign (the bytes 226, 132,
    170) is lowered to [k]; every other character outside ASCII is left
    as it is. *)
Module SampleUnicode.

Fixpoint ends_with (suffix s : string) : bool :=
  String.eqb suffix s ||
  match s with
  | EmptyString => false
  | String _ s' => ends_with suffix s'
  end.

Definition arabic_indic_digit (c : N) : bool := ((1632 <=? c) && (c <=? 1641))%N.

Definition latin1_letter (c : N) : bool :=
  ((192 <=? c) && (c <=? 255) && negb (c =? 215) && negb (c =? 247))%N.

Definition kelvin_lower (before : string) (c : ascii) (after : string) : string :=
  let then_132_170 := String "132" (String "170" EmptyString) in
  if Ascii.eqb c "226" && String.prefix then_132_170 after then "k"
  else if Ascii.eqb c "132" && ends_with (String "226" EmptyString) before
          && String.prefix (String "170" EmptyString) after then EmptyString
  else if Ascii.eqb c "170" && ends_with (String "226" (String "132" EmptyString)) before
       then EmptyString
  else String c EmptyString.

Definition db : Py.unicode :=
  {| Py.is_alnum := fun c => latin1_letter c || arabic_indic_digit c;
     Py.is_decimal := arabic_indic_digit;
     Py.lower_beyond := kelvin_lower |}.

End SampleUnicode.

(** The value a run returns, or the exception it raises. *)
Definition outcome {A} (m : M A) (w : world) : Py.exn + A := fst (m w).

(** The world a run leaves behind. *)
Definition after {A} (m : M A) (w : world) : world := snd (m w).

(** [w], in which [os.remove] fails as [rf] says. *)
Definition with_remove_fault (rf : string -> option Py.exn) (w : world) : world :=
  World (w_fs w)
        (Faults (getsize_fault (w_faults w)) (open_fault (w_faults w)) rf)
        (w_log w) (w_calls w).

Module AuthSpec.
Import Auth.

(** The update comes from the owner. *)
Definition from_owner {payload} (owner_id : Z) (update : Update payload) : Prop :=
  exists user, effective_user update = Some user /\ id user = owner_id.

(** A handler that leaves a trace and raises: whoever runs it shows it. *)
Definition tell_tale {payload context : Type} : @handler payload context :=
  fun _ _ => log INFO "handler invoked" ;;; raise (Py.Exn "RuntimeError" "invoked").

Definition stranger : Update unit := {| effective_user := Some {| id := 1002 |}; update_payload := tt |}.
Definition owner : Update unit := {| effective_user := Some {| id := 1001 |}; update_payload := tt |}.
Definition anonymous : Update unit := {| effective_user := None; update_payload := tt |}.

End AuthSpec.

Module ProgressSpec.

(** A transport on which every primitive is refused. *)
Definition refusing_bot : Bot :=
  {| send_message_result := fun _ _ => inl (Py.Exn "Forbidden" "bot was blocked by the user");
     edit_message_text_result := fun _ _ _ => inl (Py.Exn "BadRequest" "Message to edit not found");
     delete_message_result := fun _ _ => inl (Py.Exn "BadRequest" "Message to delete not found");
     send_video_result := fun _ _ => inl (Py.Exn "NetworkError" "Connection reset") |}.

(** A transport on which every primitive succeeds. *)
Definition willing_bot : Bot :=
  {| send_message_result := fun _ _ => inr 42;
     edit_message_text_result := fun _ _ _ => inr tt;
     delete_message_result := fun _ _ => inr tt;
     send_video_result := fun _ _ => inr tt |}.

End ProgressSpec.

Module ErrorSpec.
Import ErrorHandler.

(** [k] stands in [s]. *)
Definition occurs (k s : string) : Prop := exists a b, s = a +:+ k +:+ b.

(** The lowered text of [t] holds a keyword of the group. *)
Definition has_keyword (db : Py.unicode) (group : list string) (t : string) : Prop :=
  exists k, In k group /\ occurs k (lower db t).

(** A text of ASCII characters only. *)
Fixpoint ascii_text (s : string) : bool :=
  match s with
  | EmptyString => true
  | String c s' => is_ascii c && ascii_text s'
  end.

(** An ASCII text with its capitals lowered. *)
Fixpoint fold_case (s : string) : string :=
  match s with
  | EmptyString => EmptyString
  | String c s' => String (lower_char c) (fold_case s')
  end.

(** [k] occurs in [t] up to the case of ASCII letters: some stretch of
    [t], all ASCII, is [k] once its capitals are lowered. *)
Definition occurs_ci (k t : string) : Prop :=
  exists a u b, t = a +:+ u +:+ b /\ ascii_text u = true /\ fold_case u = k.

(** The classification of an error whose text is [t]. *)
Definition classify (db : Py.unicode) (t : string) : Py.exn + Models.DownloadError :=
  outcome (map_ytdlp_error db (Py.Exn "DownloadError" t)) empty_world.

(** The chain of tests of [map_ytdlp_error], the log entry set aside. *)
Definition first_group (error_str : string) : Models.DownloadError :=
  if _is_video_not_found_error error_str then Models.VIDEO_NOT_FOUND
  else if _is_access_denied_error error_str then Models.ACCESS_DENIED
  else if _is_network_error error_str then Models.NETWORK_ERROR
  else if _is_ytdlp_update_error error_str then Models.YTDLP_ERROR
  else Models.UNKNOWN_ERROR.

Definition gone_and_offline : Py.exn :=
  Py.Exn "DownloadError" "ERROR: Video NOT FOUND (network unreachable)".
Definition private_and_stale : Py.exn :=
  Py.Exn "DownloadError" "ERROR: Private video; please update yt-dlp".
Definition private_gone_and_stale : Py.exn :=
  Py.Exn "DownloadError" "Private video not found, please update yt-dlp".
Definition plain : Py.exn := Py.Exn "ValueError" "something odd happened".
Definition engine_needs : Py.exn := Py.Exn "DownloadError" "yt-dlp needs a newer release".
Definition extractor_needs : Py.exn := Py.Exn "DownloadError" "extractor needs".

(** "Networ", the Kelvin sign, " is down" *)
Definition kelvin_network : Py.exn :=
  Py.Exn "DownloadError"
    ("Networ" +:+ String "226" (String "132" (String "170" EmptyString)) +:+ " is down").

End ErrorSpec.

Module SenderSpec.

(** A computation that leaves the files and the faults as they are and
    does not look at how [os.remove] would fail. *)
Definition reads_only {A} (m : M A) : Prop :=
  forall w,
    w_fs (after m w) = w_fs w
    /\ w_faults (after m w) = w_faults w
    /\ forall rf, m (with_remove_fault rf w) = (outcome m w, with_remove_fault rf (after m w)).

(** One of the characters [0] to [9]. *)
Definition is_digit (c : ascii) : bool :=
  ((48 <=? N_of_ascii c) && (N_of_ascii c <=? 57))%N.

(** A number written with one digit after the point. *)
Definition one_decimal (s : string) : Prop :=
  exists (sign : string) (whole : N) (c : ascii),
    (sign = EmptyString \/ sign = "-")
    /\ is_digit c = true
    /\ s = sign +:+ Py.str_of_N whole +:+ "." +:+ String c EmptyString.

(** A number written without a point. *)
Definition no_decimals (s : string) : Prop :=
  exists (sign : string) (whole : N),
    (sign = EmptyString \/ sign = "-") /\ s = sign +:+ Py.str_of_N whole.

Definition is_number (x : spec_float) : bool :=
  match x with S754_zero _ | S754_finite _ _ _ => true | _ => false end.

(** [n] is the whole number nearest to [num / den], the even one of the
    two when [num / den] lies half-way between them. *)
Definition nearest (n num den : Z) : Prop :=
  2 * Z.abs (n * den - num) <= den
  /\ (2 * Z.abs (n * den - num) = den -> Z.even n = true).

(** The transport was not called during the run. *)
Definition no_transport_call {A} (m : M A) (w : world) : Prop :=
  w_calls (after m w) = w_calls w.

Definition sixty_mb_world : world :=
  World {[ "/tmp/clip.mp4" := File (60 * 1024 * 1024) ]} no_faults [] [].

Definition ten_mb_world : world :=
  World {[ "/tmp/clip.mp4" := File (10 * 1024 * 1024) ]} no_faults [] [].

(** The same, on a medium from which the file cannot be removed. *)
Definition read_only_world : world :=
  with_remove_fault
    (fun p => Some (Py.Exn "PermissionError" ("[Errno 13] Permission denied: '" +:+ p +:+ "'")))
    ten_mb_world.

(** A file whose size cannot be read any more once it was seen to exist. *)
Definition unreadable_world : world :=
  World {[ "/tmp/clip.mp4" := File (10 * 1024 * 1024) ]}
    (Faults (fun p => Some (Py.Exn "OSError" ("[Errno 5] Input/output error: '" +:+ p +:+ "'")))
            (fun _ => None) (fun _ => None))
    [] [].

End SenderSpec.

Module DownloaderSpec.
Import Models Downloader.

(** The fields [_handle_progress] reads in an event, with their defaults. *)
Definition status (d : gmap string Py.val) : Py.val :=
  Py.get_or d "status" (Py.VStr EmptyString).
Definition downloaded (d : gmap string Py.val) : Py.val :=
  Py.get_or d "downloaded_bytes" (Py.VInt 0).
Definition total (d : gmap string Py.val) : Py.val :=
  Py.or_ (Py.or_ (Py.get d "total_bytes") (Py.get d "total_bytes_estimate")) (Py.VInt 0).
Definition fragment_index (d : gmap string Py.val) : Py.val :=
  Py.get_or d "fragment_index" (Py.VInt 0).
Definition fragment_count (d : gmap string Py.val) : Py.val :=
  Py.get_or d "fragment_count" (Py.VInt 0).

(** [min(ratio * 100.0, 99.0)] *)
Definition capped (ratio : spec_float) : spec_float :=
  Py.float_min (Py.float_mul ratio (Py.float_of_Z 100)) (Py.float_of_Z 99).

(** A callback that writes down the percentage it is given. *)
Definition report : callback := fun percent => log INFO (Py.format_f 1 percent).

Definition event (fields : list (string * Py.val)) : gmap string Py.val :=
  list_to_map fields.

Definition half_way : gmap string Py.val :=
  event [ ("status", Py.VStr "downloading"); ("downloaded_bytes", Py.VInt 50);
          ("total_bytes", Py.VInt 100) ].
Definition all_bytes : gmap string Py.val :=
  event [ ("status", Py.VStr "downloading"); ("downloaded_bytes", Py.VInt 100);
          ("total_bytes", Py.VInt 100) ].
Definition five_of_ten_fragments : gmap string Py.val :=
  event [ ("status", Py.VStr "downloading"); ("downloaded_bytes", Py.VInt 0);
          ("total_bytes", Py.VNone); ("total_bytes_estimate", Py.VNone);
          ("fragment_index", Py.VInt 5); ("fragment_count", Py.VInt 10) ].
Definition finished_event : gmap string Py.val :=
  event [ ("status", Py.VStr "finished"); ("downloaded_bytes", Py.VInt 7) ].
Definition unknown_status : gmap string Py.val :=
  event [ ("status", Py.VStr "error"); ("downloaded_bytes", Py.VInt 50);
          ("total_bytes", Py.VInt 100) ].
Definition no_totals : gmap string Py.val :=
  event [ ("status", Py.VStr "downloading"); ("downloaded_bytes", Py.VInt 50) ].

(** The invariant of a [DownloadResult] as the specification words it. *)
Definition stated_invariant (r : DownloadResult) : Prop :=
  (success r = true ->
     is_Some (file_path r) /\ 0 < file_size r /\ error_message r = None)
  /\ (success r = false ->
     file_path r = None /\ file_size r = 0 /\ is_Some (error_message r)).

(** The invariant the results have, in the world the call leaves. *)
Definition invariant (w : world) (r : DownloadResult) : Prop :=
  (success r = true ->
     exists path n,
       file_path r = Some path /\ w_fs w !! path = Some n
       /\ file_size r = Z.of_N (node_size n) /\ 0 <= file_size r
       /\ error_message r = None)
  /\ (success r = false ->
     file_path r = None /\ file_size r = 0 /\ is_Some (error_message r)).

(** An engine that leaves an empty file where it was told to write. *)
Definition empty_file_engine : ydl_opts -> list string -> M unit :=
  fun opts _ w =>
    (inr tt, World (<[ opt_outtmpl opts := File 0 ]> (w_fs w)) (w_faults w) (w_log w)
                   (w_calls w)).

(** An engine that writes a file of 10 MB. *)
Definition working_engine : ydl_opts -> list string -> M unit :=
  fun opts _ w =>
    (inr tt, World (<[ opt_outtmpl opts := File (10 * 1024 * 1024) ]> (w_fs w)) (w_faults w)
                   (w_log w) (w_calls w)).

(** An engine that fails with its distinguished error. *)
Definition failing_engine : ydl_opts -> list string -> M unit :=
  fun _ _ => raise (Py.Exn "DownloadError" "ERROR: Video unavailable").

(** An engine that fails with some other exception. *)
Definition crashing_engine : ydl_opts -> list string -> M unit :=
  fun _ _ => raise (Py.Exn "KeyError" "'formats'").

Definition sample_uuid : string := "12345678-1234-5678-1234-567812345678".

End DownloaderSpec.

Module UrlSpec.
Import Models Re UrlParser.

(** The texts a pattern describes. *)
Inductive matches : regex -> list N -> Prop :=
| matches_eps : matches Eps []
| matches_chr c : matches (Chr c) [c]
| matches_set (p : N -> bool) c : p c = true -> matches (Set_ p) [c]
| matches_seq r1 r2 u v : matches r1 u -> matches r2 v -> matches (Seq r1 r2) (u ++ v)
| matches_alt_l r1 r2 u : matches r1 u -> matches (Alt r1 r2) u
| matches_alt_r r1 r2 u : matches r2 u -> matches (Alt r1 r2) u
| matches_opt_some r u : matches r u -> matches (Opt r) u
| matches_opt_none r : matches (Opt r) []
| matches_plus (p : N -> bool) u :
    u <> [] -> forallb p u = true -> matches (PlusSet p) u.

(** A stretch of the text has the shape [r] describes. *)
Definition occurs (r : regex) (text : list N) : Prop :=
  exists a u b, text = a ++ u ++ b /\ matches r u.

(** Nothing of that shape starts before position [k] of the text. *)
Definition none_before (r : regex) (text : list N) (k : nat) : Prop :=
  forall a u b, text = a ++ u ++ b -> matches r u -> (k <= length a)%nat.

(** The length of the shortest text a pattern describes. *)
Fixpoint min_len (r : regex) : nat :=
  match r with
  | Eps => 0
  | Chr _ | Set_ _ | PlusSet _ => 1
  | Seq r1 r2 => min_len r1 + min_len r2
  | Alt r1 r2 => Nat.min (min_len r1) (min_len r2)
  | Opt _ => 0
  end.

(** The table read as the nested loops read it: platform by platform,
    and pattern by pattern within a platform. *)
Definition flat_patterns (db : Py.unicode) : list (Platform * regex) :=
  List.flat_map (fun entry => List.map (pair (fst entry)) (snd entry))
    (PLATFORM_PATTERNS db).

(** The two loops as one, over a flat list. *)
Fixpoint first_flat (l : list (Platform * regex)) (text : list N)
  : option (list N) * Platform :=
  match l with
  | [] => (None, UNKNOWN)
  | (platform, pattern) :: rest =>
      match search pattern text with
      | Some m => (Some m, platform)
      | None => first_flat rest text
      end
  end.

(** The platform of each entry of the flat table: three patterns of
    YouTube, four of Facebook, two of Instagram. *)
Definition platform_at (i : nat) : Platform :=
  if (i <? 3)%nat then YOUTUBE else if (i <? 7)%nat then FACEBOOK else INSTAGRAM.

(** The text holds a URL of the shape of one of the platform's patterns. *)
Definition has_shape (db : Py.unicode) (platform : Platform) (text : list N) : Prop :=
  exists r, In (platform, r) (flat_patterns db) /\ occurs r text.

(** A short canonical link late in the text, after a longer short-form
    link. *)
Definition later_and_shorter : list N :=
  str "https://youtu.be/a-much-longer-identifier and youtube.com/watch?v=x".

(** An Instagram link first, a YouTube link after it. *)
Definition instagram_then_youtube : list N :=
  str "https://www.instagram.com/reel/Cxyz_1 then youtu.be/abc".

(** A link to a platform that is not in the table. *)
Definition vimeo_link : list N := str "check out https://vimeo.com/123456789".

(** A Facebook link, then a YouTube link whose identifier is the letter
    e with an acute accent (code point 233). *)
Definition accented_identifier : list N :=
  str "facebook.com/reel/1 youtu.be/" ++ [233%N].

(** A YouTube link whose identifier goes on after an accented letter. *)
Definition accent_inside : list N :=
  str "https://youtu.be/abc" ++ [233%N] ++ str "123 and more".

(** A Facebook reel numbered in Arabic-Indic digits (1633, 1634, 1635). *)
Definition arabic_indic_reel : list N :=
  str "facebook.com/reel/" ++ [1633%N; 1634%N; 1635%N].

End UrlSpec.

Module MoreSpec.


(** An engine that writes a Matroska file beside the path it was given. *)
Definition mkv_engine : Downloader.ydl_opts -> list string -> M unit :=
  fun opts _ w =>
    (inr tt,
     World (<[ Downloader.rsplit_dot_head (Downloader.opt_outtmpl opts) +:+ ".mkv"
               := File (3 * 1024 * 1024) ]> (w_fs w))
           (w_faults w) (w_log w) (w_calls w)).

(** An engine that returns without writing anything. *)
Definition idle_engine : Downloader.ydl_opts -> list string -> M unit :=
  fun _ _ => ret tt.

(** The rank of a platform in the table of patterns; [UNKNOWN] comes
    after all of them. *)
Definition priority (platform : Models.Platform) : nat :=
  match platform with
  | Models.YOUTUBE => 0
  | Models.FACEBOOK => 1
  | Models.INSTAGRAM => 2
  | Models.UNKNOWN => 3
  end.



(** The exception [handle_message] builds from a failed result before it
    asks for the text to show:
    [Exception(result.error_message or "Unknown error")]. *)
Definition reported_error (r : Models.DownloadResult) : Py.exn :=
  Py.Exn "Exception"
    (match Models.error_message r with
     | Some m => if String.eqb m EmptyString then "Unknown error" else m
     | None => "Unknown error"
     end).

(** [n] is the percentage shown for the float [x]: [x] clamped to the
    range from 0 to 100, then rounded to the nearest whole number, the
    even one at a tie.  A finite [x] is the ratio [num / den] exactly; a
    NaN, which [min] and [max] never find smaller or greater than
    anything, comes out as 100. *)
Definition clamped_rounded (x : spec_float) (n : N) : Prop :=
  match x with
  | S754_nan => n = 100%N
  | S754_infinity s => n = if s then 0%N else 100%N
  | S754_zero _ => n = 0%N
  | S754_finite s m e =>
      let num := (if s then Zneg m else Zpos m) * 2 ^ Z.max e 0 in
      let den := 2 ^ Z.max (- e) 0 in
      (num <= 0 -> n = 0%N)
      /\ (100 * den <= num -> n = 100%N)
      /\ (0 < num < 100 * den -> SenderSpec.nearest (Z.of_N n) num den)
  end.

(** A float that is not a NaN and carries the sign [+]. *)
Definition plus_signed (x : spec_float) : bool :=
  match x with
  | S754_nan => false
  | S754_zero s | S754_infinity s | S754_finite s _ _ => negb s
  end.

(** A number [x] with [0 <= x <= 99]. *)
Definition in_percent_range (x : spec_float) : bool :=
  SenderSpec.is_number x
  && negb (SFltb x (S754_zero false))
  && negb (SFltb (Py.float_of_Z 99) x).

(** The test of [match_here_within]: the remainder still holds all of [b]. *)
Definition keeps_at_least (b rem : list N) : bool := (length b <=? length rem)%nat.

End MoreSpec.

(* ===================================================================== *)
(** * Part III: properties                                               *)
(* ===================================================================== *)

(** ** The monad *)

Lemma bind_ret_l {A B} (a : A) (k : A -> M B) (w : world) : bind (ret a) k w = k a w.
Proof. reflexivity. Qed.

Lemma bind_value {A B} (m : M A) (k : A -> M B) (w w' : world) (a : A) :
  m w = (inr a, w') -> bind m k w = k a w'.
Proof. intros H. unfold bind. rewrite H. reflexivity. Qed.

Lemma bind_raises {A B} (m : M A) (k : A -> M B) (w w' : world) (e : Py.exn) :
  m w = (inl e, w') -> bind m k w = (inl e, w').
Proof. intros H. unfold bind. rewrite H. reflexivity. Qed.

Lemma try_except_value {A} (m : M A) (h : Py.exn -> M A) (w w' : world) (a : A) :
  m w = (inr a, w') -> try_except m h w = (inr a, w').
Proof. intros H. unfold try_except. rewrite H. reflexivity. Qed.

Lemma try_except_raises {A} (m : M A) (h : Py.exn -> M A) (w w' : world) (e : Py.exn) :
  m w = (inl e, w') -> try_except m h w = h e w'.
Proof. intros H. unfold try_except. rewrite H. reflexivity. Qed.

(** ** auth.py *)

Section AuthFacts.
Import Auth AuthSpec.
Context {payload context : Type}.
Implicit Types (func : @handler payload context) (update : Update payload).

Lemma from_owner_authorized owner_id update :
  from_owner owner_id update <->
  exists user, effective_user update = Some user /\ is_authorized (id user) owner_id = true.
Proof.
  unfold from_owner, is_authorized.
  split; intros (u & Hu & Hid); exists u; split; auto; lia.
Qed.

Lemma wrapper_runs_handler owner_id func update ctx w :
  from_owner owner_id update ->
  auth_decorator owner_id func update ctx w = func update ctx w.
Proof.
  intros (u & Hu & Hid). unfold auth_decorator. rewrite Hu.
  unfold is_authorized. rewrite (proj2 (Z.eqb_eq _ _) Hid). reflexivity.
Qed.

Lemma wrapper_skips_handler owner_id func update ctx w :
  ~ from_owner owner_id update ->
  auth_decorator owner_id func update ctx w = (inr Py.VNone, w).
Proof.
  intros Hno. unfold auth_decorator.
  destruct (effective_user update) as [u|] eqn:Hu; [|reflexivity].
  unfold is_authorized. destruct (Z.eqb_spec (id u) owner_id) as [Heq|Hne]; [|reflexivity].
  exfalso. apply Hno. exists u. auto.
Qed.

(** C10.  An auth-wrapped handler answers [None] and leaves the world as
    it was, whatever the inner handler is, when the update has no
    effective user or the user is not the owner; it is the inner handler,
    run once on the same update and context, exactly when the user's id
    is the owner's. *)
Theorem auth_decorator_gate (owner_id : Z) (update : Update payload) (ctx : context) :
  (~ from_owner owner_id update <->
     forall func w, auth_decorator owner_id func update ctx w = (inr Py.VNone, w))
  /\ (from_owner owner_id update <->
     forall func w, auth_decorator owner_id func update ctx w = func update ctx w)
  /\ (effective_user update = None -> ~ from_owner owner_id update)
  /\ (forall user, effective_user update = Some user -> id user <> owner_id ->
        ~ from_owner owner_id update).
Proof.
  split; [|split; [|split]].
  - split.
    + intros Hno func w. apply wrapper_skips_handler; assumption.
    + intros Hall Hyes.
      specialize (Hall tell_tale empty_world).
      rewrite (wrapper_runs_handler _ _ _ _ _ Hyes) in Hall. discriminate Hall.
  - split.
    + intros Hyes func w. apply wrapper_runs_handler; assumption.
    + intros Hall.
      destruct (effective_user update) as [u|] eqn:Hu.
      * destruct (Z.eq_dec (id u) owner_id) as [Heq|Hne]; [exists u; auto|].
        specialize (Hall tell_tale empty_world).
        rewrite wrapper_skips_handler in Hall; [discriminate Hall|].
        intros (u' & Hu' & Hid). congruence.
      * specialize (Hall tell_tale empty_world).
        rewrite wrapper_skips_handler in Hall; [discriminate Hall|].
        intros (u' & Hu' & _). congruence.
  - intros Hnone (u & Hu & _). congruence.
  - intros user Hu Hne (u' & Hu' & Hid). congruence.
Qed.

End AuthFacts.

(** The gate at work on three updates, for the owner 1001. *)
Lemma auth_decorator_gate_witness :
  Auth.auth_decorator 1001 AuthSpec.tell_tale AuthSpec.anonymous tt empty_world
    = (inr Py.VNone, empty_world)
  /\ Auth.auth_decorator 1001 AuthSpec.tell_tale AuthSpec.stranger tt empty_world
    = (inr Py.VNone, empty_world)
  /\ Auth.auth_decorator 1001 AuthSpec.tell_tale AuthSpec.owner tt empty_world
    = AuthSpec.tell_tale AuthSpec.owner tt empty_world.
Proof.
  split; [|split].
  - apply (proj1 (proj1 (auth_decorator_gate 1001 AuthSpec.anonymous tt))).
    apply (proj1 (proj2 (proj2 (auth_decorator_gate 1001 AuthSpec.anonymous tt)))).
    reflexivity.
  - apply (proj1 (proj1 (auth_decorator_gate 1001 AuthSpec.stranger tt))).
    apply (proj2 (proj2 (proj2 (auth_decorator_gate 1001 AuthSpec.stranger tt))) {| Auth.id := 1002 |}).
    + reflexivity.
    + simpl. lia.
  - apply (proj1 (proj1 (proj2 (auth_decorator_gate 1001 AuthSpec.owner tt)))).
    exists {| Auth.id := 1001 |}. split; reflexivity.
Defined.

(** ** progress.py *)

Section ProgressFacts.
Import Progress.
Implicit Types (self : ProgressManager) (w : world).

Lemma update_progress_total self chat_id message_id text w :
  match edit_message_text_result (bot self) chat_id message_id text with
  | inr _ => outcome (update_progress self chat_id message_id text) w = inr true
  | inl e =>
      outcome (update_progress self chat_id message_id text) w = inr false
      /\ last (w_log (after (update_progress self chat_id message_id text) w))
         = Some (WARNING, "Không thể cập nhật tin nhắn tiến trình: " +:+ Py.exn_msg e)
  end.
Proof.
  unfold outcome, after, update_progress, try_except, bind, Transport.edit_message_text,
    bind, record_call, lift, log, ret.
  destruct (edit_message_text_result (bot self) chat_id message_id text) as [e|[]]; simpl.
  - split; [reflexivity|]. apply last_snoc.
  - reflexivity.
Qed.

Lemma delete_progress_total self chat_id message_id w :
  match delete_message_result (bot self) chat_id message_id with
  | inr _ => outcome (delete_progress self chat_id message_id) w = inr true
  | inl e =>
      outcome (delete_progress self chat_id message_id) w = inr false
      /\ last (w_log (after (delete_progress self chat_id message_id) w))
         = Some (WARNING, "Không thể xóa tin nhắn tiến trình: " +:+ Py.exn_msg e)
  end.
Proof.
  unfold outcome, after, delete_progress, try_except, bind, Transport.delete_message,
    bind, record_call, lift, log, ret.
  destruct (delete_message_result (bot self) chat_id message_id) as [e|[]]; simpl.
  - split; [reflexivity|]. apply last_snoc.
  - reflexivity.
Qed.

Lemma send_progress_outcome self chat_id text w :
  outcome (send_progress self chat_id text) w = send_message_result (bot self) chat_id text.
Proof.
  unfold outcome, send_progress, bind, Transport.send_message, bind, record_call, lift,
    log, ret.
  destruct (send_message_result (bot self) chat_id text); reflexivity.
Qed.

(** C9, as the code has it.  Editing and deleting the status message never
    raise: they answer [True] when the transport accepted the call, and
    when it raised they log a warning carrying the exception's text and
    answer [False].  Sending a new status message is not guarded: it
    returns the identifier of the message, and an exception of the
    transport leaves [send_progress] as it is. *)
Theorem status_message_failures self chat_id message_id text w :
  match edit_message_text_result (bot self) chat_id message_id text with
  | inr _ => outcome (update_progress self chat_id message_id text) w = inr true
  | inl e =>
      outcome (update_progress self chat_id message_id text) w = inr false
      /\ last (w_log (after (update_progress self chat_id message_id text) w))
         = Some (WARNING, "Không thể cập nhật tin nhắn tiến trình: " +:+ Py.exn_msg e)
  end
  /\ match delete_message_result (bot self) chat_id message_id with
     | inr _ => outcome (delete_progress self chat_id message_id) w = inr true
     | inl e =>
         outcome (delete_progress self chat_id message_id) w = inr false
         /\ last (w_log (after (delete_progress self chat_id message_id) w))
            = Some (WARNING, "Không thể xóa tin nhắn tiến trình: " +:+ Py.exn_msg e)
     end
  /\ match send_message_result (bot self) chat_id text with
     | inr sent => outcome (send_progress self chat_id text) w = inr sent
     | inl e => outcome (send_progress self chat_id text) w = inl e
     end.
Proof.
  split; [apply update_progress_total|split; [apply delete_progress_total|]].
  rewrite send_progress_outcome.
  destruct (send_message_result (bot self) chat_id text); reflexivity.
Qed.

End ProgressFacts.

(** C9, as stated, fails on sending: the transport's exception comes out of
    [send_progress], no boolean is returned. *)
Lemma send_progress_raises :
  outcome (Progress.send_progress {| Progress.bot := ProgressSpec.refusing_bot |} 7
             Progress.MSG_DOWNLOADING) empty_world
  = inl (Py.Exn "Forbidden" "bot was blocked by the user").
Proof. reflexivity. Qed.

(** On the same transport, editing and deleting answer [False]. *)
Example update_and_delete_refused :
  outcome (Progress.update_progress {| Progress.bot := ProgressSpec.refusing_bot |} 7 42
             Progress.MSG_SENDING) empty_world = inr false
  /\ outcome (Progress.delete_progress {| Progress.bot := ProgressSpec.refusing_bot |} 7 42)
       empty_world = inr false.
Proof. split; reflexivity. Qed.

(** ** Strings *)

Lemma append_cons (c : ascii) (a b : string) : String c a +:+ b = String c (a +:+ b).
Proof. reflexivity. Qed.

Lemma append_nil_l (b : string) : EmptyString +:+ b = b.
Proof. reflexivity. Qed.

Lemma append_empty_r (s : string) : s +:+ EmptyString = s.
Proof. induction s as [|c s IH]; [reflexivity | now rewrite append_cons, IH]. Qed.

Lemma append_assoc (a b c : string) : (a +:+ b) +:+ c = a +:+ (b +:+ c).
Proof. induction a as [|x a IH]; [reflexivity | now rewrite !append_cons, IH]. Qed.

Lemma append_length (a b : string) :
  String.length (a +:+ b) = (String.length a + String.length b)%nat.
Proof. induction a as [|x a IH]; [reflexivity | rewrite append_cons; simpl; now rewrite IH]. Qed.

(** ** error_handler.py *)

Section ErrorHandlerFacts.
Import Models ErrorHandler ErrorSpec.
Variable db : Py.unicode.

Lemma fold_case_append (a b : string) : fold_case (a +:+ b) = fold_case a +:+ fold_case b.
Proof.
  induction a as [|x a IH]; [reflexivity|].
  rewrite append_cons. simpl. now rewrite append_cons, IH.
Qed.

Lemma ascii_text_append (a b : string) :
  ascii_text (a +:+ b) = ascii_text a && ascii_text b.
Proof.
  induction a as [|x a IH]; [reflexivity|].
  rewrite append_cons. simpl. now rewrite IH, andb_assoc.
Qed.

(** A prefix of a folded text is the folding of a prefix. *)
Lemma fold_case_split (t a' r' : string) :
  fold_case t = a' +:+ r' ->
  exists a r, t = a +:+ r /\ fold_case a = a' /\ fold_case r = r'.
Proof.
  revert t. induction a' as [|x a' IH]; intros t H.
  - exists EmptyString, t. rewrite append_nil_l in H. auto.
  - rewrite append_cons in H. destruct t as [|c t]; simpl in H; [discriminate|].
    injection H as Hx Ht. destruct (IH _ Ht) as (a & r & -> & Ha & Hr).
    exists (String c a), r. simpl. rewrite Ha, Hx. auto.
Qed.

(** An ASCII stretch is lowered where it stands, whatever is before it
    and after it. *)
Lemma lower_from_ascii (before u rest : string) :
  ascii_text u = true ->
  lower_from db before (u +:+ rest)
  = fold_case u +:+ lower_from db (before +:+ u) rest.
Proof.
  revert before. induction u as [|c u IH]; intros before Hu.
  - now rewrite !append_nil_l, append_empty_r.
  - simpl in Hu. apply andb_true_iff in Hu. destruct Hu as [Hc Hu].
    rewrite append_cons. cbn [lower_from fold_case]. rewrite Hc, (IH _ Hu).
    rewrite !append_cons, append_nil_l, append_assoc. reflexivity.
Qed.

(** What precedes a stretch is lowered to something, and the stretch is
    lowered after it. *)
Lemma lower_from_append (before a rest : string) :
  exists lowered_a,
    lower_from db before (a +:+ rest)
    = lowered_a +:+ lower_from db (before +:+ a) rest.
Proof.
  revert before. induction a as [|c a IH]; intros before.
  - exists EmptyString. now rewrite !append_nil_l, append_empty_r.
  - rewrite append_cons. cbn [lower_from].
    destruct (IH (before +:+ String c EmptyString)) as [x Hx]. rewrite Hx.
    eexists. rewrite <- append_assoc. f_equal.
    now rewrite append_assoc, append_cons, append_nil_l.
Qed.

(** The lowering of an ASCII text is the folding of its capitals. *)
Lemma lower_ascii (t : string) : ascii_text t = true -> lower db t = fold_case t.
Proof.
  intros Ht. unfold lower.
  rewrite <- (append_empty_r t) at 1. rewrite (lower_from_ascii _ _ _ Ht).
  apply append_empty_r.
Qed.

Lemma starts_with_iff (k s : string) :
  starts_with k s = true <-> exists b, s = k +:+ b.
Proof.
  revert s. induction k as [|x k IH]; intros s; simpl.
  - split; [intros _; exists s; reflexivity | reflexivity].
  - destruct s as [|c s].
    + split; [discriminate | intros [b Hb]; rewrite append_cons in Hb; discriminate].
    + rewrite andb_true_iff, Ascii.eqb_eq, IH. split.
      * intros [-> [b ->]]. exists b. reflexivity.
      * intros [b Hb]. rewrite append_cons in Hb. injection Hb as -> ->.
        split; [reflexivity | exists b; reflexivity].
Qed.

Lemma contains_iff (k s : string) :
  contains k s = true <-> exists a b, s = a +:+ k +:+ b.
Proof.
  induction s as [|c s IH].
  - simpl. rewrite orb_false_r, starts_with_iff. split.
    + intros [b Hb]. exists EmptyString, b. exact Hb.
    + intros (a & b & H). destruct a; [exists b; exact H | rewrite append_cons in H; discriminate].
  - cbn [contains]. rewrite orb_true_iff, starts_with_iff, IH. split.
    + intros [[b Hb] | (a & b & ->)].
      * exists EmptyString, b. exact Hb.
      * exists (String c a), b. reflexivity.
    + intros (a & b & H). destruct a as [|x a].
      * left. exists b. exact H.
      * right. rewrite append_cons in H. injection H as _ ->. exists a, b. reflexivity.
Qed.

(** A stretch of ASCII letters that is a keyword up to case is found by
    the test the code runs, [k in text.lower()]. *)
Lemma occurs_ci_lowered (k t : string) : occurs_ci k t -> occurs k (lower db t).
Proof.
  intros (a & u & b & -> & Hu & <-). unfold lower.
  destruct (lower_from_append EmptyString a (u +:+ b)) as [x Hx].
  rewrite Hx, (lower_from_ascii _ _ _ Hu). eexists _, _. reflexivity.
Qed.

(** In an ASCII text the test finds exactly such stretches. *)
Lemma occurs_lowered_ascii (k t : string) :
  ascii_text t = true -> occurs k (lower db t) -> occurs_ci k t.
Proof.
  intros Ht. rewrite (lower_ascii _ Ht). intros (a' & b' & H).
  destruct (fold_case_split _ _ _ H) as (a & r & -> & Ha & Hr).
  destruct (fold_case_split _ _ _ Hr) as (u & b & -> & Hu & Hb).
  exists a, u, b. split; [reflexivity | split; [|exact Hu]].
  rewrite !ascii_text_append in Ht.
  apply andb_true_iff in Ht. destruct Ht as [_ Ht].
  apply andb_true_iff in Ht. tauto.
Qed.

Lemma any_keyword_iff (group : list string) (t : string) :
  any_keyword group (lower db t) = true <-> has_keyword db group t.
Proof.
  unfold any_keyword, has_keyword, occurs. rewrite existsb_exists.
  split; intros (k & Hin & Hk); exists k; split; auto; now apply contains_iff.
Qed.

Lemma any_keyword_false (group : list string) (t : string) :
  ~ has_keyword db group t -> any_keyword group (lower db t) = false.
Proof.
  intros H. destruct (any_keyword group (lower db t)) eqn:E; [|reflexivity].
  exfalso. apply H, any_keyword_iff, E.
Qed.

Lemma map_ytdlp_error_outcome (error : Py.exn) (w : world) :
  outcome (map_ytdlp_error db error) w = inr (first_group (lower db (Py.exn_msg error))).
Proof.
  unfold outcome, map_ytdlp_error, first_group, bind, log_error, log, ret. simpl.
  destruct (_is_video_not_found_error _); [reflexivity|].
  destruct (_is_access_denied_error _); [reflexivity|].
  destruct (_is_network_error _); [reflexivity|].
  destruct (_is_ytdlp_update_error _); reflexivity.
Qed.

(** The raw error is logged before it is classified. *)
Lemma map_ytdlp_error_logs (error : Py.exn) (w : world) :
  w_log (after (map_ytdlp_error db error) w)
  = (w_log w ++ [(ERROR, "Error: " +:+ Py.exn_type error +:+ ": " +:+ Py.exn_msg error)])%list.
Proof.
  unfold after, map_ytdlp_error, bind, log_error, log, ret. simpl.
  destruct (_is_video_not_found_error _); [reflexivity|].
  destruct (_is_access_denied_error _); [reflexivity|].
  destruct (_is_network_error _); [reflexivity|].
  destruct (_is_ytdlp_update_error _); reflexivity.
Qed.

Ltac decide_group H :=
  unfold _is_video_not_found_error, _is_access_denied_error, _is_network_error,
    _is_ytdlp_update_error;
  first [ rewrite (proj2 (any_keyword_iff _ _) H) | rewrite (any_keyword_false _ _ H) ].

(** C7, as the code has it.  The text of the error is lowered and its
    keywords are looked for in the order not-found, access-denied,
    network, update; the first group with a keyword in the lowered text
    decides: a text with a not-found keyword is VIDEO_NOT_FOUND whatever
    else it holds, a network keyword included; a text with an
    access-denied keyword and no not-found keyword is ACCESS_DENIED, with
    or without an update keyword; and a text with no keyword of any group
    is UNKNOWN_ERROR.  The matching is blind to case: two texts with the
    same lowering are classified alike, a stretch of ASCII letters that
    is a keyword up to case counts as that keyword wherever it stands,
    and in a text of ASCII characters nothing else does.  (Outside
    ASCII, a character the Unicode database lowers to ASCII letters can
    complete a keyword too.) *)
Theorem first_matching_group_wins (error : Py.exn) (w : world) :
  let t := Py.exn_msg error in
  (has_keyword db not_found_keywords t ->
     outcome (map_ytdlp_error db error) w = inr VIDEO_NOT_FOUND)
  /\ (~ has_keyword db not_found_keywords t -> has_keyword db access_denied_keywords t ->
     outcome (map_ytdlp_error db error) w = inr ACCESS_DENIED)
  /\ (~ has_keyword db not_found_keywords t -> ~ has_keyword db access_denied_keywords t ->
      has_keyword db network_keywords t ->
     outcome (map_ytdlp_error db error) w = inr NETWORK_ERROR)
  /\ (~ has_keyword db not_found_keywords t -> ~ has_keyword db access_denied_keywords t ->
      ~ has_keyword db network_keywords t -> has_keyword db update_keywords t ->
     outcome (map_ytdlp_error db error) w = inr YTDLP_ERROR)
  /\ (~ has_keyword db not_found_keywords t -> ~ has_keyword db access_denied_keywords t ->
      ~ has_keyword db network_keywords t -> ~ has_keyword db update_keywords t ->
     outcome (map_ytdlp_error db error) w = inr UNKNOWN_ERROR)
  /\ (forall error' w', lower db (Py.exn_msg error') = lower db t ->
     outcome (map_ytdlp_error db error') w' = outcome (map_ytdlp_error db error) w)
  /\ (forall group k, In k group -> occurs_ci k t -> has_keyword db group t)
  /\ (ascii_text t = true ->
      forall group, has_keyword db group t <-> exists k, In k group /\ occurs_ci k t).
Proof.
  intros t. subst t. rewrite map_ytdlp_error_outcome. unfold first_group.
  split; [|split; [|split; [|split; [|split; [|split; [|split]]]]]].
  - intros H1. now decide_group H1.
  - intros H1 H2. decide_group H1. now decide_group H2.
  - intros H1 H2 H3. decide_group H1. decide_group H2. now decide_group H3.
  - intros H1 H2 H3 H4. decide_group H1. decide_group H2. decide_group H3.
    now decide_group H4.
  - intros H1 H2 H3 H4. decide_group H1. decide_group H2. decide_group H3.
    now decide_group H4.
  - intros error' w' H. rewrite map_ytdlp_error_outcome, H. reflexivity.
  - intros group k Hin Hk. exists k. split; [exact Hin | now apply occurs_ci_lowered].
  - intros Ht group. split.
    + intros (k & Hin & Hk). exists k. split; [exact Hin|].
      now apply occurs_lowered_ascii.
    + intros (k & Hin & Hk). exists k. split; [exact Hin | now apply occurs_ci_lowered].
Qed.

(** C8, as the code has it.  The update group is "update", "outdated",
    "upgrade", "new version", "please update", "yt-dlp needs" and
    "extractor error"; a text that holds one of them up to case,
    "yt-dlp needs" in particular, and whose lowering holds no keyword of
    the three groups before it, is classified YTDLP_ERROR. *)
Theorem update_group (error : Py.exn) (w : world) :
  update_keywords
  = [ "update"; "outdated"; "upgrade"; "new version"; "please update"; "yt-dlp needs";
      "extractor error" ]
  /\ (occurs_ci "yt-dlp needs" (Py.exn_msg error) ->
      ~ has_keyword db not_found_keywords (Py.exn_msg error) ->
      ~ has_keyword db access_denied_keywords (Py.exn_msg error) ->
      ~ has_keyword db network_keywords (Py.exn_msg error) ->
      outcome (map_ytdlp_error db error) w = inr YTDLP_ERROR)
  /\ (forall k, In k update_keywords -> occurs k (lower db (Py.exn_msg error)) ->
      ~ has_keyword db not_found_keywords (Py.exn_msg error) ->
      ~ has_keyword db access_denied_keywords (Py.exn_msg error) ->
      ~ has_keyword db network_keywords (Py.exn_msg error) ->
      outcome (map_ytdlp_error db error) w = inr YTDLP_ERROR).
Proof.
  assert (Hgen : forall k, In k update_keywords -> occurs k (lower db (Py.exn_msg error)) ->
      ~ has_keyword db not_found_keywords (Py.exn_msg error) ->
      ~ has_keyword db access_denied_keywords (Py.exn_msg error) ->
      ~ has_keyword db network_keywords (Py.exn_msg error) ->
      outcome (map_ytdlp_error db error) w = inr YTDLP_ERROR).
  { intros k Hin Hk H1 H2 H3.
    assert (H4 : has_keyword db update_keywords (Py.exn_msg error)) by (exists k; auto).
    rewrite map_ytdlp_error_outcome. unfold first_group.
    decide_group H1. decide_group H2. decide_group H3. now decide_group H4. }
  split; [reflexivity | split; [|exact Hgen]].
  intros Hk. apply (Hgen "yt-dlp needs"); [simpl; tauto | now apply occurs_ci_lowered].
Qed.

End ErrorHandlerFacts.

Section ErrorHandlerSamples.
Import Models ErrorHandler ErrorSpec.

Ltac keyword_there := apply any_keyword_iff; vm_compute; reflexivity.
Ltac keyword_absent :=
  let H := fresh in intros H; apply any_keyword_iff in H; vm_compute in H; discriminate H.

Lemma first_matching_group_wins_witness :
  outcome (map_ytdlp_error SampleUnicode.db gone_and_offline) empty_world
  = inr VIDEO_NOT_FOUND
  /\ outcome (map_ytdlp_error SampleUnicode.db private_and_stale) empty_world
     = inr ACCESS_DENIED
  /\ outcome (map_ytdlp_error SampleUnicode.db plain) empty_world = inr UNKNOWN_ERROR.
Proof.
  split; [|split].
  - apply (proj1 (first_matching_group_wins SampleUnicode.db gone_and_offline empty_world)).
    keyword_there.
  - apply (proj1 (proj2 (first_matching_group_wins SampleUnicode.db private_and_stale
                           empty_world))).
    + keyword_absent.
    + keyword_there.
  - apply (proj1 (proj2 (proj2 (proj2 (proj2
             (first_matching_group_wins SampleUnicode.db plain empty_world))))));
      keyword_absent.
Defined.

(** The classification of a text of ASCII characters is the same whatever
    the Unicode database says. *)
Lemma ascii_classification (db db' : Py.unicode) (error : Py.exn) (w w' : world) :
  ascii_text (Py.exn_msg error) = true ->
  outcome (map_ytdlp_error db error) w = outcome (map_ytdlp_error db' error) w'.
Proof.
  intros Ht. rewrite !map_ytdlp_error_outcome. now rewrite !lower_ascii.
Qed.

(** C7, as stated, fails: a text with an access-denied keyword ("private")
    and an update keyword ("update") that also holds a not-found keyword
    is VIDEO_NOT_FOUND.  The text is all ASCII, so that no Unicode
    database makes a difference. *)
Lemma access_denied_and_update_yet_not_found :
  ascii_text (Py.exn_msg private_gone_and_stale) = true
  /\ occurs_ci "private" (Py.exn_msg private_gone_and_stale)
  /\ occurs_ci "update" (Py.exn_msg private_gone_and_stale)
  /\ In "private" access_denied_keywords /\ In "update" update_keywords
  /\ has_keyword SampleUnicode.db access_denied_keywords (Py.exn_msg private_gone_and_stale)
  /\ has_keyword SampleUnicode.db update_keywords (Py.exn_msg private_gone_and_stale)
  /\ outcome (map_ytdlp_error SampleUnicode.db private_gone_and_stale) empty_world
     = inr VIDEO_NOT_FOUND
  /\ outcome (map_ytdlp_error SampleUnicode.db private_gone_and_stale) empty_world
     <> inr ACCESS_DENIED.
Proof.
  split; [reflexivity|]. split.
  { exists EmptyString, "Private", " video not found, please update yt-dlp".
    split; [reflexivity | split; reflexivity]. }
  split.
  { exists "Private video not found, please ", "update", " yt-dlp".
    split; [reflexivity | split; reflexivity]. }
  split; [simpl; tauto|]. split; [simpl; tauto|].
  split; [keyword_there|]. split; [keyword_there|].
  split; [reflexivity | discriminate].
Qed.

Lemma update_group_witness :
  outcome (map_ytdlp_error SampleUnicode.db engine_needs) empty_world = inr YTDLP_ERROR.
Proof.
  apply (proj1 (proj2 (update_group SampleUnicode.db engine_needs empty_world))).
  - exists EmptyString, "yt-dlp needs", " a newer release".
    split; [reflexivity | split; reflexivity].
  - keyword_absent.
  - keyword_absent.
  - keyword_absent.
Defined.

(** C8, as stated, fails: "extractor needs" is not a keyword of the update
    group, and a text that is just that is UNKNOWN_ERROR. *)
Lemma extractor_needs_is_unknown :
  occurs_ci "extractor needs" (Py.exn_msg extractor_needs)
  /\ ~ has_keyword SampleUnicode.db not_found_keywords (Py.exn_msg extractor_needs)
  /\ ~ has_keyword SampleUnicode.db access_denied_keywords (Py.exn_msg extractor_needs)
  /\ ~ has_keyword SampleUnicode.db network_keywords (Py.exn_msg extractor_needs)
  /\ ~ In "extractor needs" update_keywords
  /\ outcome (map_ytdlp_error SampleUnicode.db extractor_needs) empty_world
     = inr UNKNOWN_ERROR.
Proof.
  split; [|split; [|split; [|split; [|split]]]].
  - exists EmptyString, "extractor needs", EmptyString.
    split; [reflexivity | split; reflexivity].
  - keyword_absent.
  - keyword_absent.
  - keyword_absent.
  - simpl. intros H. repeat (destruct H as [H|H]; [discriminate H|]). exact H.
  - reflexivity.
Qed.

(** A character outside ASCII can complete a keyword: with the Kelvin sign
    lowered to [k], "Networ", the sign, " is down" is a network error. *)
Example kelvin_sign_completes_network :
  outcome (map_ytdlp_error SampleUnicode.db kelvin_network) empty_world
  = inr NETWORK_ERROR.
Proof. reflexivity. Qed.

End ErrorHandlerSamples.

(** ** sender.py *)

Section ReadsOnly.
Import SenderSpec.

Lemma run_eta {A} (m : M A) (w : world) : m w = (outcome m w, after m w).
Proof. unfold outcome, after. destruct (m w); reflexivity. Qed.

Lemma reads_only_ret {A} (a : A) : reads_only (ret a).
Proof. intros w. auto. Qed.

Lemma reads_only_lift {A} (r : Py.exn + A) : reads_only (lift r).
Proof. intros w. auto. Qed.

Lemma reads_only_log (l : level) (msg : string) : reads_only (log l msg).
Proof. intros w. auto. Qed.

Lemma reads_only_record_call (c : call) : reads_only (record_call c).
Proof. intros w. auto. Qed.

Lemma reads_only_bind {A B} (m : M A) (k : A -> M B) :
  reads_only m -> (forall a, reads_only (k a)) -> reads_only (bind m k).
Proof.
  intros Hm Hk w. destruct (Hm w) as (Hfs & Hfa & Hrf).
  unfold after, outcome, bind in *.
  destruct (m w) as [[e|a] w1] eqn:E; simpl in *.
  - repeat split; auto. intros rf. rewrite Hrf. reflexivity.
  - destruct (Hk a w1) as (Hfs1 & Hfa1 & Hrf1). unfold after, outcome in *.
    repeat split; try congruence. intros rf. rewrite Hrf. apply Hrf1.
Qed.

Lemma reads_only_try_except {A} (m : M A) (h : Py.exn -> M A) :
  reads_only m -> (forall e, reads_only (h e)) -> reads_only (try_except m h).
Proof.
  intros Hm Hh w. destruct (Hm w) as (Hfs & Hfa & Hrf).
  unfold after, outcome, try_except in *.
  destruct (m w) as [[e|a] w1] eqn:E; simpl in *.
  - destruct (Hh e w1) as (Hfs1 & Hfa1 & Hrf1). unfold after, outcome in *.
    repeat split; try congruence. intros rf. rewrite Hrf. apply Hrf1.
  - repeat split; auto. intros rf. rewrite Hrf. reflexivity.
Qed.

Lemma reads_only_path_exists (p : string) : reads_only (Os.path_exists p).
Proof. intros w. auto. Qed.

Lemma reads_only_getsize (p : string) : reads_only (Os.getsize p).
Proof.
  intros w. unfold after, outcome, Os.getsize. simpl.
  destruct (getsize_fault (w_faults w) p); [auto|].
  destruct (w_fs w !! p); auto.
Qed.

Lemma reads_only_with_open_rb {A} (p : string) (body : M A) :
  reads_only body -> reads_only (Os.with_open_rb p body).
Proof.
  intros Hb w. destruct (Hb w) as (Hfs & Hfa & Hrf).
  unfold after, outcome, Os.with_open_rb in *. simpl.
  destruct (open_fault (w_faults w) p); [auto|].
  destruct (w_fs w !! p) as [[sz|sz]|]; auto.
Qed.

End ReadsOnly.

Section SenderFacts.
Import Sender SenderSpec.
Implicit Types (bot : Bot) (w : world) (file_path : string).

Create HintDb reads.
Local Hint Resolve reads_only_ret reads_only_lift reads_only_log reads_only_record_call
  reads_only_path_exists reads_only_getsize : reads.

Ltac reads_only_steps :=
  repeat first
    [ apply reads_only_bind; [|intros ?]
    | apply reads_only_try_except; [|intros ?]
    | apply reads_only_with_open_rb
    | match goal with |- reads_only (if ?b then _ else _) => destruct b end
    | solve [auto with reads] ].

Lemma reads_only_get_file_size file_path : reads_only (get_file_size file_path).
Proof. unfold get_file_size. reads_only_steps. Qed.

Lemma reads_only_send_video_try bot chat_id file_path max_size :
  reads_only (send_video_try bot chat_id file_path max_size).
Proof.
  unfold send_video_try, Transport.send_video.
  apply reads_only_bind; [auto with reads|intros present].
  destruct (negb present); [reads_only_steps|].
  apply reads_only_bind; [apply reads_only_get_file_size|intros file_size].
  reads_only_steps.
Qed.

Lemma reads_only_send_video_except (e : Py.exn) : reads_only (send_video_except e).
Proof. unfold send_video_except. reads_only_steps. Qed.

Lemma reads_only_attempt bot chat_id file_path max_size :
  reads_only (try_except (send_video_try bot chat_id file_path max_size) send_video_except).
Proof.
  apply reads_only_try_except;
    [apply reads_only_send_video_try | apply reads_only_send_video_except].
Qed.

(** The [except] block makes a result of every exception. *)
Lemma attempt_returns bot chat_id file_path max_size w :
  exists result,
    outcome (try_except (send_video_try bot chat_id file_path max_size) send_video_except) w
    = inr result.
Proof.
  unfold outcome, try_except.
  destruct (send_video_try bot chat_id file_path max_size w) as [[e|r] w1].
  - eexists. reflexivity.
  - eexists. reflexivity.
Qed.

(** [cleanup_file] never raises.  Either the path is absent afterwards and
    the answer is [True], or the removal failed: nothing changed, the
    failure is the last entry of the log and the answer is [False]. *)
Lemma cleanup_file_cases file_path w :
  exists removed,
    outcome (cleanup_file file_path) w = inr removed
    /\ w_calls (after (cleanup_file file_path) w) = w_calls w
    /\ (forall q, q <> file_path ->
          w_fs (after (cleanup_file file_path) w) !! q = w_fs w !! q)
    /\ ((removed = true /\ w_fs (after (cleanup_file file_path) w) !! file_path = None)
        \/ (removed = false
            /\ w_fs (after (cleanup_file file_path) w) = w_fs w
            /\ (is_Some (remove_fault (w_faults w) file_path)
                \/ exists size, w_fs w !! file_path = Some (Dir size))
            /\ exists e,
                 last (w_log (after (cleanup_file file_path) w))
                 = Some (ERROR, "Lỗi khi xóa file " +:+ file_path +:+ ": " +:+ Py.exn_msg e))).
Proof.
  unfold outcome, after, cleanup_file, try_except, bind, Os.path_exists, Os.remove, log, ret.
  simpl.
  destruct (w_fs w !! file_path) as [n|] eqn:Hn.
  - rewrite bool_decide_eq_true_2 by eauto.
    destruct (remove_fault (w_faults w) file_path) as [e|] eqn:Hrf; simpl.
    + exists false. repeat split; auto. right. repeat split; auto.
      exists e. apply last_snoc.
    + rewrite Hn. destruct n as [size|size]; simpl.
      * exists true. repeat split; auto.
        -- intros q Hq. now apply lookup_delete_ne.
        -- left. split; [reflexivity | apply lookup_delete_eq].
      * exists false. repeat split; auto. right. repeat split; eauto.
        exists (Os.is_a_directory file_path). apply last_snoc.
  - rewrite bool_decide_eq_false_2 by (intros [? ?]; congruence). simpl.
    exists true. repeat split; auto.
Qed.

(** C1.  Whatever the files, the faults and the transport are,
    [send_video] returns a pair and does not raise, and [cleanup_file] has
    run on the path by then: the path is absent from the file system
    afterwards, unless the removal itself failed, in which case the files
    are as before and the failure is the last entry of the log, at level
    ERROR.  The pair returned does not depend on how the removal goes;
    the path is gone for sure when [os.remove] has no fault on it and it
    is not a directory; no other path is touched. *)
Theorem send_video_always_cleans_up bot chat_id file_path max_size w :
  exists result,
    outcome (send_video bot chat_id file_path max_size) w = inr result
    /\ (w_fs (after (send_video bot chat_id file_path max_size) w) !! file_path = None
        \/ (w_fs (after (send_video bot chat_id file_path max_size) w) = w_fs w
            /\ (is_Some (remove_fault (w_faults w) file_path)
                \/ exists size, w_fs w !! file_path = Some (Dir size))
            /\ exists e,
                 last (w_log (after (send_video bot chat_id file_path max_size) w))
                 = Some (ERROR, "Lỗi khi xóa file " +:+ file_path +:+ ": " +:+ Py.exn_msg e)))
    /\ (forall rf,
          outcome (send_video bot chat_id file_path max_size) (with_remove_fault rf w)
          = inr result)
    /\ (forall q, q <> file_path ->
          w_fs (after (send_video bot chat_id file_path max_size) w) !! q = w_fs w !! q).
Proof.
  pose proof (reads_only_attempt bot chat_id file_path max_size) as Hro.
  destruct (attempt_returns bot chat_id file_path max_size w) as [result Hres].
  exists result.
  assert (Hrun : forall w0,
    send_video bot chat_id file_path max_size w0
    = (match outcome (cleanup_file file_path)
               (after (try_except (send_video_try bot chat_id file_path max_size)
                                  send_video_except) w0) with
       | inl e => inl e
       | inr _ => outcome (try_except (send_video_try bot chat_id file_path max_size)
                                      send_video_except) w0
       end,
       after (cleanup_file file_path)
         (after (try_except (send_video_try bot chat_id file_path max_size)
                            send_video_except) w0))).
  { intros w0. unfold send_video, try_finally, outcome, after.
    destruct (try_except _ _ w0) as [r w1]. simpl.
    destruct (cleanup_file file_path w1) as [[e|b] w2]; reflexivity. }
  set (attempt := try_except (send_video_try bot chat_id file_path max_size)
                    send_video_except) in *.
  destruct (Hro w) as (Hfs & Hfa & Hrf).
  destruct (cleanup_file_cases file_path (after attempt w))
    as (removed & Hout & _ & Hother & Hcases).
  unfold outcome at 1, after at 1 2 3 4. rewrite !Hrun. simpl. rewrite Hout, Hres.
  split; [reflexivity|]. split; [|split].
  - destruct Hcases as [[_ Hgone] | (_ & Hsame & Hwhy & Hlog)].
    + left. exact Hgone.
    + right. rewrite Hsame, Hfs. rewrite Hfa, Hfs in Hwhy. auto.
  - intros rf. unfold outcome at 1. rewrite Hrun. simpl.
    destruct (cleanup_file_cases file_path (after attempt (with_remove_fault rf w)))
      as (removed' & Hout' & _). rewrite Hout'.
    unfold outcome at 1. rewrite Hrf. simpl. exact Hres.
  - intros q Hq. rewrite Hother by exact Hq. now rewrite Hfs.
Qed.

Lemma path_exists_present file_path w (n : node) :
  w_fs w !! file_path = Some n -> Os.path_exists file_path w = (inr true, w).
Proof.
  intros Hn. unfold Os.path_exists. now rewrite bool_decide_eq_true_2 by eauto.
Qed.

Lemma path_exists_absent file_path w :
  w_fs w !! file_path = None -> Os.path_exists file_path w = (inr false, w).
Proof.
  intros Hn. unfold Os.path_exists.
  now rewrite bool_decide_eq_false_2 by (intros [? ?]; congruence).
Qed.

Lemma get_file_size_of_file file_path w (n : node) :
  w_fs w !! file_path = Some n ->
  getsize_fault (w_faults w) file_path = None ->
  get_file_size file_path w = (inr (Z.of_N (node_size n)), w).
Proof.
  intros Hn Hg. unfold get_file_size, try_except, bind, Os.path_exists, Os.getsize, ret.
  rewrite bool_decide_eq_true_2 by eauto. now rewrite Hg, Hn.
Qed.

Lemma is_file_size_valid_of_file file_path w (n : node) (m : Z) :
  w_fs w !! file_path = Some n ->
  getsize_fault (w_faults w) file_path = None ->
  is_file_size_valid file_path m w = (inr (Z.of_N (node_size n) <=? m), w).
Proof.
  intros Hn Hg. unfold is_file_size_valid.
  rewrite (bind_value _ _ _ _ _ (get_file_size_of_file _ _ _ Hn Hg)).
  destruct (Z.ltb_spec (Z.of_N (node_size n)) 0); [lia | reflexivity].
Qed.

(** The two blocks of [send_video] on a file larger than the ceiling. *)
Lemma attempt_too_large bot chat_id file_path max_size w (n : node) :
  w_fs w !! file_path = Some n ->
  getsize_fault (w_faults w) file_path = None ->
  max_size < Z.of_N (node_size n) ->
  let attempt := try_except (send_video_try bot chat_id file_path max_size)
                   send_video_except in
  w_calls (after attempt w) = w_calls w
  /\ (exists msg, outcome attempt w = inr (false, Some msg))
  /\ (forall size_mb max_mb,
        Py.int_truediv (Z.of_N (node_size n)) (1024 * 1024) = inr size_mb ->
        Py.int_truediv max_size (1024 * 1024) = inr max_mb ->
        outcome attempt w = inr (false, Some (too_large_msg size_mb max_mb))).
Proof.
  intros Hn Hg Hlt attempt. subst attempt.
  assert (Htry : send_video_try bot chat_id file_path max_size w
    = match Py.int_truediv (Z.of_N (node_size n)) (1024 * 1024),
            Py.int_truediv max_size (1024 * 1024) with
      | inl e, _ => (inl e, w)
      | inr _, inl e => (inl e, w)
      | inr size_mb, inr max_mb =>
          (inr (false, Some (too_large_msg size_mb max_mb)),
           after (log WARNING ("File quá lớn: " +:+ file_path +:+ " ("
                               +:+ Py.format_f 1 size_mb +:+ "MB)")) w)
      end).
  { unfold send_video_try.
    rewrite (bind_value _ _ _ _ _ (path_exists_present _ _ _ Hn)). cbn [negb].
    rewrite (bind_value _ _ _ _ _ (get_file_size_of_file _ _ _ Hn Hg)).
    destruct (Z.ltb_spec (Z.of_N (node_size n)) 0) as [Hneg|_]; [lia|].
    rewrite (proj2 (Z.ltb_lt _ _) Hlt).
    destruct (Py.int_truediv (Z.of_N (node_size n)) (1024 * 1024)) as [e1|size_mb];
      [reflexivity|].
    destruct (Py.int_truediv max_size (1024 * 1024)) as [e2|max_mb]; reflexivity. }
  unfold outcome, after, try_except. rewrite Htry.
  destruct (Py.int_truediv (Z.of_N (node_size n)) (1024 * 1024)) as [e1|size_mb].
  - split; [reflexivity|]. split; [eexists; reflexivity|]. intros ? ? [=].
  - destruct (Py.int_truediv max_size (1024 * 1024)) as [e2|max_mb].
    + split; [reflexivity|]. split; [eexists; reflexivity|]. intros ? ? _ [=].
    + split; [reflexivity|]. split; [eexists; reflexivity|].
      intros ? ? [= <-] [= <-]. reflexivity.
Qed.

(** [send_video] returns what its two blocks return, and makes the calls
    they make. *)
Lemma send_video_of_attempt bot chat_id file_path max_size w :
  let attempt := try_except (send_video_try bot chat_id file_path max_size)
                   send_video_except in
  outcome (send_video bot chat_id file_path max_size) w = outcome attempt w
  /\ w_calls (after (send_video bot chat_id file_path max_size) w)
     = w_calls (after attempt w).
Proof.
  intros attempt.
  destruct (cleanup_file_cases file_path (after attempt w)) as (removed & Hout & Hcalls & _).
  unfold outcome, after, send_video, try_finally in *. fold attempt.
  destruct (attempt w) as [r w1]. simpl in *.
  destruct (cleanup_file file_path w1) as [[e|b] w2]; simpl in *; [discriminate|auto].
Qed.

End SenderFacts.

(** ** Floats: quotients of ints are numbers, and how they print *)

Section FloatFacts.
Import SenderSpec.

Lemma shr_1_nonneg (mrs : shr_record) : 0 <= shr_m mrs -> 0 <= shr_m (shr_1 mrs).
Proof.
  destruct mrs as [m r s]. simpl.
  destruct m as [|p|p]; [simpl; lia | | lia].
  intros _. destruct p; simpl; lia.
Qed.

Lemma iter_shr_1_nonneg (p : positive) (mrs : shr_record) :
  0 <= shr_m mrs -> 0 <= shr_m (SpecFloat.iter_pos shr_1 p mrs).
Proof.
  revert mrs. induction p as [p IH|p IH|]; intros mrs H; simpl.
  - apply IH, IH, shr_1_nonneg, H.
  - apply IH, IH, H.
  - apply shr_1_nonneg, H.
Qed.

Lemma shr_fexp_nonneg (m e : Z) (l : location) :
  0 <= m -> 0 <= shr_m (fst (shr_fexp Py.prec Py.emax m e l)).
Proof.
  intros H. unfold shr_fexp, shr.
  assert (H0 : 0 <= shr_m (shr_record_of_loc m l)).
  { destruct l as [|[| |]]; simpl; exact H. }
  destruct (fexp Py.prec Py.emax (Zdigits2 m + e) - e) as [|p|p]; simpl; auto.
  apply iter_shr_1_nonneg, H0.
Qed.

Lemma round_nearest_even_nonneg (m : Z) (l : location) :
  0 <= m -> 0 <= round_nearest_even m l.
Proof.
  intros H. unfold round_nearest_even.
  destruct l as [|[| |]]; try lia. destruct (Z.even m); lia.
Qed.

Lemma binary_round_aux_not_nan (sx : bool) (mx ex : Z) (lx : location) :
  0 <= mx -> binary_round_aux Py.prec Py.emax sx mx ex lx <> S754_nan.
Proof.
  intros H. unfold binary_round_aux.
  pose proof (shr_fexp_nonneg mx ex lx H) as H1.
  destruct (shr_fexp Py.prec Py.emax mx ex lx) as [mrs' e']. simpl in H1.
  pose proof (shr_fexp_nonneg _ e' loc_Exact
                (round_nearest_even_nonneg _ (loc_of_shr_record mrs') H1)) as H2.
  destruct (shr_fexp Py.prec Py.emax _ e' loc_Exact) as [mrs'' e'']. simpl in H2.
  destruct (shr_m mrs'') as [|p|p]; [discriminate | | lia].
  destruct (e'' <=? Py.emax - Py.prec); discriminate.
Qed.

Lemma div_of_finite_not_nan (sx sy : bool) (mx my : positive) (ex ey : Z) :
  SFdiv Py.prec Py.emax (S754_finite sx mx ex) (S754_finite sy my ey) <> S754_nan.
Proof.
  unfold SFdiv, SFdiv_core_binary.
  set (s := _ - _ - Z.min _ _).
  set (m' := match s with Z0 => Zpos mx | Zpos _ => Z.shiftl (Zpos mx) s | Zneg _ => 0 end).
  assert (Hm' : 0 <= m').
  { subst m'. destruct s; try lia. apply Z.shiftl_nonneg. lia. }
  pose proof (Z.div_pos m' (Zpos my) Hm' eq_refl) as Hq.
  unfold Z.div in Hq. destruct (Z.div_eucl m' (Zpos my)) as [q r].
  apply binary_round_aux_not_nan, Hq.
Qed.

(** A quotient of two ints is a number: never an infinity, never a NaN. *)
Lemma int_truediv_number (a b : Z) (x : spec_float) :
  Py.int_truediv a b = inr x -> is_number x = true.
Proof.
  unfold Py.int_truediv.
  destruct (b =? 0); [discriminate|].
  destruct (a =? 0); [intros [= <-]; reflexivity|].
  pose proof (div_of_finite_not_nan (a <? 0) (b <? 0) (Z.to_pos (Z.abs a))
                (Z.to_pos (Z.abs b)) 0 0) as Hnan.
  destruct (SFdiv _ _ _ _) as [s|s| |s m e]; simpl; try discriminate.
  - intros [= <-]. reflexivity.
  - congruence.
  - intros [= <-]. reflexivity.
Qed.

Lemma one_digit (k : N) :
  (k < 10)%N ->
  exists c, is_digit c = true /\ Py.pad_digits 1 k = String c EmptyString.
Proof.
  intros H.
  assert (Hk : (k = 0 \/ k = 1 \/ k = 2 \/ k = 3 \/ k = 4 \/ k = 5 \/ k = 6 \/ k = 7
                \/ k = 8 \/ k = 9)%N) by lia.
  repeat (destruct Hk as [-> | Hk]; [eexists; split; [|vm_compute; reflexivity]; reflexivity|]).
  subst k. eexists; split; [|vm_compute; reflexivity]; reflexivity.
Qed.

Lemma sign_text (s : bool) :
  (if s then "-" else EmptyString) = EmptyString \/ (if s then "-" else EmptyString) = "-".
Proof. destruct s; auto. Qed.

(** [f"{x:.1f}"] on a number has one digit after the point. *)
Lemma format_one_decimal (x : spec_float) :
  is_number x = true -> one_decimal (Py.format_f 1 x).
Proof.
  destruct x as [s|s| |s m e]; try discriminate; intros _; unfold Py.format_f.
  - exists (if s then "-" else EmptyString), 0%N, "0"%char.
    split; [apply sign_text | split; reflexivity].
  - set (n := Z.to_N (Py.scaled_digits 1 m e)).
    change (10 ^ N.of_nat 1)%N with 10%N.
    destruct (one_digit (n mod 10)%N) as (c & Hc & Hpad); [apply N.mod_lt; lia|].
    exists (if s then "-" else EmptyString), (n / 10)%N, c.
    split; [apply sign_text | split; [exact Hc|]]. now rewrite Hpad.
Qed.

(** [f"{x:.0f}"] on a number has no point. *)
Lemma format_no_decimals (x : spec_float) :
  is_number x = true -> no_decimals (Py.format_f 0 x).
Proof.
  destruct x as [s|s| |s m e]; try discriminate; intros _; unfold Py.format_f.
  - exists (if s then "-" else EmptyString), 0%N.
    split; [apply sign_text | reflexivity].
  - set (n := Z.to_N (Py.scaled_digits 0 m e)).
    exists (if s then "-" else EmptyString), (n / 10 ^ N.of_nat 0)%N.
    split; [apply sign_text | now rewrite append_empty_r].
Qed.

(** *** Quotients by a power of two are exact *)

Lemma digits2_pos_bounds (p : positive) :
  2 ^ (Zpos (digits2_pos p) - 1) <= Zpos p < 2 ^ Zpos (digits2_pos p).
Proof.
  induction p as [p IH|p IH|]; cbn [digits2_pos].
  - rewrite Pos2Z.inj_succ.
    replace (Z.succ (Zpos (digits2_pos p)) - 1) with (Z.succ (Zpos (digits2_pos p) - 1))
      by lia.
    rewrite !Z.pow_succ_r by lia. lia.
  - rewrite Pos2Z.inj_succ.
    replace (Z.succ (Zpos (digits2_pos p)) - 1) with (Z.succ (Zpos (digits2_pos p) - 1))
      by lia.
    rewrite !Z.pow_succ_r by lia. lia.
  - simpl. lia.
Qed.

Lemma digits2_pos_unique (p : positive) (n : Z) :
  2 ^ (n - 1) <= Zpos p < 2 ^ n -> Zpos (digits2_pos p) = n.
Proof.
  intros [Hlo Hhi]. pose proof (digits2_pos_bounds p) as [Hlo' Hhi'].
  assert (Hn : 0 < n).
  { destruct (Z.lt_ge_cases 0 n) as [H|H]; [exact H|].
    destruct (Z.eq_dec n 0) as [->|Hne]; [simpl in Hhi; lia|].
    rewrite Z.pow_neg_r in Hhi by lia. lia. }
  destruct (Z.lt_trichotomy (Zpos (digits2_pos p)) n) as [Hlt|[Heq|Hgt]]; [|exact Heq|].
  - assert (2 ^ Zpos (digits2_pos p) <= 2 ^ (n - 1)) by (apply Z.pow_le_mono_r; lia). lia.
  - assert (2 ^ n <= 2 ^ (Zpos (digits2_pos p) - 1)) by (apply Z.pow_le_mono_r; lia). lia.
Qed.

(** A mantissa of 54 bits that is even loses its last bit and nothing
    else. *)
Lemma binary_round_aux_even (sx : bool) (M : positive) (E : Z) :
  Zpos (digits2_pos M) = 53 -> -1074 <= E <= 971 ->
  binary_round_aux Py.prec Py.emax sx (Zpos (xO M)) (E - 1) loc_Exact = S754_finite sx M E.
Proof.
  intros Hd HE. unfold binary_round_aux, shr_fexp.
  cbn [Zdigits2 digits2_pos]. rewrite Pos2Z.inj_succ, Hd.
  replace (fexp Py.prec Py.emax (Z.succ 53 + (E - 1)) - (E - 1)) with 1
    by (unfold fexp, emin, Py.prec, Py.emax; lia).
  cbn [shr shr_record_of_loc SpecFloat.iter_pos shr_1 orb loc_of_shr_record
       round_nearest_even shr_m Zdigits2].
  rewrite Hd.
  replace (fexp Py.prec Py.emax (53 + (E - 1 + 1)) - (E - 1 + 1)) with 0
    by (unfold fexp, emin, Py.prec, Py.emax; lia).
  cbn [shr shr_m].
  replace (E - 1 + 1) with E by lia.
  destruct (Z.leb_spec E (Py.emax - Py.prec)) as [_|H]; [reflexivity|].
  unfold Py.emax, Py.prec in H. lia.
Qed.

(** The quotient of a size below [2^53] by [1024 * 1024], as a float:
    the mantissa is the size, moved up to 53 bits. *)
Lemma int_truediv_mb (a : Z) :
  0 < a < 2 ^ 53 ->
  exists (M : positive) (E : Z),
    Py.int_truediv a (1024 * 1024) = inr (S754_finite false M E)
    /\ E < 0 /\ Zpos M = a * 2 ^ (- E - 20) /\ 20 <= - E.
Proof.
  intros Ha. destruct a as [|p|p]; try lia.
  set (d := Zpos (digits2_pos p)).
  pose proof (digits2_pos_bounds p) as Hb. fold d in Hb.
  assert (Hd : 1 <= d <= 53).
  { split; [subst d; lia|].
    destruct (Z.le_gt_cases d 53) as [H|H]; [exact H|].
    assert (2 ^ 53 <= 2 ^ (d - 1)) by (apply Z.pow_le_mono_r; lia). lia. }
  set (M := Zpos p * 2 ^ (53 - d)).
  assert (Hpow : 0 < 2 ^ (53 - d)) by (apply Z.pow_pos_nonneg; lia).
  assert (HM : 2 ^ 52 <= M < 2 ^ 53).
  { assert (E1 : 2 ^ 52 = 2 ^ (d - 1) * 2 ^ (53 - d))
      by (rewrite <- Z.pow_add_r by lia; f_equal; lia).
    assert (E2 : 2 ^ 53 = 2 ^ d * 2 ^ (53 - d))
      by (rewrite <- Z.pow_add_r by lia; f_equal; lia).
    subst M. split.
    - rewrite E1. apply Z.mul_le_mono_nonneg_r; lia.
    - rewrite E2. apply Z.mul_lt_mono_pos_r; lia. }
  exists (Z.to_pos M), (d - 73).
  assert (HMpos : Zpos (Z.to_pos M) = M) by (apply Z2Pos.id; lia).
  split; [|split; [lia | split; [|lia]]].
  - unfold Py.int_truediv.
    change (1024 * 1024 =? 0) with false. change (Zpos p =? 0) with false. cbn iota.
    change (Zpos p <? 0) with false. change (1024 * 1024 <? 0) with false.
    change (Z.to_pos (Z.abs (Zpos p))) with p.
    change (Z.to_pos (Z.abs (1024 * 1024))) with 1048576%positive.
    assert (Hdiv : SFdiv Py.prec Py.emax (S754_finite false p 0)
                     (S754_finite false 1048576 0)
                   = S754_finite false (Z.to_pos M) (d - 73)).
    { unfold SFdiv, SFdiv_core_binary.
      change (Zdigits2 (Zpos p)) with d. change (Zdigits2 1048576) with 21.
      replace (Z.min (fexp Py.prec Py.emax (d + 0 - (21 + 0))) (0 - 0)) with (d - 74)
        by (unfold fexp, emin, Py.prec, Py.emax; lia).
      replace (0 - 0 - (d - 74)) with (Zpos (Z.to_pos (74 - d)))
        by (rewrite Z2Pos.id; lia).
      rewrite Z.shiftl_mul_pow2 by lia. rewrite Z2Pos.id by lia.
      assert (Hm' : Zpos p * 2 ^ (74 - d) = (2 * M) * 1048576).
      { subst M. replace (74 - d) with ((53 - d) + 21) by lia.
        rewrite Z.pow_add_r by lia. change (2 ^ 21) with (2 * 1048576). lia. }
      rewrite Hm'.
      pose proof (Z.div_mul (2 * M) 1048576 ltac:(lia)) as Hq.
      pose proof (Z.mod_mul (2 * M) 1048576 ltac:(lia)) as Hr.
      unfold Z.div, Z.modulo in Hq, Hr.
      destruct (Z.div_eucl (2 * M * 1048576) 1048576) as [q r]. subst q r.
      change (new_location 1048576 0) with loc_Exact. cbn [xorb].
      replace (2 * M) with (Zpos (xO (Z.to_pos M))) by (rewrite Pos2Z.inj_xO, HMpos; lia).
      replace (d - 74) with ((d - 73) - 1) by lia.
      apply binary_round_aux_even; [|lia].
      apply digits2_pos_unique. rewrite HMpos. exact HM. }
    rewrite Hdiv. reflexivity.
  - rewrite HMpos. subst M. f_equal. f_equal. lia.
Qed.

Lemma round_half_even_nearest (num den : Z) :
  0 < den -> nearest (Py.round_half_even num den) num den.
Proof.
  intros Hden. unfold nearest, Py.round_half_even.
  pose proof (Z.div_mod num den ltac:(lia)) as Hdm.
  pose proof (Z.mod_pos_bound num den Hden) as Hr.
  destruct (Z.compare_spec (2 * (num mod den)) den) as [Heq|Hlt|Hgt].
  - destruct (Z.even (num / den)) eqn:Heven.
    + split; [|intros _; exact Heven]. lia.
    + split; [lia|]. intros _.
      rewrite Z.even_add. rewrite Heven. reflexivity.
  - split; [lia|]. lia.
  - split; [lia|]. lia.
Qed.

Lemma round_half_even_nonneg (num den : Z) :
  0 < den -> 0 <= num -> 0 <= Py.round_half_even num den.
Proof.
  intros Hden Hnum. unfold Py.round_half_even.
  pose proof (Z.div_pos num den Hnum Hden).
  destruct (2 * (num mod den) ?= den); [destruct (Z.even (num / den))| |]; lia.
Qed.

(** A common factor of the two terms of a ratio does not change what it
    is nearest to. *)
Lemma nearest_scale (n k num den : Z) :
  0 < k -> nearest n (k * num) (k * den) -> nearest n num den.
Proof.
  intros Hk [H1 H2]. unfold nearest.
  replace (n * (k * den) - k * num) with (k * (n * den - num)) in H1, H2 by lia.
  rewrite Z.abs_mul, (Z.abs_eq k) in H1, H2 by lia.
  split; [nia|]. intros H. apply H2. nia.
Qed.

Lemma pad_one_digit (k : N) : (k < 10)%N -> Py.pad_digits 1 k = Py.str_of_N k.
Proof.
  intros H.
  assert (Hk : (k = 0 \/ k = 1 \/ k = 2 \/ k = 3 \/ k = 4 \/ k = 5 \/ k = 6 \/ k = 7
                \/ k = 8 \/ k = 9)%N) by lia.
  repeat (destruct Hk as [-> | Hk]; [vm_compute; reflexivity|]).
  subst k. vm_compute. reflexivity.
Qed.

(** How a size below [2^53], in megabytes, is written with [d] digits
    after the point, for [d] 0 or 1: the digits are those of the whole
    number nearest to [10^d * a / (1024 * 1024)]. *)
Lemma scaled_digits_mb (d : nat) (a : Z) (M : positive) (E : Z) :
  0 < a -> E < 0 -> Zpos M = a * 2 ^ (- E - 20) -> 20 <= - E ->
  0 <= Py.scaled_digits d M E
  /\ nearest (Py.scaled_digits d M E) (10 ^ Z.of_nat d * a) (1024 * 1024).
Proof.
  intros Ha HE HM H20. unfold Py.scaled_digits.
  destruct (Z.leb_spec 0 E) as [H|_]; [lia|].
  assert (Hk : 0 < 2 ^ (- E - 20)) by (apply Z.pow_pos_nonneg; lia).
  assert (Hden : 2 ^ (- E) = 2 ^ (- E - 20) * (1024 * 1024)).
  { replace (- E) with ((- E - 20) + 20) at 1 by lia.
    rewrite Z.pow_add_r by lia. reflexivity. }
  assert (Hten : 0 < 10 ^ Z.of_nat d) by (apply Z.pow_pos_nonneg; lia).
  split.
  - apply round_half_even_nonneg; [rewrite Hden; lia | lia].
  - apply (nearest_scale _ (2 ^ (- E - 20))); [exact Hk|].
    rewrite <- Hden.
    replace (2 ^ (- E - 20) * (10 ^ Z.of_nat d * a)) with (Zpos M * 10 ^ Z.of_nat d)
      by (rewrite HM; lia).
    apply round_half_even_nearest. rewrite Hden. lia.
Qed.

(** The size in megabytes as [send_video] writes it, with one digit
    after the point. *)
Lemma format_mb_tenths (a : Z) :
  0 < a < 2 ^ 53 ->
  exists (x : spec_float) (tenths : N),
    Py.int_truediv a (1024 * 1024) = inr x
    /\ nearest (Z.of_N tenths) (10 * a) (1024 * 1024)
    /\ Py.format_f 1 x
       = Py.str_of_N (tenths / 10) +:+ "." +:+ Py.str_of_N (tenths mod 10).
Proof.
  intros Ha. destruct (int_truediv_mb a Ha) as (M & E & Hdiv & HE & HM & H20).
  destruct (scaled_digits_mb 1 a M E ltac:(lia) HE HM H20) as [Hpos Hnear].
  exists (S754_finite false M E), (Z.to_N (Py.scaled_digits 1 M E)).
  split; [exact Hdiv | split].
  - rewrite Z2N.id by exact Hpos. exact Hnear.
  - unfold Py.format_f. change (10 ^ N.of_nat 1)%N with 10%N.
    rewrite pad_one_digit by (apply N.mod_lt; lia).
    now rewrite append_nil_l.
Qed.

(** The ceiling in megabytes as [send_video] writes it, without a point. *)
Lemma format_mb_whole (m : Z) :
  0 <= m < 2 ^ 53 ->
  exists (x : spec_float) (whole : N),
    Py.int_truediv m (1024 * 1024) = inr x
    /\ nearest (Z.of_N whole) m (1024 * 1024)
    /\ Py.format_f 0 x = Py.str_of_N whole.
Proof.
  intros Hm. destruct (Z.eq_dec m 0) as [->|Hne].
  - exists (S754_zero false), 0%N. split; [reflexivity | split; [|reflexivity]].
    split; simpl; lia.
  - destruct (int_truediv_mb m ltac:(lia)) as (M & E & Hdiv & HE & HM & H20).
    destruct (scaled_digits_mb 0 m M E ltac:(lia) HE HM H20) as [Hpos Hnear].
    exists (S754_finite false M E), (Z.to_N (Py.scaled_digits 0 M E)).
    split; [exact Hdiv | split].
    + rewrite Z2N.id by exact Hpos.
      change (10 ^ Z.of_nat 0) with 1 in Hnear. now rewrite Z.mul_1_l in Hnear.
    + unfold Py.format_f. change (10 ^ N.of_nat 0)%N with 1%N. rewrite N.div_1_r.
      now rewrite append_nil_l, append_empty_r.
Qed.

End FloatFacts.

Section SizeGate.
Import Sender SenderSpec.

(** C2.  For a file of size [f] whose size can be read: the size check
    answers valid exactly when [f <= m]; it is valid at [m = f], invalid
    when [f = m + 1], and stays valid when the ceiling grows.  When [f]
    exceeds the ceiling, [send_video] reports a failure and the transport
    is not called at all; the message is the one built from the two sizes
    in megabytes, the actual one with one digit after the point and the
    ceiling with none (the two divisions by 1024 * 1024 being those of
    ints into floats, which an int beyond the range of floats makes
    fail).  For sizes that floats hold exactly, those below [2^53], the
    text is spelled out: it reads "Video quá lớn (W.DMB > CMB). " and the
    advice, where W.D are the digits of the number of tenths nearest to
    [f / (1024 * 1024)] and C the whole number nearest to
    [m / (1024 * 1024)], ties going to the even one. *)
Theorem size_gate (bot : Bot) (chat_id : Z) (file_path : string) (w : world) (n : node) :
  w_fs w !! file_path = Some n ->
  getsize_fault (w_faults w) file_path = None ->
  let f := Z.of_N (node_size n) in
  (forall m, outcome (is_file_size_valid file_path m) w = inr true <-> f <= m)
  /\ outcome (is_file_size_valid file_path f) w = inr true
  /\ (forall m, f = m + 1 -> outcome (is_file_size_valid file_path m) w = inr false)
  /\ (forall m1 m2, m1 <= m2 ->
        outcome (is_file_size_valid file_path m1) w = inr true ->
        outcome (is_file_size_valid file_path m2) w = inr true)
  /\ (forall m, m < f ->
        (exists msg, outcome (send_video bot chat_id file_path m) w = inr (false, Some msg))
        /\ no_transport_call (send_video bot chat_id file_path m) w
        /\ (forall size_mb max_mb,
              Py.int_truediv f (1024 * 1024) = inr size_mb ->
              Py.int_truediv m (1024 * 1024) = inr max_mb ->
              outcome (send_video bot chat_id file_path m) w
              = inr (false, Some (too_large_msg size_mb max_mb))
              /\ one_decimal (Py.format_f 1 size_mb)
              /\ no_decimals (Py.format_f 0 max_mb))
        /\ (0 <= m -> f < 2 ^ 53 ->
            exists tenths whole : N,
              nearest (Z.of_N tenths) (10 * f) (1024 * 1024)
              /\ nearest (Z.of_N whole) m (1024 * 1024)
              /\ outcome (send_video bot chat_id file_path m) w
                 = inr (false,
                        Some ("Video quá lớn (" +:+ Py.str_of_N (tenths / 10) +:+ "."
                              +:+ Py.str_of_N (tenths mod 10) +:+ "MB > "
                              +:+ Py.str_of_N whole +:+ "MB). "
                              +:+ "Vui lòng thử giảm chất lượng hoặc cắt video ngắn hơn.")))).
Proof.
  intros Hn Hg f.
  assert (Hvalid : forall m, outcome (is_file_size_valid file_path m) w = inr (f <=? m)).
  { intros m. unfold outcome. now rewrite (is_file_size_valid_of_file _ _ _ m Hn Hg). }
  split; [|split; [|split; [|split]]].
  - intros m. rewrite Hvalid. split.
    + intros [= H]. now apply Z.leb_le.
    + intros H. f_equal. now apply Z.leb_le.
  - rewrite Hvalid. f_equal. apply Z.leb_refl.
  - intros m Hm. rewrite Hvalid. f_equal. apply Z.leb_gt. lia.
  - intros m1 m2 Hle. rewrite !Hvalid. intros [= H]. f_equal.
    apply Z.leb_le. apply Z.leb_le in H. lia.
  - intros m Hlt.
    destruct (attempt_too_large bot chat_id file_path m w n Hn Hg Hlt)
      as (Hcalls & Hfail & Hmsg).
    destruct (send_video_of_attempt bot chat_id file_path m w) as (Hout & Hcalls').
    cbv zeta in Hout, Hcalls'.
    split; [|split; [|split]].
    + rewrite Hout. exact Hfail.
    + unfold no_transport_call. now rewrite Hcalls'.
    + intros size_mb max_mb Hs Hm. split; [|split].
      * rewrite Hout. now apply Hmsg.
      * apply format_one_decimal. eapply int_truediv_number, Hs.
      * apply format_no_decimals. eapply int_truediv_number, Hm.
    + intros Hm0 Hf53.
      destruct (format_mb_tenths f ltac:(lia)) as (size_mb & tenths & Hs & Hnear1 & Hf1).
      destruct (format_mb_whole m ltac:(lia)) as (max_mb & whole & Hm & Hnear0 & Hf0).
      exists tenths, whole. split; [exact Hnear1 | split; [exact Hnear0|]].
      rewrite Hout, (Hmsg _ _ Hs Hm). unfold too_large_msg. rewrite Hf1, Hf0.
      now rewrite !append_assoc.
Qed.

End SizeGate.

(** A file of 60 MB against the ceiling of 50 MB. *)
Lemma size_gate_witness :
  outcome (Sender.send_video ProgressSpec.willing_bot 7 "/tmp/clip.mp4"
             Sender.DEFAULT_MAX_FILE_SIZE) SenderSpec.sixty_mb_world
  = inr (false,
         Some "Video quá lớn (60.0MB > 50MB). Vui lòng thử giảm chất lượng hoặc cắt video ngắn hơn.")
  /\ SenderSpec.no_transport_call
       (Sender.send_video ProgressSpec.willing_bot 7 "/tmp/clip.mp4"
          Sender.DEFAULT_MAX_FILE_SIZE) SenderSpec.sixty_mb_world
  /\ outcome (Sender.is_file_size_valid "/tmp/clip.mp4" (60 * 1024 * 1024))
       SenderSpec.sixty_mb_world = inr true.
Proof.
  destruct (size_gate ProgressSpec.willing_bot 7 "/tmp/clip.mp4" SenderSpec.sixty_mb_world
              (File (60 * 1024 * 1024)) eq_refl eq_refl) as (_ & Hat & _ & _ & Hover).
  destruct (Hover Sender.DEFAULT_MAX_FILE_SIZE eq_refl) as (_ & Hcalls & Hmsg & _).
  destruct (Hmsg (S754_finite false 8444249301319680 (-47))
                 (S754_finite false 7036874417766400 (-47)) eq_refl eq_refl)
    as (Hout & _ & _).
  split; [exact Hout | split; [exact Hcalls | exact Hat]].
Defined.

(** The five ways out of [send_video], each on a sample world; the file is
    gone after every one of them. *)
Example exit_file_missing :
  Sender.send_video ProgressSpec.willing_bot 7 "/tmp/none.mp4" Sender.DEFAULT_MAX_FILE_SIZE
    SenderSpec.ten_mb_world
  = (inr (false, Some "File video không tồn tại"),
     World (w_fs SenderSpec.ten_mb_world) no_faults
       [ (ERROR, "File không tồn tại: /tmp/none.mp4");
         (DEBUG, "File không tồn tại, bỏ qua: /tmp/none.mp4") ] []).
Proof. vm_compute. reflexivity. Qed.

Example exit_unreadable_size :
  outcome (Sender.send_video ProgressSpec.willing_bot 7 "/tmp/clip.mp4"
             Sender.DEFAULT_MAX_FILE_SIZE) SenderSpec.unreadable_world
  = inr (false, Some "Không thể đọc kích thước file")
  /\ w_fs (after (Sender.send_video ProgressSpec.willing_bot 7 "/tmp/clip.mp4"
                    Sender.DEFAULT_MAX_FILE_SIZE) SenderSpec.unreadable_world)
     !! "/tmp/clip.mp4" = None.
Proof. split; vm_compute; reflexivity. Qed.

Example exit_too_large :
  w_fs (after (Sender.send_video ProgressSpec.willing_bot 7 "/tmp/clip.mp4"
                 Sender.DEFAULT_MAX_FILE_SIZE) SenderSpec.sixty_mb_world)
  !! "/tmp/clip.mp4" = None.
Proof. vm_compute. reflexivity. Qed.

Example exit_transport_raises :
  outcome (Sender.send_video ProgressSpec.refusing_bot 7 "/tmp/clip.mp4"
             Sender.DEFAULT_MAX_FILE_SIZE) SenderSpec.ten_mb_world
  = inr (false, Some "Lỗi khi gửi video: Connection reset")
  /\ w_calls (after (Sender.send_video ProgressSpec.refusing_bot 7 "/tmp/clip.mp4"
                       Sender.DEFAULT_MAX_FILE_SIZE) SenderSpec.ten_mb_world)
     = [SendVideo 7 "/tmp/clip.mp4"]
  /\ w_fs (after (Sender.send_video ProgressSpec.refusing_bot 7 "/tmp/clip.mp4"
                    Sender.DEFAULT_MAX_FILE_SIZE) SenderSpec.ten_mb_world)
     !! "/tmp/clip.mp4" = None.
Proof. repeat split; vm_compute; reflexivity. Qed.

Example exit_sent :
  outcome (Sender.send_video ProgressSpec.willing_bot 7 "/tmp/clip.mp4"
             Sender.DEFAULT_MAX_FILE_SIZE) SenderSpec.ten_mb_world
  = inr (true, None)
  /\ w_calls (after (Sender.send_video ProgressSpec.willing_bot 7 "/tmp/clip.mp4"
                       Sender.DEFAULT_MAX_FILE_SIZE) SenderSpec.ten_mb_world)
     = [SendVideo 7 "/tmp/clip.mp4"]
  /\ w_fs (after (Sender.send_video ProgressSpec.willing_bot 7 "/tmp/clip.mp4"
                    Sender.DEFAULT_MAX_FILE_SIZE) SenderSpec.ten_mb_world)
     !! "/tmp/clip.mp4" = None.
Proof. repeat split; vm_compute; reflexivity. Qed.

(** A removal that fails: the result is that of the send, the failure is
    logged, the file stays. *)
Example removal_fails :
  outcome (Sender.send_video ProgressSpec.willing_bot 7 "/tmp/clip.mp4"
             Sender.DEFAULT_MAX_FILE_SIZE) SenderSpec.read_only_world
  = inr (true, None)
  /\ last (w_log (after (Sender.send_video ProgressSpec.willing_bot 7 "/tmp/clip.mp4"
                           Sender.DEFAULT_MAX_FILE_SIZE) SenderSpec.read_only_world))
     = Some (ERROR,
             "Lỗi khi xóa file /tmp/clip.mp4: [Errno 13] Permission denied: '/tmp/clip.mp4'")
  /\ w_fs (after (Sender.send_video ProgressSpec.willing_bot 7 "/tmp/clip.mp4"
                    Sender.DEFAULT_MAX_FILE_SIZE) SenderSpec.read_only_world)
     !! "/tmp/clip.mp4" = Some (File (10 * 1024 * 1024)).
Proof. repeat split; vm_compute; reflexivity. Qed.

(** ** downloader.py *)

Section ProgressEvents.
Import Downloader DownloaderSpec.
Implicit Types (d : gmap string Py.val) (cb : callback) (w : world).

Lemma capped_at_most_99 (ratio : spec_float) :
  SFltb (Py.float_of_Z 99) (capped ratio) = false.
Proof.
  unfold capped, Py.float_min.
  destruct (SFltb (Py.float_of_Z 99) (Py.float_mul ratio (Py.float_of_Z 100))) eqn:E.
  - vm_compute. reflexivity.
  - exact E.
Qed.

Lemma handle_progress_unfold d cb w :
  _handle_progress d (Some cb) w
  = (if Py.eq_str (status d) "downloading" then
       total_known <- lift (Py.gt_zero (total d)) ;;
       if total_known then
         ratio <- lift (Py.truediv (downloaded d) (total d)) ;;
         cb (capped ratio)
       else
         count_known <- lift (Py.gt_zero (fragment_count d)) ;;
         if count_known then
           ratio <- lift (Py.truediv (fragment_index d) (fragment_count d)) ;;
           cb (capped ratio)
         else ret tt
     else if Py.eq_str (status d) "finished" then cb (Py.float_of_Z 100)
     else ret tt) w.
Proof. reflexivity. Qed.

(** C6.  On an event whose status is "downloading": when the total (the
    byte count, else the estimate) is a positive number, the callback is
    called once with [min(downloaded / total * 100.0, 99.0)], a value that
    never exceeds 99; when it is not, and the fragment count is a positive
    number, with [min(fragment_index / fragment_count * 100.0, 99.0)]; when
    neither is, the callback is not called.  On a "finished" event the
    callback is called with 100.0, whatever the counters; on any other
    status it is not called. *)
Theorem progress_percentage d cb w :
  (Py.eq_str (status d) "downloading" = true ->
   Py.gt_zero (total d) = inr true ->
   forall ratio, Py.truediv (downloaded d) (total d) = inr ratio ->
     _handle_progress d (Some cb) w = cb (capped ratio) w
     /\ SFltb (Py.float_of_Z 99) (capped ratio) = false)
  /\ (Py.eq_str (status d) "downloading" = true ->
      Py.gt_zero (total d) = inr false ->
      Py.gt_zero (fragment_count d) = inr true ->
      forall ratio, Py.truediv (fragment_index d) (fragment_count d) = inr ratio ->
        _handle_progress d (Some cb) w = cb (capped ratio) w
        /\ SFltb (Py.float_of_Z 99) (capped ratio) = false)
  /\ (Py.eq_str (status d) "finished" = true ->
      _handle_progress d (Some cb) w = cb (Py.float_of_Z 100) w)
  /\ (Py.eq_str (status d) "downloading" = false ->
      Py.eq_str (status d) "finished" = false ->
      _handle_progress d (Some cb) w = (inr tt, w))
  /\ (Py.eq_str (status d) "downloading" = true ->
      Py.gt_zero (total d) = inr false ->
      Py.gt_zero (fragment_count d) = inr false ->
      _handle_progress d (Some cb) w = (inr tt, w))
  /\ (Py.eq_str (status d) "downloading" = true ->
      d !! "total_bytes" = None -> d !! "total_bytes_estimate" = None ->
      d !! "fragment_count" = None ->
      _handle_progress d (Some cb) w = (inr tt, w)).
Proof.
  rewrite handle_progress_unfold.
  assert (Hlast : Py.eq_str (status d) "downloading" = true ->
      Py.gt_zero (total d) = inr false ->
      Py.gt_zero (fragment_count d) = inr false ->
      (if Py.eq_str (status d) "downloading" then
       total_known <- lift (Py.gt_zero (total d)) ;;
       if total_known then
         ratio <- lift (Py.truediv (downloaded d) (total d)) ;;
         cb (capped ratio)
       else
         count_known <- lift (Py.gt_zero (fragment_count d)) ;;
         if count_known then
           ratio <- lift (Py.truediv (fragment_index d) (fragment_count d)) ;;
           cb (capped ratio)
         else ret tt
     else if Py.eq_str (status d) "finished" then cb (Py.float_of_Z 100)
     else ret tt) w = (inr tt, w)).
  { intros Hs Ht Hf. rewrite Hs. unfold bind, lift. now rewrite Ht, Hf. }
  split; [|split; [|split; [|split; [|split]]]].
  - intros Hs Ht ratio Hr. rewrite Hs. unfold bind, lift. rewrite Ht, Hr.
    split; [reflexivity | apply capped_at_most_99].
  - intros Hs Ht Hf ratio Hr. rewrite Hs. unfold bind, lift. rewrite Ht, Hf, Hr.
    split; [reflexivity | apply capped_at_most_99].
  - intros Hs. destruct (Py.eq_str (status d) "downloading") eqn:Hd.
    + unfold status in *. destruct (Py.get_or d "status" _) as [| | |t]; try discriminate.
      simpl in Hd, Hs. apply String.eqb_eq in Hd, Hs. congruence.
    + now rewrite Hs.
  - intros Hd Hf. now rewrite Hd, Hf.
  - exact Hlast.
  - intros Hs H1 H2 H3. apply Hlast; [exact Hs| |].
    + unfold total, Py.get. now rewrite H1, H2.
    + unfold fragment_count, Py.get_or. now rewrite H3.
Qed.

End ProgressEvents.

(** The events of the specification: 50 of 100 bytes, 100 of 100 bytes,
    5 of 10 fragments, a finished download, another status, no totals. *)
Lemma progress_percentage_witness :
  Downloader._handle_progress DownloaderSpec.half_way (Some DownloaderSpec.report) empty_world
  = DownloaderSpec.report (Py.float_of_Z 50) empty_world
  /\ Downloader._handle_progress DownloaderSpec.all_bytes (Some DownloaderSpec.report)
       empty_world
     = DownloaderSpec.report (Py.float_of_Z 99) empty_world
  /\ Downloader._handle_progress DownloaderSpec.five_of_ten_fragments
       (Some DownloaderSpec.report) empty_world
     = DownloaderSpec.report (Py.float_of_Z 50) empty_world
  /\ Downloader._handle_progress DownloaderSpec.finished_event (Some DownloaderSpec.report)
       empty_world
     = DownloaderSpec.report (Py.float_of_Z 100) empty_world
  /\ Downloader._handle_progress DownloaderSpec.unknown_status (Some DownloaderSpec.report)
       empty_world
     = (inr tt, empty_world)
  /\ Downloader._handle_progress DownloaderSpec.no_totals (Some DownloaderSpec.report)
       empty_world
     = (inr tt, empty_world).
Proof.
  split; [|split; [|split; [|split; [|split]]]].
  - exact (proj1 (proj1 (progress_percentage DownloaderSpec.half_way DownloaderSpec.report
                           empty_world)
                    eq_refl eq_refl (S754_finite false 4503599627370496 (-53)) eq_refl)).
  - exact (proj1 (proj1 (progress_percentage DownloaderSpec.all_bytes DownloaderSpec.report
                           empty_world)
                    eq_refl eq_refl (S754_finite false 4503599627370496 (-52)) eq_refl)).
  - exact (proj1 (proj1 (proj2 (progress_percentage DownloaderSpec.five_of_ten_fragments
                                  DownloaderSpec.report empty_world))
                    eq_refl eq_refl eq_refl (S754_finite false 4503599627370496 (-53))
                    eq_refl)).
  - exact (proj1 (proj2 (proj2 (progress_percentage DownloaderSpec.finished_event
                                  DownloaderSpec.report empty_world))) eq_refl).
  - exact (proj1 (proj2 (proj2 (proj2 (progress_percentage DownloaderSpec.unknown_status
                                         DownloaderSpec.report empty_world))))
             eq_refl eq_refl).
  - exact (proj2 (proj2 (proj2 (proj2 (proj2 (progress_percentage DownloaderSpec.no_totals
                                                DownloaderSpec.report empty_world)))))
             eq_refl eq_refl eq_refl eq_refl).
Defined.

Section DownloadFacts.
Import Models Downloader DownloaderSpec.
Variable ydl_download : ydl_opts -> list string -> M unit.
Variable uuid4 : string.
Implicit Types (w : world) (r : DownloadResult).

Lemma failed_invariant w (msg : string) : invariant w (failed msg).
Proof. split; [discriminate | intros _; simpl; eauto]. Qed.

Lemma succeeded_invariant w (path : string) (n : node) :
  w_fs w !! path = Some n -> invariant w (succeeded path (Z.of_N (node_size n))).
Proof.
  intros Hn. split; [intros _ | discriminate].
  exists path, n. simpl. repeat split; auto. lia.
Qed.

(** Looking at a path and, when it is there, reading its size: the world
    stays as it is; the result, when there is one, has the invariant. *)
Lemma getsize_result (path : string) w :
  w_fs w !! path <> None ->
  match (file_size <- Os.getsize path ;; ret (succeeded path file_size)) w with
  | (inr r, w') => w' = w /\ invariant w r
  | (inl _, w') => w' = w
  end.
Proof.
  intros Hn. unfold bind, Os.getsize, ret.
  destruct (getsize_fault (w_faults w) path); [reflexivity|].
  destruct (w_fs w !! path) as [n|] eqn:E; [|congruence].
  split; [reflexivity | now apply succeeded_invariant].
Qed.

Lemma probe_extensions_result (base_path : string) (exts : list string) w :
  match probe_extensions base_path exts w with
  | (inr r, w') => w' = w /\ invariant w r
  | (inl _, w') => w' = w
  end.
Proof.
  induction exts as [|ext rest IH]; simpl.
  - split; [reflexivity | apply failed_invariant].
  - unfold bind at 1. unfold Os.path_exists. case_bool_decide as Hex.
    + apply getsize_result. intros Hnone. destruct Hex as [n Hn]. congruence.
    + exact IH.
Qed.

(** The [try] block of [download_video], once the engine has returned. *)
Lemma after_engine_result (output_path : string) w :
  match (present <- Os.path_exists output_path ;;
         if present then
           file_size <- Os.getsize output_path ;;
           ret (succeeded output_path file_size)
         else
           probe_extensions (rsplit_dot_head output_path)
             [".mp4"; ".mkv"; ".webm"; ".m4a"]) w with
  | (inr r, w') => w' = w /\ invariant w r
  | (inl _, w') => w' = w
  end.
Proof.
  unfold bind at 1. unfold Os.path_exists. case_bool_decide as Hex.
  - apply getsize_result. intros Hnone. destruct Hex as [n Hn]. congruence.
  - apply probe_extensions_result.
Qed.

Lemma handler_fails (e : Py.exn) w :
  (if String.eqb (Py.exn_type e) "DownloadError"
   then ret (failed (Py.exn_msg e))
   else ret (failed (Py.exn_msg e))) w
  = (inr (failed (Py.exn_msg e)), w).
Proof. destruct (String.eqb (Py.exn_type e) "DownloadError"); reflexivity. Qed.

Lemma download_video_run (url output_dir : string) (max_size : Z)
    (cb : option callback) w :
  exists r w',
    download_video ydl_download uuid4 url output_dir max_size cb w = (inr r, w')
    /\ invariant w' r.
Proof.
  unfold download_video.
  match goal with |- context [try_except (bind ?m ?k) ?h] =>
    set (engine := m); set (rest := k); set (handler := h)
  end.
  destruct (engine w) as [[e|[]] w1] eqn:He.
  - rewrite (try_except_raises _ _ _ _ _ (bind_raises _ _ _ _ _ He)).
    subst handler. cbv beta. rewrite handler_fails.
    eexists _, _. split; [reflexivity | apply failed_invariant].
  - pose proof (after_engine_result (Os.path_join output_dir (uuid4 +:+ ".mp4")) w1) as H.
    assert (Hrun : bind engine rest w = rest tt w1) by (apply bind_value, He).
    subst rest. cbv beta in Hrun.
    match type of Hrun with _ = ?t => destruct t as [[e|r] w2] eqn:Hrest end.
    + subst w2. rewrite (try_except_raises _ _ _ _ _ Hrun).
      subst handler. cbv beta. rewrite handler_fails.
      eexists _, _. split; [reflexivity | apply failed_invariant].
    + destruct H as [-> Hinv]. rewrite (try_except_value _ _ _ _ _ Hrun).
      eexists _, _. split; [reflexivity | exact Hinv].
Qed.

Lemma download_video_result (url output_dir : string) (max_size : Z)
    (cb : option callback) w :
  exists r,
    outcome (download_video ydl_download uuid4 url output_dir max_size cb) w = inr r
    /\ invariant (after (download_video ydl_download uuid4 url output_dir max_size cb) w) r.
Proof.
  destruct (download_video_run url output_dir max_size cb w) as (r & w' & Hrun & Hinv).
  exists r. unfold outcome, after. rewrite Hrun. auto.
Qed.

(** C3, as the code has it.  [download_video] returns a result, and in
    the world it leaves: a success has a file path that names a file, the
    size on disk of that file (zero or more) as file size, and no error
    description; a failure has no file path, file size 0 and an error
    description. *)
Theorem download_result_invariant (url output_dir : string) (max_size : Z)
    (cb : option callback) w :
  exists r,
    outcome (download_video ydl_download uuid4 url output_dir max_size cb) w = inr r
    /\ (success r = true ->
          exists path n,
            file_path r = Some path
            /\ w_fs (after (download_video ydl_download uuid4 url output_dir max_size cb) w)
               !! path = Some n
            /\ file_size r = Z.of_N (node_size n) /\ 0 <= file_size r
            /\ error_message r = None)
    /\ (success r = false ->
          file_path r = None /\ file_size r = 0 /\ is_Some (error_message r)).
Proof.
  destruct (download_video_result url output_dir max_size cb w) as (r & Hout & Hs & Hf).
  exists r. auto.
Qed.

(** C4.  [download_video] does not raise: it returns a result whatever the
    engine does; and when the engine raises, its distinguished download
    error or any other exception, the result is the failure that carries
    the text of the exception, in the world the engine left. *)
Theorem download_video_never_raises (url output_dir : string) (max_size : Z)
    (cb : option callback) w :
  (exists r, outcome (download_video ydl_download uuid4 url output_dir max_size cb) w = inr r)
  /\ (forall e w1,
        ydl_download
          (get_yt_dlp_options (Os.path_join output_dir (uuid4 +:+ ".mp4")) max_size cb)
          [url] w = (inl e, w1) ->
        download_video ydl_download uuid4 url output_dir max_size cb w
        = (inr {| success := false; file_path := None;
                  error_message := Some (Py.exn_msg e); file_size := 0 |}, w1)).
Proof.
  split.
  - destruct (download_video_result url output_dir max_size cb w) as (r & Hout & _).
    exists r. exact Hout.
  - intros e w1 He. unfold download_video.
    erewrite try_except_raises by (apply bind_raises; exact He).
    destruct (String.eqb (Py.exn_type e) "DownloadError"); reflexivity.
Qed.

End DownloadFacts.

(** An engine that raises, of either kind. *)
Lemma download_video_never_raises_witness :
  Downloader.download_video DownloaderSpec.failing_engine DownloaderSpec.sample_uuid
    "https://youtu.be/abc" "/tmp" (50 * 1024 * 1024) None empty_world
  = (inr (Downloader.failed "ERROR: Video unavailable"), empty_world)
  /\ Downloader.download_video DownloaderSpec.crashing_engine DownloaderSpec.sample_uuid
       "https://youtu.be/abc" "/tmp" (50 * 1024 * 1024) None empty_world
     = (inr (Downloader.failed "'formats'"), empty_world).
Proof.
  split.
  - exact (proj2 (download_video_never_raises DownloaderSpec.failing_engine
                    DownloaderSpec.sample_uuid "https://youtu.be/abc" "/tmp"
                    (50 * 1024 * 1024) None empty_world) _ _ eq_refl).
  - exact (proj2 (download_video_never_raises DownloaderSpec.crashing_engine
                    DownloaderSpec.sample_uuid "https://youtu.be/abc" "/tmp"
                    (50 * 1024 * 1024) None empty_world) _ _ eq_refl).
Defined.

(** A download that works: the result and the file. *)
Example download_of_ten_mb :
  outcome (Downloader.download_video DownloaderSpec.working_engine DownloaderSpec.sample_uuid
             "https://youtu.be/abc" "/tmp" (50 * 1024 * 1024) None) empty_world
  = inr (Downloader.succeeded "/tmp/12345678-1234-5678-1234-567812345678.mp4"
           (10 * 1024 * 1024)).
Proof. vm_compute. reflexivity. Qed.

(** C3, as stated, fails: when the engine leaves an empty file the result
    is a success whose file size is 0, not a size above 0. *)
Lemma empty_download_succeeds :
  outcome (Downloader.download_video DownloaderSpec.empty_file_engine
             DownloaderSpec.sample_uuid "https://youtu.be/abc" "/tmp" (50 * 1024 * 1024) None)
    empty_world
  = inr {| Models.success := true;
           Models.file_path := Some "/tmp/12345678-1234-5678-1234-567812345678.mp4";
           Models.error_message := None;
           Models.file_size := 0 |}
  /\ ~ DownloaderSpec.stated_invariant
         {| Models.success := true;
            Models.file_path := Some "/tmp/12345678-1234-5678-1234-567812345678.mp4";
            Models.error_message := None;
            Models.file_size := 0 |}.
Proof.
  split.
  - vm_compute. reflexivity.
  - intros [Hs _]. destruct (Hs eq_refl) as (_ & Hpos & _). simpl in Hpos. lia.
Qed.

(** ** Regular expressions *)

Section RegexFacts.
Import Re UrlSpec.
Implicit Types (r : regex) (s u rest : list N) (p : N -> bool).

Lemma star_rems_iff p s rest :
  In rest (star_rems p s) <-> exists u, forallb p u = true /\ s = u ++ rest.
Proof.
  induction s as [|c s' IH]; simpl.
  - split.
    + intros [<-|[]]. exists []. auto.
    + intros (u & _ & H). symmetry in H. apply app_eq_nil in H. left. symmetry. tauto.
  - destruct (p c) eqn:Hc.
    + rewrite in_app_iff, IH. simpl. split.
      * intros [(u & Hu & ->) | [<-|[]]].
        -- exists (c :: u). simpl. rewrite Hc. auto.
        -- exists []. auto.
      * intros (u & Hu & H). destruct u as [|c' u].
        -- right. left. exact H.
        -- simpl in H, Hu. injection H as <- ->.
           apply andb_true_iff in Hu. left. exists u. tauto.
    + simpl. split.
      * intros [<-|[]]. exists []. auto.
      * intros (u & Hu & H). destruct u as [|c' u]; [left; exact H|].
        simpl in H, Hu. injection H as <- ->. rewrite Hc in Hu. discriminate.
Qed.

Lemma plus_rems_iff p s rest :
  In rest (plus_rems p s) <-> exists u, u <> [] /\ forallb p u = true /\ s = u ++ rest.
Proof.
  destruct s as [|c s']; simpl.
  - split; [tauto|]. intros (u & Hne & _ & H).
    symmetry in H. apply app_eq_nil in H. tauto.
  - destruct (p c) eqn:Hc.
    + rewrite star_rems_iff. split.
      * intros (u & Hu & ->). exists (c :: u).
        split; [discriminate|]. simpl. rewrite Hc. auto.
      * intros (u & Hne & Hu & H). destruct u as [|c' u]; [congruence|].
        simpl in H, Hu. injection H as <- ->. apply andb_true_iff in Hu.
        exists u. tauto.
    + split; [intros []|]. intros (u & Hne & Hu & H).
      destruct u as [|c' u]; [congruence|].
      simpl in H, Hu. injection H as <- ->. rewrite Hc in Hu. discriminate.
Qed.

(** Every remainder the matcher finds is what a described text leaves. *)
Lemma match_here_sound r s rest :
  In rest (match_here r s) -> exists u, s = u ++ rest /\ matches r u.
Proof.
  revert s rest. induction r as [|c|p|r1 IH1 r2 IH2|r1 IH1 r2 IH2|r1 IH1|p];
    intros s rest H; simpl in H.
  - destruct H as [<-|[]]. exists []. split; [reflexivity | constructor].
  - destruct s as [|c' s']; [destruct H|].
    destruct (N.eqb_spec c c') as [<-|]; [|destruct H].
    destruct H as [<-|[]]. exists [c]. split; [reflexivity | constructor].
  - destruct s as [|c' s']; [destruct H|].
    destruct (p c') eqn:Hc; [|destruct H].
    destruct H as [<-|[]]. exists [c']. split; [reflexivity | now constructor].
  - apply in_flat_map in H. destruct H as (mid & H1 & H2).
    destruct (IH1 _ _ H1) as (u1 & -> & Hu1).
    destruct (IH2 _ _ H2) as (u2 & -> & Hu2).
    exists (u1 ++ u2). split; [now rewrite <- app_assoc | now constructor].
  - apply in_app_iff in H. destruct H as [H|H].
    + destruct (IH1 _ _ H) as (u & -> & Hu). exists u. split; [reflexivity|].
      now apply matches_alt_l.
    + destruct (IH2 _ _ H) as (u & -> & Hu). exists u. split; [reflexivity|].
      now apply matches_alt_r.
  - apply in_app_iff in H. destruct H as [H|[<-|[]]].
    + destruct (IH1 _ _ H) as (u & -> & Hu). exists u. split; [reflexivity|].
      now apply matches_opt_some.
    + exists []. split; [reflexivity | apply matches_opt_none].
  - apply plus_rems_iff in H. destruct H as (u & Hne & Hu & ->).
    exists u. split; [reflexivity | now constructor].
Qed.

(** Whatever a described text leaves, the matcher finds. *)
Lemma match_here_complete r u :
  matches r u -> forall rest, In rest (match_here r (u ++ rest)).
Proof.
  induction 1 as [|c|p c Hc|r1 r2 u v _ IH1 _ IH2|r1 r2 u _ IH|r1 r2 u _ IH|r u _ IH|r
                  |p u Hne Hu]; intros rest; simpl.
  - auto.
  - rewrite N.eqb_refl. simpl. auto.
  - rewrite Hc. simpl. auto.
  - apply in_flat_map. exists (v ++ rest). split.
    + rewrite <- app_assoc. apply IH1.
    + apply IH2.
  - apply in_app_iff. left. apply IH.
  - apply in_app_iff. right. apply IH.
  - apply in_app_iff. left. apply IH.
  - apply in_app_iff. right. simpl. auto.
  - apply plus_rems_iff. exists u. auto.
Qed.

Lemma matches_min_len r u : matches r u -> (min_len r <= length u)%nat.
Proof.
  induction 1 as [|c|p c Hc|r1 r2 u v _ IH1 _ IH2|r1 r2 u _ IH|r1 r2 u _ IH|r u _ IH|r
                  |p u Hne Hu]; simpl; try lia.
  - rewrite length_app. lia.
  - destruct u; [congruence | simpl; lia].
Qed.

Lemma search_unfold r s :
  search r s
  = match match_here r s with
    | rest :: _ => Some (take (length s - length rest)%nat s)
    | [] => match s with
            | [] => None
            | _ :: s' => search r s'
            end
    end.
Proof. destruct s; reflexivity. Qed.

Lemma search_here r s rest l :
  match_here r s = rest :: l ->
  exists u, s = u ++ rest /\ matches r u /\ search r s = Some u.
Proof.
  intros E.
  destruct (match_here_sound r s rest) as (u & Hs & Hu); [rewrite E; left; reflexivity|].
  exists u. repeat split; auto.
  rewrite search_unfold, E. f_equal. rewrite Hs. rewrite length_app.
  replace (length u + length rest - length rest)%nat with (length u) by lia.
  apply take_app_length.
Qed.

(** A successful search returns a stretch of the text that the pattern
    describes, and nothing of that shape starts earlier in the text. *)
Lemma search_some r s m :
  search r s = Some m ->
  exists a b, s = a ++ m ++ b /\ matches r m /\ none_before r s (length a).
Proof.
  revert m. induction s as [|c s' IH]; intros m H.
  - destruct (match_here r []) as [|rest l] eqn:E.
    + rewrite search_unfold, E in H. discriminate.
    + destruct (search_here _ _ _ _ E) as (u & Hs & Hu & Hsearch).
      rewrite Hsearch in H. injection H as <-.
      exists [], rest. repeat split; auto. intros a' u' b' _ _. simpl. lia.
  - destruct (match_here r (c :: s')) as [|rest l] eqn:E.
    + rewrite search_unfold, E in H.
      destruct (IH _ H) as (a & b & -> & Hm & Hleft).
      exists (c :: a), b. repeat split; auto.
      intros a' u' b' Hs Hu'. destruct a' as [|c' a'].
      * simpl in Hs. pose proof (match_here_complete _ _ Hu' b') as Hin.
        rewrite <- Hs, E in Hin. destruct Hin.
      * simpl in Hs. injection Hs as <- Hs. simpl.
        apply le_n_S. exact (Hleft _ _ _ Hs Hu').
    + destruct (search_here _ _ _ _ E) as (u & Hs & Hu & Hsearch).
      rewrite Hsearch in H. injection H as <-.
      exists [], rest. repeat split; auto. intros a' u' b' _ _. simpl. lia.
Qed.

Lemma search_none r s : search r s = None <-> ~ occurs r s.
Proof.
  split.
  - induction s as [|c s' IH]; intros H (a & u & b & Hs & Hu);
      rewrite search_unfold in H.
    + destruct (match_here r []) eqn:E; [|discriminate].
      symmetry in Hs. apply app_eq_nil in Hs. destruct Hs as [-> Hs].
      pose proof (match_here_complete _ _ Hu b) as Hin. simpl in Hs.
      rewrite Hs, E in Hin. destruct Hin.
    + destruct (match_here r (c :: s')) eqn:E; [|discriminate].
      destruct a as [|c' a].
      * pose proof (match_here_complete _ _ Hu b) as Hin. simpl in Hs.
        rewrite <- Hs, E in Hin. destruct Hin.
      * simpl in Hs. injection Hs as <- Hs. apply (IH H). exists a, u, b. auto.
  - intros Hno. destruct (search r s) as [m|] eqn:E; [|reflexivity].
    exfalso. apply Hno. destruct (search_some _ _ _ E) as (a & b & Hs & Hm & _).
    exists a, m, b. auto.
Qed.

End RegexFacts.

(** ** url_parser.py *)

Section UrlParserFacts.
Import Models Re UrlParser UrlSpec.
Variable db : Py.unicode.
Implicit Types (text : list N) (l : list (Platform * regex)).

Lemma string_of_list_ascii_app (x y : list ascii) :
  string_of_list_ascii (x ++ y) = string_of_list_ascii x +:+ string_of_list_ascii y.
Proof.
  induction x as [|c x IH]; [reflexivity|].
  simpl. now rewrite append_cons, IH.
Qed.

Lemma list_ascii_of_string_app (x y : string) :
  list_ascii_of_string (x +:+ y) = list_ascii_of_string x ++ list_ascii_of_string y.
Proof.
  induction x as [|c x IH]; [reflexivity|].
  rewrite append_cons. simpl. now rewrite IH.
Qed.

Lemma string_length_of_list (x : list ascii) :
  String.length (string_of_list_ascii x) = length x.
Proof. induction x as [|c x IH]; simpl; [reflexivity | now rewrite IH]. Qed.

(** The inner loop, seen on the flat list. *)
Lemma first_flat_platform (platform : Platform) (patterns : list regex) l text :
  first_flat (List.map (pair platform) patterns ++ l) text
  = match first_match patterns text with
    | Some m => (Some m, platform)
    | None => first_flat l text
    end.
Proof.
  induction patterns as [|r rest IH]; simpl; [reflexivity|].
  destruct (search r text); [reflexivity | exact IH].
Qed.

(** The nested loops are one loop over the flat list. *)
Lemma scan_flat (table : list (Platform * list regex)) text :
  scan table text
  = first_flat (List.flat_map (fun entry => List.map (pair (fst entry)) (snd entry)) table)
      text.
Proof.
  induction table as [|[platform patterns] rest IH]; simpl; [reflexivity|].
  rewrite first_flat_platform. destruct (first_match patterns text); [reflexivity | exact IH].
Qed.

(** One loop over a list: nothing matches, or the first entry that
    matches decides. *)
Lemma first_flat_cases l text :
  (first_flat l text = (None, UNKNOWN)
   /\ forall platform r, In (platform, r) l -> search r text = None)
  \/ (exists (i : nat) platform r m,
        l !! i = Some (platform, r)
        /\ search r text = Some m
        /\ first_flat l text = (Some m, platform)
        /\ forall (j : nat) q r', (j < i)%nat -> l !! j = Some (q, r') ->
             search r' text = None).
Proof.
  induction l as [|[platform r] rest IH]; simpl.
  - left. split; [reflexivity | intros ? ? []].
  - destruct (search r text) as [m|] eqn:E.
    + right. exists 0%nat, platform, r, m. repeat split; auto. intros j q r' Hj. lia.
    + destruct IH as [[Hnone Hall] | (i & p & r0 & m & Hi & Hm & Hres & Hbefore)].
      * left. split; [exact Hnone|]. intros p r0 [[= <- <-] | Hin]; eauto.
      * right. exists (S i), p, r0, m. repeat split; auto.
        intros j q r' Hj Hl. destruct j as [|j].
        -- simpl in Hl. injection Hl as <- <-. exact E.
        -- simpl in Hl. apply (Hbefore j q r'); [lia | exact Hl].
Qed.

Lemma flat_patterns_platform (i : nat) platform r :
  flat_patterns db !! i = Some (platform, r) -> platform = platform_at i /\ (i < 9)%nat.
Proof.
  intros H.
  do 9 (destruct i as [|i]; [injection H as <- _; split; [reflexivity | lia]|]).
  discriminate H.
Qed.

(** No pattern of the table describes the empty text. *)
Lemma flat_patterns_min_len platform r :
  In (platform, r) (flat_patterns db) -> (1 <= min_len r)%nat.
Proof.
  intros H.
  assert (Hall : forallb (fun entry => (1 <=? min_len (snd entry))%nat) (flat_patterns db)
                 = true) by (vm_compute; reflexivity).
  rewrite forallb_forall in Hall. specialize (Hall _ H). simpl in Hall.
  now apply Nat.leb_le.
Qed.

Lemma In_lookup {A} (x : A) (l : list A) : In x l <-> exists i : nat, l !! i = Some x.
Proof. rewrite <- list_elem_of_In. apply list_elem_of_lookup. Qed.

Lemma parse_url_flat text : parse_url db text = first_flat (flat_patterns db) text.
Proof. unfold parse_url, flat_patterns. apply scan_flat. Qed.

Lemma platform_at_supported (i : nat) : is_supported_platform (platform_at i) = true.
Proof.
  unfold platform_at. destruct (i <? 3)%nat; [reflexivity|].
  destruct (i <? 7)%nat; reflexivity.
Qed.

(** What [parse_url] returns: nothing when no pattern has an occurrence in
    the text; otherwise the match of the first pattern, in the order of the
    table, that has one. *)
Lemma parse_url_cases text :
  (parse_url db text = (None, UNKNOWN) /\ forall platform, ~ has_shape db platform text)
  \/ (exists (i : nat) platform r url a b,
        flat_patterns db !! i = Some (platform, r)
        /\ parse_url db text = (Some url, platform)
        /\ is_supported_platform platform = true
        /\ url <> []
        /\ text = a ++ url ++ b
        /\ matches r url
        /\ search r text = Some url
        /\ none_before r text (length a)
        /\ forall (j : nat) q r', (j < i)%nat -> flat_patterns db !! j = Some (q, r') ->
             ~ occurs r' text).
Proof.
  rewrite parse_url_flat.
  destruct (first_flat_cases (flat_patterns db) text)
    as [[Hnone Hall] | (i & platform & r & m & Hi & Hm & Hres & Hbefore)].
  - left. split; [exact Hnone|].
    intros platform (r & Hin & Hocc). apply (proj1 (search_none _ _) (Hall _ _ Hin)), Hocc.
  - right. destruct (search_some _ _ _ Hm) as (a & b & Hs & Hmatch & Hleft).
    exists i, platform, r, m, a, b.
    repeat split; auto.
    + destruct (flat_patterns_platform _ _ _ Hi) as [-> _]. apply platform_at_supported.
    + intros Hempty.
      assert (Hin : In (platform, r) (flat_patterns db)) by (apply In_lookup; eauto).
      pose proof (flat_patterns_min_len _ _ Hin) as H1.
      pose proof (matches_min_len _ _ Hmatch) as H2.
      subst m. simpl in H2. lia.
    + intros j q r' Hj Hl. apply search_none. eauto.
Qed.

End UrlParserFacts.

Section UrlPriority.
Import Models Re UrlParser UrlSpec.
Variable db : Py.unicode.

Lemma platform_at_youtube (i : nat) : platform_at i = YOUTUBE <-> (i < 3)%nat.
Proof.
  unfold platform_at. destruct (Nat.ltb_spec i 3); [tauto|].
  destruct (Nat.ltb_spec i 7); split; (discriminate || lia).
Qed.

Lemma platform_at_facebook (i : nat) : platform_at i = FACEBOOK <-> (3 <= i < 7)%nat.
Proof.
  unfold platform_at. destruct (Nat.ltb_spec i 3); [split; (discriminate || lia)|].
  destruct (Nat.ltb_spec i 7); split; (discriminate || lia || tauto).
Qed.

(** An entry of the table that has an occurrence in the text gives the
    text the shape of its platform. *)
Lemma entry_shape (text : list N) (i : nat) platform r :
  flat_patterns db !! i = Some (platform, r) ->
  occurs r text -> has_shape db platform text.
Proof. intros Hi Hocc. exists r. split; [apply In_lookup; eauto | exact Hocc]. Qed.

(** The index of a pattern of the platform that has an occurrence. *)
Lemma shape_entry (text : list N) platform :
  has_shape db platform text ->
  exists (j : nat) r, flat_patterns db !! j = Some (platform, r)
                      /\ occurs r text /\ platform_at j = platform.
Proof.
  intros (r & Hin & Hocc). apply In_lookup in Hin. destruct Hin as [j Hj].
  exists j, r. repeat split; auto.
  destruct (flat_patterns_platform _ _ _ _ Hj) as [-> _]. reflexivity.
Qed.

(** C5.  [parse_url] tries the patterns in the order of the table,
    YouTube's three, then Facebook's four, then Instagram's two, and
    returns the match of the first pattern that has an occurrence in the
    text, wherever in the text the occurrences of later patterns are and
    however long they are: the URL returned is not empty, it is the
    stretch of the text [re.search] finds for that pattern (nothing of the
    pattern's shape starts earlier), and no pattern before it in the table
    occurs in the text.  So a text with a YouTube shape gives YOUTUBE, one
    with a Facebook shape and no YouTube shape gives FACEBOOK, one with an
    Instagram shape and neither of the others gives INSTAGRAM, and a text
    in which no pattern occurs gives no URL and UNKNOWN.  The text is any
    list of code points, and the classes [\w] and [\d] of the patterns
    reach beyond ASCII as the Unicode database [db] says, whatever it
    says. *)
Theorem parse_url_first_match (text : list N) :
  ((parse_url db text = (None, UNKNOWN) /\ forall platform, ~ has_shape db platform text)
   \/ (exists (i : nat) platform r url a b,
         flat_patterns db !! i = Some (platform, r)
         /\ parse_url db text = (Some url, platform)
         /\ is_supported_platform platform = true
         /\ url <> []
         /\ text = a ++ url ++ b
         /\ matches r url
         /\ search r text = Some url
         /\ none_before r text (length a)
         /\ forall (j : nat) q r', (j < i)%nat -> flat_patterns db !! j = Some (q, r') ->
              ~ occurs r' text))
  /\ (forall (i : nat) platform r,
        flat_patterns db !! i = Some (platform, r) ->
        occurs r text ->
        (forall (j : nat) q r', (j < i)%nat -> flat_patterns db !! j = Some (q, r') ->
           ~ occurs r' text) ->
        exists url, parse_url db text = (Some url, platform)
                    /\ search r text = Some url)
  /\ (has_shape db YOUTUBE text -> snd (parse_url db text) = YOUTUBE)
  /\ (~ has_shape db YOUTUBE text -> has_shape db FACEBOOK text ->
      snd (parse_url db text) = FACEBOOK)
  /\ (~ has_shape db YOUTUBE text -> ~ has_shape db FACEBOOK text ->
      has_shape db INSTAGRAM text ->
      snd (parse_url db text) = INSTAGRAM)
  /\ ((forall platform, ~ has_shape db platform text) ->
      parse_url db text = (None, UNKNOWN)).
Proof.
  pose proof (parse_url_cases db text) as Hcases.
  (* The entry that decides, when some platform has its shape in the text. *)
  assert (Hfirst : forall platform, has_shape db platform text ->
    exists (i : nat) p r url,
      flat_patterns db !! i = Some (p, r) /\ parse_url db text = (Some url, p)
      /\ search r text = Some url
      /\ occurs r text
      /\ forall (j : nat) q r', (j < i)%nat -> flat_patterns db !! j = Some (q, r') ->
           ~ occurs r' text).
  { intros platform Hshape.
    destruct Hcases as [[_ Hnone] | (i & p & r & url & a & b & Hi & Hres & _ & _ & Hs & Hm
                                      & Hsearch & _ & Hbefore)].
    - destruct (Hnone _ Hshape).
    - exists i, p, r, url. repeat split; auto.
      exists a, url, b. split; [exact Hs | exact Hm]. }
  split; [exact Hcases|]. split; [|split; [|split; [|split]]].
  - intros i platform r Hi Hocc Hbefore.
    destruct (Hfirst _ (entry_shape _ _ _ _ Hi Hocc))
      as (i' & p & r' & url & Hi' & Hres & Hsearch & Hocc' & Hbefore').
    assert (i' = i) as ->.
    { destruct (Nat.lt_trichotomy i' i) as [Hlt|[Heq|Hgt]]; [|exact Heq|].
      - destruct (Hbefore _ _ _ Hlt Hi' Hocc').
      - destruct (Hbefore' _ _ _ Hgt Hi Hocc). }
    rewrite Hi in Hi'. injection Hi' as <- <-. exists url. auto.
  - intros Hyt.
    destruct (Hfirst _ Hyt) as (i & p & r & url & Hi & Hres & _ & _ & Hbefore).
    destruct (shape_entry _ _ Hyt) as (j & r0 & Hj & Hocc & Hpj).
    apply platform_at_youtube in Hpj.
    assert (Hij : (i <= j)%nat).
    { destruct (Nat.le_gt_cases i j) as [H|H]; [exact H|]. destruct (Hbefore _ _ _ H Hj Hocc). }
    rewrite Hres. simpl. destruct (flat_patterns_platform _ _ _ _ Hi) as [-> _].
    apply platform_at_youtube. lia.
  - intros Hnyt Hfb.
    destruct (Hfirst _ Hfb) as (i & p & r & url & Hi & Hres & _ & Hocci & Hbefore).
    destruct (shape_entry _ _ Hfb) as (j & r0 & Hj & Hocc & Hpj).
    apply platform_at_facebook in Hpj.
    assert (Hij : (i <= j)%nat).
    { destruct (Nat.le_gt_cases i j) as [H|H]; [exact H|]. destruct (Hbefore _ _ _ H Hj Hocc). }
    rewrite Hres. simpl. destruct (flat_patterns_platform _ _ _ _ Hi) as [Hp _].
    rewrite Hp. apply platform_at_facebook. split; [|lia].
    destruct (Nat.le_gt_cases 3 i) as [H|H]; [exact H|]. exfalso. apply Hnyt.
    apply platform_at_youtube in H. rewrite <- H, <- Hp.
    exact (entry_shape _ _ _ _ Hi Hocci).
  - intros Hnyt Hnfb Hig.
    destruct (Hfirst _ Hig) as (i & p & r & url & Hi & Hres & _ & Hocci & _).
    rewrite Hres. simpl. destruct (flat_patterns_platform _ _ _ _ Hi) as [Hp _].
    pose proof (entry_shape _ _ _ _ Hi Hocci) as Hshape. rewrite Hp in *.
    unfold platform_at in *.
    destruct (i <? 3)%nat; [destruct (Hnyt Hshape)|].
    destruct (i <? 7)%nat; [destruct (Hnfb Hshape) | reflexivity].
  - intros Hnone. destruct Hcases as [[Hres _] | (i & p & r & url & a & b & Hi & _ & _ & _
                                                  & Hs & Hm & _)]; [exact Hres|].
    exfalso. apply (Hnone p), (entry_shape _ _ _ _ Hi).
    exists a, url, b. split; [exact Hs | exact Hm].
Qed.

End UrlPriority.

Section UrlSamples.
Import Models Re UrlParser UrlSpec.

Lemma search_occurs (r : regex) (t m : list N) : search r t = Some m -> occurs r t.
Proof.
  intros H. destruct (search_some _ _ _ H) as (a & b & Hs & Hm & _). exists a, m, b. auto.
Qed.

(** No pattern of the table occurs in a text on which every search fails. *)
Lemma no_shape_by_search (db : Py.unicode) (text : list N) :
  forallb (fun entry => match search (snd entry) text with
                        | Some _ => false
                        | None => true
                        end) (flat_patterns db) = true ->
  forall platform, ~ has_shape db platform text.
Proof.
  intros Hall platform (r & Hin & Hocc).
  rewrite forallb_forall in Hall. specialize (Hall _ Hin). simpl in Hall.
  destruct (search r text) eqn:E; [discriminate|].
  apply (proj1 (search_none _ _) E), Hocc.
Qed.

Lemma parse_url_first_match_witness :
  parse_url SampleUnicode.db later_and_shorter = (Some (str "youtube.com/watch?v=x"), YOUTUBE)
  /\ parse_url SampleUnicode.db instagram_then_youtube = (Some (str "youtu.be/abc"), YOUTUBE)
  /\ parse_url SampleUnicode.db vimeo_link = (None, UNKNOWN).
Proof.
  split; [|split].
  - edestruct (proj1 (proj2 (parse_url_first_match SampleUnicode.db later_and_shorter))
                 0%nat) as (url & Hres & Hsearch).
    + reflexivity.
    + eapply search_occurs. vm_compute. reflexivity.
    + intros j q r' Hj. lia.
    + rewrite Hres. f_equal. rewrite <- Hsearch. vm_compute. reflexivity.
  - edestruct (proj1 (proj2 (parse_url_first_match SampleUnicode.db instagram_then_youtube))
                 2%nat) as (url & Hres & Hsearch).
    + reflexivity.
    + eapply search_occurs. vm_compute. reflexivity.
    + intros j q r' Hj Hl.
      destruct j as [|[|j]]; [| |lia]; injection Hl as <- <-;
        apply search_none; vm_compute; reflexivity.
    + rewrite Hres. f_equal. rewrite <- Hsearch. vm_compute. reflexivity.
  - apply (proj2 (proj2 (proj2 (proj2 (proj2
             (parse_url_first_match SampleUnicode.db vimeo_link)))))).
    apply no_shape_by_search. vm_compute. reflexivity.
Defined.

(** [parse_url] on texts of each shape. *)
Example parse_url_samples :
  List.map (fun s => parse_url SampleUnicode.db (str s))
    [ "Check this video: https://youtube.com/watch?v=abc123&t=5 ok";
      "https://www.youtube.com/shorts/a-b_c";
      "http://youtu.be/Z";
      "facebook.com/a/b/videos/12/videos/34x";
      "https://www.facebook.com/reel/123";
      "facebook.com/stories/987654";
      "fb.watch/ab-c_d";
      "https://instagram.com/p/Cabc/";
      "https://www.instagram.com/reels/Cabc-_1/";
      "instagram.com/stories/user.name_1/123456";
      "Hello world";
      "facebook.com//videos/1" ]
  = [ (Some (str "https://youtube.com/watch?v=abc123"), YOUTUBE);
      (Some (str "https://www.youtube.com/shorts/a-b_c"), YOUTUBE);
      (Some (str "http://youtu.be/Z"), YOUTUBE);
      (Some (str "facebook.com/a/b/videos/12/videos/34"), FACEBOOK);
      (Some (str "https://www.facebook.com/reel/123"), FACEBOOK);
      (Some (str "facebook.com/stories/987654"), FACEBOOK);
      (Some (str "fb.watch/ab-c_d"), FACEBOOK);
      (Some (str "https://instagram.com/p/Cabc"), INSTAGRAM);
      (Some (str "https://www.instagram.com/reels/Cabc-_1"), INSTAGRAM);
      (Some (str "instagram.com/stories/user.name_1/123456"), INSTAGRAM);
      (None, UNKNOWN);
      (None, UNKNOWN) ].
Proof. vm_compute. reflexivity. Qed.

(** Beyond ASCII, with the sample database: an accented letter is a word
    character, so that it can be the identifier of a YouTube link, which
    then wins over a Facebook link before it, and an identifier goes on
    through it; Arabic-Indic digits number a Facebook reel. *)
Example parse_url_beyond_ascii :
  parse_url SampleUnicode.db accented_identifier
  = (Some (str "youtu.be/" ++ [233%N]), YOUTUBE)
  /\ parse_url SampleUnicode.db accent_inside
     = (Some (str "https://youtu.be/abc" ++ [233%N] ++ str "123"), YOUTUBE)
  /\ parse_url SampleUnicode.db arabic_indic_reel
     = (Some (str "facebook.com/reel/" ++ [1633%N; 1634%N; 1635%N]), FACEBOOK).
Proof. vm_compute. repeat split; reflexivity. Qed.

End UrlSamples.

(** ** The theorems at work on the sample data *)

(** A file of 60 MB, nothing in the way of its removal: it is gone after
    the call, and no other path is touched. *)
Lemma send_video_always_cleans_up_witness :
  w_fs (after (Sender.send_video ProgressSpec.willing_bot 7 "/tmp/clip.mp4"
                 Sender.DEFAULT_MAX_FILE_SIZE) SenderSpec.sixty_mb_world)
  !! "/tmp/clip.mp4" = None
  /\ w_fs (after (Sender.send_video ProgressSpec.willing_bot 7 "/tmp/clip.mp4"
                    Sender.DEFAULT_MAX_FILE_SIZE) SenderSpec.sixty_mb_world)
     !! "/tmp/other.mp4" = w_fs SenderSpec.sixty_mb_world !! "/tmp/other.mp4".
Proof.
  destruct (send_video_always_cleans_up ProgressSpec.willing_bot 7 "/tmp/clip.mp4"
              Sender.DEFAULT_MAX_FILE_SIZE SenderSpec.sixty_mb_world)
    as (result & _ & Hgone & _ & Hother).
  split.
  - destruct Hgone as [H | (_ & Hwhy & _)]; [exact H|]. exfalso.
    destruct Hwhy as [[e He] | [size Hsize]];
      [vm_compute in He; discriminate He | vm_compute in Hsize; discriminate Hsize].
  - apply Hother. discriminate.
Defined.

(** A download that works: the result names the file the engine wrote. *)
Lemma download_result_invariant_witness :
  exists path n,
    w_fs (after (Downloader.download_video DownloaderSpec.working_engine
                   DownloaderSpec.sample_uuid "https://youtu.be/abc" "/tmp"
                   (50 * 1024 * 1024) None) empty_world) !! path = Some n
    /\ Z.of_N (node_size n) = 10 * 1024 * 1024.
Proof.
  destruct (download_result_invariant DownloaderSpec.working_engine
              DownloaderSpec.sample_uuid "https://youtu.be/abc" "/tmp" (50 * 1024 * 1024)
              None empty_world) as (r & Hout & Hsuccess & _).
  vm_compute in Hout. injection Hout as <-.
  destruct (Hsuccess eq_refl) as (path & n & _ & Hfile & Hsize & _).
  exists path, n. split; [exact Hfile | symmetry; exact Hsize].
Defined.

(** A transport that refuses everything: editing and deleting answer
    [False]; one that accepts: sending answers the message identifier. *)
Lemma status_message_failures_witness :
  outcome (Progress.update_progress {| Progress.bot := ProgressSpec.refusing_bot |} 7 42
             Progress.MSG_SENDING) empty_world = inr false
  /\ outcome (Progress.delete_progress {| Progress.bot := ProgressSpec.refusing_bot |} 7 42)
       empty_world = inr false
  /\ outcome (Progress.send_progress {| Progress.bot := ProgressSpec.willing_bot |} 7
                Progress.MSG_DOWNLOADING) empty_world = inr 42.
Proof.
  split; [|split].
  - exact (proj1 (proj1 (status_message_failures
                           {| Progress.bot := ProgressSpec.refusing_bot |} 7 42
                           Progress.MSG_SENDING empty_world))).
  - exact (proj1 (proj1 (proj2 (status_message_failures
                                  {| Progress.bot := ProgressSpec.refusing_bot |} 7 42
                                  Progress.MSG_SENDING empty_world)))).
  - exact (proj2 (proj2 (status_message_failures
                           {| Progress.bot := ProgressSpec.willing_bot |} 7 42
                           Progress.MSG_DOWNLOADING empty_world))).
Defined.

(* ===================================================================== *)
(** * Part IV: further properties of the code                            *)
(* ===================================================================== *)

(** ** sender.py: the helpers and the outcomes of [send_video] *)

Section SenderMore.
Import Sender SenderSpec.
Implicit Types (bot : Bot) (w : world) (file_path : string).

(** [cleanup_file], case by case. *)
Lemma cleanup_file_eval file_path w :
  cleanup_file file_path w
  = match w_fs w !! file_path with
    | None =>
        (inr true, after (log DEBUG ("File không tồn tại, bỏ qua: " +:+ file_path)) w)
    | Some n =>
        match remove_fault (w_faults w) file_path, n with
        | Some e, _ =>
            (inr false,
             after (log ERROR ("Lỗi khi xóa file " +:+ file_path +:+ ": " +:+ Py.exn_msg e)) w)
        | None, Dir _ =>
            (inr false,
             after (log ERROR ("Lỗi khi xóa file " +:+ file_path +:+ ": "
                               +:+ Py.exn_msg (Os.is_a_directory file_path))) w)
        | None, File _ =>
            (inr true,
             World (delete file_path (w_fs w)) (w_faults w)
                   (w_log w ++ [(INFO, "Đã xóa file tạm: " +:+ file_path)]) (w_calls w))
        end
    end.
Proof.
  unfold cleanup_file.
  destruct (w_fs w !! file_path) as [n|] eqn:Hn.
  - destruct (remove_fault (w_faults w) file_path) as [e|] eqn:Hrf.
    + erewrite try_except_raises; [reflexivity|].
      rewrite (bind_value _ _ _ _ _ (path_exists_present _ _ _ Hn)).
      unfold bind, Os.remove. now rewrite Hrf.
    + destruct n as [size|size].
      * apply try_except_value.
        rewrite (bind_value _ _ _ _ _ (path_exists_present _ _ _ Hn)).
        unfold bind, Os.remove. now rewrite Hrf, Hn.
      * erewrite try_except_raises; [reflexivity|].
        rewrite (bind_value _ _ _ _ _ (path_exists_present _ _ _ Hn)).
        unfold bind, Os.remove. now rewrite Hrf, Hn.
  - apply try_except_value.
    now rewrite (bind_value _ _ _ _ _ (path_exists_absent _ _ Hn)).
Qed.

(** [cleanup_file] never raises, touches neither the transport nor any
    other path, and its answer says whether the path is gone: [True]
    exactly when the path is absent afterwards; on [False] the files are
    as they were. *)
Theorem cleanup_file_answer file_path w :
  exists removed,
    outcome (cleanup_file file_path) w = inr removed
    /\ (removed = true <-> w_fs (after (cleanup_file file_path) w) !! file_path = None)
    /\ (removed = false -> w_fs (after (cleanup_file file_path) w) = w_fs w)
    /\ (forall q, q <> file_path ->
          w_fs (after (cleanup_file file_path) w) !! q = w_fs w !! q)
    /\ w_calls (after (cleanup_file file_path) w) = w_calls w
    /\ w_faults (after (cleanup_file file_path) w) = w_faults w.
Proof.
  unfold outcome, after at 1 2 3 4 5. rewrite cleanup_file_eval.
  destruct (w_fs w !! file_path) as [n|] eqn:Hn.
  - destruct (remove_fault (w_faults w) file_path) as [e|].
    + exists false. simpl. rewrite Hn. repeat split; auto; discriminate.
    + destruct n as [size|size].
      * exists true. simpl. split; [reflexivity|].
        split; [split; [intros _; apply lookup_delete_eq | reflexivity]|].
        split; [discriminate|].
        split; [intros q Hq; now apply lookup_delete_ne | auto].
      * exists false. simpl. rewrite Hn. repeat split; auto; discriminate.
  - exists true. simpl. rewrite Hn. repeat split; auto; discriminate.
Qed.

(** [cleanup_file] is idempotent: run again on the world it left, it gives
    the same answer and changes no file. *)
Theorem cleanup_file_idempotent file_path w :
  outcome (cleanup_file file_path) (after (cleanup_file file_path) w)
  = outcome (cleanup_file file_path) w
  /\ w_fs (after (cleanup_file file_path) (after (cleanup_file file_path) w))
     = w_fs (after (cleanup_file file_path) w).
Proof.
  unfold outcome, after at 1 2 3 4. rewrite (cleanup_file_eval file_path w).
  destruct (w_fs w !! file_path) as [n|] eqn:Hn.
  - destruct (remove_fault (w_faults w) file_path) as [e|] eqn:Hrf.
    + rewrite cleanup_file_eval. simpl. rewrite Hn, Hrf. auto.
    + destruct n as [size|size].
      * rewrite cleanup_file_eval. simpl. rewrite lookup_delete_eq. auto.
      * rewrite cleanup_file_eval. simpl. rewrite Hn, Hrf. auto.
  - rewrite cleanup_file_eval. simpl. rewrite Hn. auto.
Qed.

Lemma get_file_size_missing file_path w :
  w_fs w !! file_path = None -> get_file_size file_path w = (inr (-1), w).
Proof.
  intros Hn. unfold get_file_size.
  apply try_except_value. now rewrite (bind_value _ _ _ _ _ (path_exists_absent _ _ Hn)).
Qed.

Lemma get_file_size_fault file_path w (n : node) (e : Py.exn) :
  w_fs w !! file_path = Some n ->
  getsize_fault (w_faults w) file_path = Some e ->
  get_file_size file_path w
  = (inr (-1),
     after (log ERROR ("Lỗi khi lấy kích thước file " +:+ file_path +:+ ": "
                       +:+ Py.exn_msg e)) w).
Proof.
  intros Hn Hg. unfold get_file_size.
  erewrite try_except_raises.
  2:{ rewrite (bind_value _ _ _ _ _ (path_exists_present _ _ _ Hn)).
      unfold Os.getsize. rewrite Hg. reflexivity. }
  reflexivity.
Qed.

(** [get_file_size] never raises and changes no file; it answers -1
    exactly when the path is missing or its size cannot be read, and the
    size of what the path names otherwise. *)
Theorem get_file_size_answer file_path w :
  exists size,
    outcome (get_file_size file_path) w = inr size
    /\ (size = -1 <->
          w_fs w !! file_path = None \/ is_Some (getsize_fault (w_faults w) file_path))
    /\ (size <> -1 ->
          exists n, w_fs w !! file_path = Some n /\ size = Z.of_N (node_size n))
    /\ w_fs (after (get_file_size file_path) w) = w_fs w
    /\ w_calls (after (get_file_size file_path) w) = w_calls w.
Proof.
  unfold outcome, after.
  destruct (w_fs w !! file_path) as [n|] eqn:Hn.
  - destruct (getsize_fault (w_faults w) file_path) as [e|] eqn:Hg.
    + rewrite (get_file_size_fault _ _ _ _ Hn Hg). exists (-1). simpl.
      repeat split; eauto. congruence.
    + rewrite (get_file_size_of_file _ _ _ Hn Hg). exists (Z.of_N (node_size n)). simpl.
      repeat split; eauto.
      * lia.
      * intros [H | [e He]]; discriminate.
  - rewrite (get_file_size_missing _ _ Hn). exists (-1). simpl.
    repeat split; eauto. congruence.
Qed.

(** [is_file_size_valid] never raises, and answers [True] exactly when the
    path exists, its size can be read and the size is at most the ceiling:
    never for a missing or unreadable file, never for a negative ceiling. *)
Theorem is_file_size_valid_iff file_path (max_size : Z) w :
  (exists valid, outcome (is_file_size_valid file_path max_size) w = inr valid)
  /\ (outcome (is_file_size_valid file_path max_size) w = inr true <->
        exists n, w_fs w !! file_path = Some n
                  /\ getsize_fault (w_faults w) file_path = None
                  /\ Z.of_N (node_size n) <= max_size)
  /\ (max_size < 0 -> outcome (is_file_size_valid file_path max_size) w = inr false).
Proof.
  unfold outcome, is_file_size_valid.
  destruct (w_fs w !! file_path) as [n|] eqn:Hn.
  - destruct (getsize_fault (w_faults w) file_path) as [e|] eqn:Hg.
    + rewrite (bind_value _ _ _ _ _ (get_file_size_fault _ _ _ _ Hn Hg)). simpl.
      split; [eauto|]. split; [|reflexivity].
      split; [discriminate | intros (n' & _ & H & _); discriminate].
    + rewrite (bind_value _ _ _ _ _ (get_file_size_of_file _ _ _ Hn Hg)).
      destruct (Z.ltb_spec (Z.of_N (node_size n)) 0) as [Hneg|_]; [lia|]. simpl.
      split; [eauto|]. split.
      * split.
        -- intros [= H]. exists n. repeat split; auto. now apply Z.leb_le.
        -- intros (n' & [= <-] & _ & H). f_equal. now apply Z.leb_le.
      * intros Hm. f_equal. apply Z.leb_gt. lia.
  - rewrite (bind_value _ _ _ _ _ (get_file_size_missing _ _ Hn)). simpl.
    split; [eauto|]. split; [|reflexivity].
    split; [discriminate | intros (n' & H & _); discriminate].
Qed.

(** The [try] block on a file within the ceiling. *)
Lemma send_video_try_fits bot chat_id file_path max_size w (n : node) :
  w_fs w !! file_path = Some n ->
  getsize_fault (w_faults w) file_path = None ->
  Z.of_N (node_size n) <= max_size ->
  send_video_try bot chat_id file_path max_size w
  = match Py.int_truediv (Z.of_N (node_size n)) (1024 * 1024) with
    | inl e => (inl e, w)
    | inr mb =>
        let w1 := after (log INFO ("Đang gửi video: " +:+ file_path +:+ " ("
                                   +:+ Py.format_f 1 mb +:+ "MB)")) w in
        match open_fault (w_faults w) file_path, n with
        | Some e, _ => (inl e, w1)
        | None, Dir _ => (inl (Os.is_a_directory file_path), w1)
        | None, File _ =>
            let w2 := after (record_call (SendVideo chat_id file_path)) w1 in
            match send_video_result bot chat_id file_path with
            | inl e => (inl e, w2)
            | inr _ => (inr (true, None),
                        after (log INFO ("Gửi video thành công: " +:+ file_path)) w2)
            end
        end
    end.
Proof.
  intros Hn Hg Hle. unfold send_video_try.
  rewrite (bind_value _ _ _ _ _ (path_exists_present _ _ _ Hn)). cbn [negb].
  rewrite (bind_value _ _ _ _ _ (get_file_size_of_file _ _ _ Hn Hg)).
  destruct (Z.ltb_spec (Z.of_N (node_size n)) 0) as [Hneg|_]; [lia|].
  destruct (Z.ltb_spec max_size (Z.of_N (node_size n))) as [Hlt|_]; [lia|].
  destruct (Py.int_truediv (Z.of_N (node_size n)) (1024 * 1024)) as [e|mb]; [reflexivity|].
  unfold bind, lift, log, after, Os.with_open_rb, Transport.send_video, bind, record_call,
    lift, ret. cbn [fst snd w_fs w_faults w_log w_calls].
  destruct (open_fault (w_faults w) file_path) as [e|]; [reflexivity|].
  rewrite Hn. destruct n as [size|size]; [|reflexivity].
  destruct (send_video_result bot chat_id file_path) as [e|[]]; reflexivity.
Qed.

Lemma send_video_try_missing bot chat_id file_path max_size w :
  w_fs w !! file_path = None ->
  send_video_try bot chat_id file_path max_size w
  = (inr (false, Some "File video không tồn tại"),
     after (log ERROR ("File không tồn tại: " +:+ file_path)) w).
Proof.
  intros Hn. unfold send_video_try.
  now rewrite (bind_value _ _ _ _ _ (path_exists_absent _ _ Hn)).
Qed.

Lemma send_video_try_unreadable bot chat_id file_path max_size w (n : node) (e : Py.exn) :
  w_fs w !! file_path = Some n ->
  getsize_fault (w_faults w) file_path = Some e ->
  outcome (send_video_try bot chat_id file_path max_size) w
  = inr (false, Some "Không thể đọc kích thước file")
  /\ w_calls (after (send_video_try bot chat_id file_path max_size) w) = w_calls w.
Proof.
  intros Hn Hg. unfold outcome, after, send_video_try.
  rewrite (bind_value _ _ _ _ _ (path_exists_present _ _ _ Hn)). cbn [negb].
  rewrite (bind_value _ _ _ _ _ (get_file_size_fault _ _ _ _ Hn Hg)).
  split; reflexivity.
Qed.

(** [send_video] calls the transport at most once, with the chat and the
    path it was given, and answers [(True, None)] exactly when it sent: the
    path names a regular file whose size can be read and is within the
    ceiling (and within the range of floats, for the log), the file can be
    opened, and the transport accepted the video. *)
Theorem send_video_success_iff bot chat_id file_path max_size w :
  (w_calls (after (send_video bot chat_id file_path max_size) w) = w_calls w
   \/ w_calls (after (send_video bot chat_id file_path max_size) w)
      = w_calls w ++ [SendVideo chat_id file_path])
  /\ (outcome (send_video bot chat_id file_path max_size) w = inr (true, None) <->
        (exists size, w_fs w !! file_path = Some (File size) /\ Z.of_N size <= max_size
           /\ exists mb, Py.int_truediv (Z.of_N size) (1024 * 1024) = inr mb)
        /\ getsize_fault (w_faults w) file_path = None
        /\ open_fault (w_faults w) file_path = None
        /\ exists u, send_video_result bot chat_id file_path = inr u)
  /\ (outcome (send_video bot chat_id file_path max_size) w = inr (true, None) ->
        w_calls (after (send_video bot chat_id file_path max_size) w)
        = w_calls w ++ [SendVideo chat_id file_path]).
Proof.
  destruct (send_video_of_attempt bot chat_id file_path max_size w) as (Hout & Hcalls).
  cbv zeta in Hout, Hcalls. rewrite Hout, Hcalls. clear Hout Hcalls.
  unfold outcome, after, try_except.
  destruct (w_fs w !! file_path) as [n|] eqn:Hn.
  2:{ rewrite (send_video_try_missing _ _ _ _ _ Hn). simpl.
      split; [auto|]. split; [|discriminate].
      split; [discriminate | intros ((size & H & _) & _); discriminate]. }
  destruct (getsize_fault (w_faults w) file_path) as [e|] eqn:Hg.
  { destruct (send_video_try_unreadable bot chat_id file_path max_size w n e Hn Hg)
      as (Ho & Hc). unfold outcome, after in Ho, Hc.
    destruct (send_video_try bot chat_id file_path max_size w) as [r w1]. simpl in *.
    subst r. split; [auto|]. split; [|discriminate].
    split; [discriminate | intros (_ & H & _); discriminate]. }
  destruct (Z.lt_ge_cases max_size (Z.of_N (node_size n))) as [Hlt|Hle].
  { destruct (attempt_too_large bot chat_id file_path max_size w n Hn Hg Hlt)
      as (Hc & (msg & Ho) & _). unfold outcome, after, try_except in Ho, Hc.
    rewrite Hc. rewrite Ho. split; [auto|]. split; [|discriminate].
    split; [discriminate|]. intros ((size & [= ->] & Hs & _) & _). simpl in Hlt. lia. }
  rewrite (send_video_try_fits _ _ _ _ _ _ Hn Hg Hle).
  destruct (Py.int_truediv (Z.of_N (node_size n)) (1024 * 1024)) as [e|mb] eqn:Hmb.
  { simpl. split; [auto|]. split; [|discriminate].
    split; [discriminate|]. intros ((size & [= ->] & _ & mb & Hdiv) & _).
    simpl in Hmb. congruence. }
  cbv zeta.
  destruct (open_fault (w_faults w) file_path) as [e|] eqn:Ho.
  { simpl. split; [auto|]. split; [|discriminate].
    split; [discriminate | intros (_ & _ & H & _); discriminate]. }
  destruct n as [size|size].
  2:{ simpl. split; [auto|]. split; [|discriminate].
      split; [discriminate | intros ((sz & H & _) & _); discriminate]. }
  destruct (send_video_result bot chat_id file_path) as [e|u] eqn:Hs.
  { simpl. split; [auto|]. split; [|discriminate].
    split; [discriminate | intros (_ & _ & _ & u & H); discriminate]. }
  simpl. split; [auto|]. split; [|reflexivity].
  split; [intros _ | reflexivity].
  split; [|eauto]. exists size. simpl in Hle, Hmb. eauto.
Qed.


End SenderMore.


(** ** downloader.py: output paths and the probing of containers *)

Section DownloadMore.
Import Models Downloader DownloaderSpec.

Lemma has_dot_append (x y : string) : has_dot (x +:+ y) = has_dot x || has_dot y.
Proof.
  induction x as [|c x IH]; [reflexivity|].
  rewrite append_cons. simpl. rewrite IH. now rewrite orb_assoc.
Qed.

(** [rsplit('.', 1)[0]] takes an extension off again. *)
Lemma rsplit_dot_head_ext (x ext : string) :
  has_dot ext = false -> rsplit_dot_head (x +:+ String "." ext) = x.
Proof.
  intros Hext. induction x as [|c x IH].
  - rewrite append_nil_l. simpl. rewrite Hext. reflexivity.
  - rewrite append_cons. simpl. rewrite has_dot_append. simpl.
    rewrite orb_true_r. now rewrite IH.
Qed.

(** [os.path.join(dir, b)] puts the same prefix before every [b]. *)
Lemma path_join_prefix (dir : string) :
  exists prefix, forall b, Os.path_join dir b = prefix +:+ b.
Proof.
  unfold Os.path_join. destruct (String.eqb dir EmptyString).
  - exists EmptyString. reflexivity.
  - destruct (String.eqb _ "/").
    + exists dir. reflexivity.
    + exists (dir +:+ "/"). intros b. now rewrite append_assoc.
Qed.

(** The base path of the output path, with an extension put back. *)
Lemma base_path_ext (dir uid ext : string) :
  rsplit_dot_head (Os.path_join dir (uid +:+ ".mp4")) +:+ ext
  = Os.path_join dir (uid +:+ ext).
Proof.
  destruct (path_join_prefix dir) as [prefix Hp]. rewrite !Hp.
  rewrite <- append_assoc.
  change ".mp4" with (String "." "mp4").
  rewrite rsplit_dot_head_ext by reflexivity. apply append_assoc.
Qed.

(** In one directory, different identifiers give different output paths:
    two downloads never write to the same file unless [uuid4] repeats. *)
Theorem output_paths_distinct (dir uid1 uid2 : string) (max_size : Z)
    (cb : option callback) :
  uid1 <> uid2 ->
  opt_outtmpl (get_yt_dlp_options (Os.path_join dir (uid1 +:+ ".mp4")) max_size cb)
  <> opt_outtmpl (get_yt_dlp_options (Os.path_join dir (uid2 +:+ ".mp4")) max_size cb).
Proof.
  intros Hne Heq. simpl in Heq. apply Hne.
  destruct (path_join_prefix dir) as [prefix Hp]. rewrite !Hp in Heq.
  apply (f_equal rsplit_dot_head) in Heq.
  rewrite <- !append_assoc in Heq. change ".mp4" with (String "." "mp4") in Heq.
  rewrite !rsplit_dot_head_ext in Heq by reflexivity.
  exact (String.app_inj prefix _ _ Heq).
Qed.

Variable ydl_download : ydl_opts -> list string -> M unit.
Variable uuid4 : string.

Lemma probe_step (base_path ext : string) (rest : list string) (w : world) :
  probe_extensions base_path (ext :: rest) w
  = match w_fs w !! (base_path +:+ ext) with
    | Some n =>
        match getsize_fault (w_faults w) (base_path +:+ ext) with
        | Some e => (inl e, w)
        | None => (inr (succeeded (base_path +:+ ext) (Z.of_N (node_size n))), w)
        end
    | None => probe_extensions base_path rest w
    end.
Proof.
  cbn [probe_extensions].
  destruct (w_fs w !! (base_path +:+ ext)) as [n|] eqn:Hn.
  - rewrite (bind_value _ _ _ _ _ (path_exists_present _ _ _ Hn)).
    unfold bind, Os.getsize, ret. rewrite Hn.
    destruct (getsize_fault (w_faults w) (base_path +:+ ext)); reflexivity.
  - now rewrite (bind_value _ _ _ _ _ (path_exists_absent _ _ Hn)).
Qed.

(** When the engine returns normally, [download_video] leaves the world
    as the engine left it and looks for the file in a fixed order: the
    output path [dir/uuid.mp4] first, then [dir/uuid.mkv], [dir/uuid.webm]
    and [dir/uuid.m4a]; the first that exists is the success, with its
    size, and when none exists the result is the failure
    "File không được tạo sau khi tải".  (The sizes are taken to be
    readable.) *)
Theorem download_video_probe (url dir : string) (max_size : Z) (cb : option callback)
    (w w1 : world) :
  ydl_download (get_yt_dlp_options (Os.path_join dir (uuid4 +:+ ".mp4")) max_size cb)
    [url] w = (inr tt, w1) ->
  (forall p, getsize_fault (w_faults w1) p = None) ->
  let at_ (ext : string) := Os.path_join dir (uuid4 +:+ ext) in
  let found (ext : string) (n : node) :=
    download_video ydl_download uuid4 url dir max_size cb w
    = (inr (succeeded (at_ ext) (Z.of_N (node_size n))), w1) in
  (forall n, w_fs w1 !! at_ ".mp4" = Some n -> found ".mp4" n)
  /\ (forall n, w_fs w1 !! at_ ".mp4" = None -> w_fs w1 !! at_ ".mkv" = Some n ->
        found ".mkv" n)
  /\ (forall n, w_fs w1 !! at_ ".mp4" = None -> w_fs w1 !! at_ ".mkv" = None ->
        w_fs w1 !! at_ ".webm" = Some n -> found ".webm" n)
  /\ (forall n, w_fs w1 !! at_ ".mp4" = None -> w_fs w1 !! at_ ".mkv" = None ->
        w_fs w1 !! at_ ".webm" = None -> w_fs w1 !! at_ ".m4a" = Some n ->
        found ".m4a" n)
  /\ (w_fs w1 !! at_ ".mp4" = None -> w_fs w1 !! at_ ".mkv" = None ->
      w_fs w1 !! at_ ".webm" = None -> w_fs w1 !! at_ ".m4a" = None ->
      download_video ydl_download uuid4 url dir max_size cb w
      = (inr (failed "File không được tạo sau khi tải"), w1)).
Proof.
  intros Hengine Hsizes at_ found. subst found at_. cbv beta.
  set (at_ := fun ext : string => Os.path_join dir (uuid4 +:+ ext)).
  assert (Hdirect : forall n, w_fs w1 !! at_ ".mp4" = Some n ->
    download_video ydl_download uuid4 url dir max_size cb w
    = (inr (succeeded (at_ ".mp4") (Z.of_N (node_size n))), w1)).
  { subst at_. cbv beta. intros n Hn. unfold download_video. apply try_except_value.
    rewrite (bind_value _ _ _ _ _ Hengine).
    rewrite (bind_value _ _ _ _ _ (path_exists_present _ _ _ Hn)).
    unfold bind, Os.getsize, ret. now rewrite Hsizes, Hn. }
  assert (Hprobe : w_fs w1 !! at_ ".mp4" = None ->
    forall r, probe_extensions (rsplit_dot_head (at_ ".mp4")) [".mkv"; ".webm"; ".m4a"] w1
              = (inr r, w1) ->
    download_video ydl_download uuid4 url dir max_size cb w = (inr r, w1)).
  { subst at_. cbv beta. intros Hn r Hr. unfold download_video. apply try_except_value.
    rewrite (bind_value _ _ _ _ _ Hengine).
    rewrite (bind_value _ _ _ _ _ (path_exists_absent _ _ Hn)).
    rewrite probe_step, base_path_ext, Hn. exact Hr. }
  split; [exact Hdirect|]. subst at_. cbv beta in *.
  split; [|split; [|split]].
  - intros n H1 H2. apply (Hprobe H1).
    now rewrite probe_step, base_path_ext, H2, Hsizes.
  - intros n H1 H2 H3. apply (Hprobe H1).
    rewrite probe_step, base_path_ext, H2.
    now rewrite probe_step, base_path_ext, H3, Hsizes.
  - intros n H1 H2 H3 H4. apply (Hprobe H1).
    rewrite probe_step, base_path_ext, H2.
    rewrite probe_step, base_path_ext, H3.
    now rewrite probe_step, base_path_ext, H4, Hsizes.
  - intros H1 H2 H3 H4. apply (Hprobe H1).
    rewrite probe_step, base_path_ext, H2.
    rewrite probe_step, base_path_ext, H3.
    now rewrite probe_step, base_path_ext, H4.
Qed.

End DownloadMore.

Lemma output_paths_distinct_witness :
  Downloader.opt_outtmpl
    (Downloader.get_yt_dlp_options (Os.path_join "/tmp" ("a" +:+ ".mp4")) 100 None)
  <> Downloader.opt_outtmpl
       (Downloader.get_yt_dlp_options (Os.path_join "/tmp" ("b" +:+ ".mp4")) 100 None).
Proof.
  apply (output_paths_distinct "/tmp" "a" "b" 100 None). discriminate.
Defined.

Lemma download_video_probe_witness :
  exists w1,
    Downloader.download_video MoreSpec.mkv_engine DownloaderSpec.sample_uuid
      "https://youtu.be/abc" "/tmp" 100 None empty_world
    = (inr (Downloader.succeeded "/tmp/12345678-1234-5678-1234-567812345678.mkv"
              (3 * 1024 * 1024)), w1).
Proof.
  eexists.
  refine (proj1 (proj2 (download_video_probe MoreSpec.mkv_engine
             DownloaderSpec.sample_uuid "https://youtu.be/abc" "/tmp" 100 None
             empty_world _ eq_refl (fun _ => eq_refl)))
          (File (3 * 1024 * 1024)) eq_refl eq_refl).
Defined.

(** ** url_parser.py: the link that is returned *)

Section UrlMore.
Import Models Re UrlParser UrlSpec MoreSpec.
Implicit Types (r : regex) (s u b rest : list N) (p : N -> bool).
Variable db : Py.unicode.

Lemma match_here_shorter r s rest :
  In rest (match_here r s) -> (length rest <= length s)%nat.
Proof.
  intros H. destruct (match_here_sound _ _ _ H) as (u & -> & _).
  rewrite length_app. lia.
Qed.

Lemma star_rems_shorter p s rest :
  In rest (star_rems p s) -> (length rest <= length s)%nat.
Proof.
  intros H. apply star_rems_iff in H. destruct H as (u & _ & ->).
  rewrite length_app. lia.
Qed.

Lemma filter_none {A} (f : A -> bool) (l : list A) :
  (forall x, In x l -> f x = false) -> List.filter f l = [].
Proof.
  induction l as [|x l IH]; intros H; [reflexivity|]. simpl.
  rewrite (H x) by (left; reflexivity). apply IH. intros y Hy. apply H. now right.
Qed.

Lemma filter_flat_map {A B} (f : B -> bool) (g : A -> list B) (l : list A) :
  List.filter f (List.flat_map g l) = List.flat_map (fun x => List.filter f (g x)) l.
Proof.
  induction l as [|x l IH]; [reflexivity|]. simpl. now rewrite List.filter_app, IH.
Qed.

Lemma flat_map_filter {A B} (f : A -> bool) (g : A -> list B) (l : list A) :
  (forall x, In x l -> f x = false -> g x = []) ->
  List.flat_map g l = List.flat_map g (List.filter f l).
Proof.
  induction l as [|x l IH]; intros H; [reflexivity|]. simpl.
  rewrite IH by (intros y Hy; apply H; now right).
  destruct (f x) eqn:E; [reflexivity|].
  now rewrite (H x (or_introl eq_refl) E).
Qed.

Lemma flat_map_of_map {A B C} (h : A -> B) (g : B -> list C) (l : list A) :
  List.flat_map g (List.map h l) = List.flat_map (fun x => g (h x)) l.
Proof. induction l as [|x l IH]; [reflexivity|]. simpl. now rewrite IH. Qed.

Lemma map_of_flat_map {A B C} (h : B -> C) (g : A -> list B) (l : list A) :
  List.map h (List.flat_map g l) = List.flat_map (fun x => List.map h (g x)) l.
Proof. induction l as [|x l IH]; [reflexivity|]. simpl. now rewrite List.map_app, IH. Qed.

Lemma flat_map_ext_in {A B} (g g' : A -> list B) (l : list A) :
  (forall x, In x l -> g x = g' x) -> List.flat_map g l = List.flat_map g' l.
Proof.
  induction l as [|x l IH]; intros H; [reflexivity|]. simpl.
  rewrite (H x) by (left; reflexivity). f_equal. apply IH. intros y Hy. apply H. now right.
Qed.

Lemma keeps_at_least_app u b : keeps_at_least b (u ++ b) = true.
Proof. unfold keeps_at_least. apply Nat.leb_le. rewrite length_app. lia. Qed.

Ltac keep :=
  match goal with
  | |- context [keeps_at_least ?b ?x] =>
      replace (keeps_at_least b x) with true
        by (symmetry; unfold keeps_at_least; apply Nat.leb_le; simpl;
            rewrite ?length_app; simpl; lia)
  end.

(** The runs of a class inside [s], seen in [s ++ b]. *)
Lemma star_rems_within p s b :
  List.filter (keeps_at_least b) (star_rems p (s ++ b))
  = List.map (fun x => x ++ b) (star_rems p s).
Proof.
  induction s as [|c s IH].
  - simpl. destruct b as [|c b]; [reflexivity|]. simpl.
    assert (Hlast : List.filter (keeps_at_least (c :: b)) [c :: b] = [c :: b]).
    { simpl. now keep. }
    destruct (p c); [|exact Hlast].
    rewrite List.filter_app, Hlast, filter_none; [reflexivity|].
    intros x Hx. apply star_rems_shorter in Hx. unfold keeps_at_least.
    apply Nat.leb_gt. simpl. lia.
  - simpl. destruct (p c).
    + rewrite List.filter_app, IH, List.map_app. simpl.
      now keep.
    + simpl. now keep.
Qed.

(** The matches of [r] at the start of [s] are those of its matches at
    the start of [s ++ b] that leave [b] alone, found in the same order. *)
Lemma match_here_within r s b :
  List.filter (keeps_at_least b) (match_here r (s ++ b))
  = List.map (fun x => x ++ b) (match_here r s).
Proof.
  assert (Hshort : forall c b', List.filter (keeps_at_least (c :: b')) [b'] = []).
  { intros c b'. apply filter_none. intros x [<-|[]]. unfold keeps_at_least.
    apply Nat.leb_gt. simpl. lia. }
  revert s. induction r as [|c|p|r1 IH1 r2 IH2|r1 IH1 r2 IH2|r1 IH1|p]; intros s.
  - simpl. now keep.
  - destruct s as [|c' s]; simpl.
    + destruct b as [|c' b]; [reflexivity|]. destruct (N.eqb c c'); [apply Hshort|reflexivity].
    + destruct (N.eqb c c'); [|reflexivity]. simpl. now keep.
  - destruct s as [|c' s]; simpl.
    + destruct b as [|c' b]; [reflexivity|]. destruct (p c'); [apply Hshort|reflexivity].
    + destruct (p c'); [|reflexivity]. simpl. now keep.
  - simpl. rewrite filter_flat_map.
    rewrite (flat_map_filter (keeps_at_least b)).
    + rewrite IH1, flat_map_of_map, map_of_flat_map.
      apply flat_map_ext_in. intros x _. apply IH2.
    + intros x _ Hx. apply filter_none. intros y Hy.
      apply match_here_shorter in Hy. unfold keeps_at_least in *.
      apply Nat.leb_gt in Hx. apply Nat.leb_gt. lia.
  - simpl. now rewrite List.filter_app, IH1, IH2, List.map_app.
  - simpl. rewrite List.filter_app, IH1, List.map_app. simpl.
    now keep.
  - destruct s as [|c s]; simpl.
    + destruct b as [|c b]; [reflexivity|]. simpl. destruct (p c); [|reflexivity].
      apply filter_none. intros x Hx. apply star_rems_shorter in Hx.
      unfold keeps_at_least. apply Nat.leb_gt. simpl. lia.
    + destruct (p c); [|reflexivity]. apply star_rems_within.
Qed.

(** The match [re.search] returns is the first one found where it starts. *)
Lemma search_some_first r s m :
  search r s = Some m ->
  exists a b l, s = a ++ m ++ b /\ match_here r (m ++ b) = b :: l.
Proof.
  revert m. induction s as [|c s IH]; intros m H; rewrite search_unfold in H.
  - destruct (match_here r []) as [|rest l] eqn:E; [discriminate|].
    destruct (search_here _ _ _ _ E) as (u & Hs & _ & Hsearch).
    rewrite search_unfold, E in Hsearch. rewrite Hsearch in H. injection H as <-.
    exists [], rest, l. simpl. rewrite <- Hs. auto.
  - destruct (match_here r (c :: s)) as [|rest l] eqn:E.
    + destruct (IH _ H) as (a & b & l & -> & Hm). exists (c :: a), b, l. auto.
    + destruct (search_here _ _ _ _ E) as (u & Hs & _ & Hsearch).
      rewrite search_unfold, E in Hsearch. rewrite Hsearch in H. injection H as <-.
      exists [], rest, l. simpl. rewrite <- Hs. auto.
Qed.

(** A first match, searched for in itself, is found whole. *)
Lemma search_first_match r m b l :
  match_here r (m ++ b) = b :: l -> search r m = Some m.
Proof.
  intros E. pose proof (match_here_within r m b) as H. rewrite E in H. simpl in H.
  change (keeps_at_least b b) with (keeps_at_least b ([] ++ b)) in H.
  rewrite keeps_at_least_app in H.
  destruct (match_here r m) as [|x l'] eqn:Em; [discriminate|].
  simpl in H. injection H as Hx _.
  assert (x = []) as ->.
  { apply (f_equal (@length N)) in Hx. rewrite length_app in Hx.
    destruct x; [reflexivity | simpl in Hx; lia]. }
  rewrite search_unfold, Em. f_equal. simpl. rewrite Nat.sub_0_r. apply firstn_all.
Qed.

Lemma occurs_within r (a t b : list N) : occurs r t -> occurs r (a ++ t ++ b).
Proof.
  intros (a' & u & b' & -> & Hu). exists (a ++ a'), u, (b' ++ b).
  split; [|exact Hu]. now rewrite <- !app_assoc.
Qed.

(** The loop over the flat table stops at the first pattern found. *)
Lemma first_flat_at (l : list (Platform * regex)) (text m : list N) (i : nat)
    platform r :
  l !! i = Some (platform, r) ->
  search r text = Some m ->
  (forall (j : nat) q r', (j < i)%nat -> l !! j = Some (q, r') -> search r' text = None) ->
  first_flat l text = (Some m, platform).
Proof.
  revert i. induction l as [|[q r'] l IH]; intros i Hi Hm Hbefore; [discriminate|].
  destruct i as [|i]; simpl.
  - injection Hi as -> ->. now rewrite Hm.
  - rewrite (Hbefore 0%nat q r') by (lia || reflexivity).
    apply (IH i); [exact Hi | exact Hm|].
    intros j q' r'' Hj Hl. apply (Hbefore (S j) q' r''); [lia | exact Hl].
Qed.

(** The link [parse_url] returns is a fixed point: parsed again, on its
    own, it gives itself and the same platform.  So the platform handed
    on with a link is the one the link alone would get. *)
Theorem parse_url_fixed_point (text url : list N) (platform : Platform) :
  parse_url db text = (Some url, platform) -> parse_url db url = (Some url, platform).
Proof.
  rewrite !parse_url_flat. intros H.
  destruct (first_flat_cases (flat_patterns db) text)
    as [[Hnone _] | (i & p & r & m & Hi & Hm & Hres & Hbefore)].
  - rewrite Hnone in H. discriminate.
  - rewrite Hres in H. injection H as <- <-.
    destruct (search_some_first _ _ _ Hm) as (a & b & l & Htext & Hfirst).
    apply (first_flat_at _ _ _ i _ r); [exact Hi | exact (search_first_match _ _ _ _ Hfirst)|].
    intros j q r' Hj Hl. apply search_none. intros Hocc.
    apply (proj1 (search_none r' text) (Hbefore j q r' Hj Hl)).
    rewrite Htext. now apply occurs_within.
Qed.

Lemma priority_platform_at (i j : nat) :
  (i <= j)%nat -> (priority (platform_at i) <= priority (platform_at j))%nat.
Proof.
  unfold platform_at. intros H.
  destruct (Nat.ltb_spec i 3), (Nat.ltb_spec j 3), (Nat.ltb_spec i 7), (Nat.ltb_spec j 7);
    simpl; lia.
Qed.

(** Text around a message never hides a link: when [parse_url] finds a
    link in a text, it finds one in every text that contains that text,
    and of a platform that comes no later in the table. *)
Theorem parse_url_in_context (before text after_ url : list N) (platform : Platform) :
  parse_url db text = (Some url, platform) ->
  exists url' platform',
    parse_url db (before ++ text ++ after_) = (Some url', platform')
    /\ (priority platform' <= priority platform)%nat.
Proof.
  rewrite !parse_url_flat. intros H.
  destruct (first_flat_cases (flat_patterns db) text)
    as [[Hnone _] | (i & p & r & m & Hi & Hm & Hres & _)].
  { rewrite Hnone in H. discriminate. }
  rewrite Hres in H. injection H as _ Hp. rewrite <- Hp. clear Hp.
  assert (Hocc : occurs r (before ++ text ++ after_)).
  { apply occurs_within.
    destruct (search_some _ _ _ Hm) as (a & b & Hs & Hmatch & _). exists a, m, b. auto. }
  destruct (first_flat_cases (flat_patterns db) (before ++ text ++ after_))
    as [[_ Hall] | (i' & p' & r' & m' & Hi' & Hm' & Hres' & Hbefore')].
  - exfalso. apply (proj1 (search_none _ _) (Hall p r (proj2 (In_lookup _ _) (ex_intro _ i Hi)))).
    exact Hocc.
  - exists m', p'. split; [exact Hres'|].
    assert (Hle : (i' <= i)%nat).
    { destruct (Nat.le_gt_cases i' i) as [Hle|Hgt]; [exact Hle|].
      exfalso. apply (proj1 (search_none _ _) (Hbefore' i p r Hgt Hi)). exact Hocc. }
    destruct (flat_patterns_platform _ _ _ _ Hi) as [-> _].
    destruct (flat_patterns_platform _ _ _ _ Hi') as [-> _].
    now apply priority_platform_at.
Qed.






End UrlMore.

Lemma parse_url_fixed_point_witness :
  UrlParser.parse_url SampleUnicode.db (Re.str "https://youtu.be/abc" ++ [233%N])
  = (Some (Re.str "https://youtu.be/abc" ++ [233%N]), Models.YOUTUBE).
Proof.
  apply (parse_url_fixed_point SampleUnicode.db
           (Re.str "look at https://youtu.be/abc" ++ [233%N] ++ Re.str " now")
           (Re.str "https://youtu.be/abc" ++ [233%N]) Models.YOUTUBE).
  vm_compute. reflexivity.
Defined.

Lemma parse_url_in_context_witness :
  exists url' platform',
    UrlParser.parse_url SampleUnicode.db
      (Re.str "fb.watch/x or " ++ Re.str "instagram.com/p/abc" ++ Re.str " or youtu.be/y")
    = (Some url', platform')
    /\ (MoreSpec.priority platform' <= MoreSpec.priority Models.INSTAGRAM)%nat.
Proof.
  apply (parse_url_in_context SampleUnicode.db (Re.str "fb.watch/x or ")
           (Re.str "instagram.com/p/abc") (Re.str " or youtu.be/y")
           (Re.str "instagram.com/p/abc") Models.INSTAGRAM).
  vm_compute. reflexivity.
Defined.


(** ** error_handler.py: what a classification does and cannot be *)

Section ErrorHandlerMore.
Import Models ErrorHandler ErrorSpec.
Variable db : Py.unicode.

Lemma contains_trans (k' k s : string) :
  contains k' k = true -> contains k s = true -> contains k' s = true.
Proof.
  rewrite !contains_iff. intros (a & b & ->) (a' & b' & ->).
  exists (a' +:+ a), (b +:+ b'). now rewrite !append_assoc.
Qed.

(** A keyword that holds another keyword of its group can be left out. *)
Lemma any_keyword_drop (pre post : list string) (k k' s : string) :
  In k' (pre ++ post) -> contains k' k = true ->
  any_keyword (pre ++ k :: post) s = any_keyword (pre ++ post) s.
Proof.
  intros Hin Hsub. unfold any_keyword. apply eq_true_iff_eq.
  rewrite !existsb_exists. split.
  - intros (x & Hx & Hc). apply in_app_iff in Hx. destruct Hx as [Hx | [<- | Hx]].
    + exists x. split; [apply in_app_iff; auto | exact Hc].
    + exists k'. split; [exact Hin | exact (contains_trans _ _ _ Hsub Hc)].
    + exists x. split; [apply in_app_iff; auto | exact Hc].
  - intros (x & Hx & Hc). exists x. split; [|exact Hc].
    apply in_app_iff in Hx. apply in_app_iff. simpl. tauto.
Qed.

(** [get_user_friendly_error] never raises and touches nothing but the
    log, to which it adds one ERROR record with the class and the text of
    the exception.  Its answer is the message of the kind
    [map_ytdlp_error] gives, which is never FILE_TOO_LARGE; and the
    message tells the kind, as no two kinds share a message. *)
Theorem get_user_friendly_error_answer (error : Py.exn) (w : world) :
  let w' := World (w_fs w) (w_faults w)
              (w_log w ++ [(ERROR, "Error: " +:+ Py.exn_type error +:+ ": "
                                   +:+ Py.exn_msg error)])%list
              (w_calls w) in
  exists kind,
    kind <> FILE_TOO_LARGE
    /\ map_ytdlp_error db error w = (inr kind, w')
    /\ get_user_friendly_error db error w = (inr (get_error_message kind), w')
    /\ (forall kind', get_error_message kind' = get_error_message kind -> kind' = kind).
Proof.
  intros w'. exists (first_group (lower db (Py.exn_msg error))).
  assert (Hrun : map_ytdlp_error db error w
                 = (inr (first_group (lower db (Py.exn_msg error))), w')).
  { unfold map_ytdlp_error, first_group, bind, log_error, log, ret. simpl.
    destruct (_is_video_not_found_error _); [reflexivity|].
    destruct (_is_access_denied_error _); [reflexivity|].
    destruct (_is_network_error _); [reflexivity|].
    destruct (_is_ytdlp_update_error _); reflexivity. }
  split; [|split; [exact Hrun | split]].
  - unfold first_group.
    destruct (_is_video_not_found_error _); [discriminate|].
    destruct (_is_access_denied_error _); [discriminate|].
    destruct (_is_network_error _); [discriminate|].
    destruct (_is_ytdlp_update_error _); discriminate.
  - unfold get_user_friendly_error. now rewrite (bind_value _ _ _ _ _ Hrun).
  - intros kind' H. unfold get_error_message in H.
    destruct kind', (first_group (lower db (Py.exn_msg error)));
      first [reflexivity | discriminate H].
Qed.

(** Six keywords never decide anything: each holds another keyword of its
    own group ("video unavailable" holds "unavailable", "age-restricted"
    and "age restricted" hold "restricted", "connection refused" and
    "connection reset" hold "connection", "please update" holds "update"),
    so every test answers the same without them. *)
Theorem redundant_keywords (error_str : string) :
  _is_video_not_found_error error_str
  = any_keyword [ "not found"; "does not exist"; "has been removed"; "deleted";
                  "unavailable"; "no video"; "404" ] error_str
  /\ _is_access_denied_error error_str
     = any_keyword [ "private"; "restricted"; "login required"; "sign in";
                     "members only"; "subscribers only"; "permission denied";
                     "access denied"; "forbidden"; "403" ] error_str
  /\ _is_network_error error_str
     = any_keyword [ "network"; "connection"; "timeout"; "timed out"; "unreachable";
                     "dns"; "socket"; "ssl"; "certificate"; "connect error";
                     "no internet" ] error_str
  /\ _is_ytdlp_update_error error_str
     = any_keyword [ "update"; "outdated"; "upgrade"; "new version"; "yt-dlp needs";
                     "extractor error" ] error_str.
Proof.
  split; [|split; [|split]].
  - apply (any_keyword_drop [] _ "video unavailable" "unavailable");
      [simpl; tauto | reflexivity].
  - unfold _is_access_denied_error, access_denied_keywords.
    etransitivity;
      [apply (any_keyword_drop ["private"; "restricted"] _ "age-restricted" "restricted");
       [simpl; tauto | reflexivity]|].
    apply (any_keyword_drop ["private"; "restricted"] _ "age restricted" "restricted");
      [simpl; tauto | reflexivity].
  - unfold _is_network_error, network_keywords.
    etransitivity;
      [apply (any_keyword_drop
                ["network"; "connection"; "timeout"; "timed out"; "unreachable"; "dns";
                 "socket"; "ssl"; "certificate"; "connect error"]
                _ "connection refused" "connection");
       [simpl; tauto | reflexivity]|].
    apply (any_keyword_drop
             ["network"; "connection"; "timeout"; "timed out"; "unreachable"; "dns";
              "socket"; "ssl"; "certificate"; "connect error"]
             _ "connection reset" "connection");
      [simpl; tauto | reflexivity].
  - apply (any_keyword_drop ["update"; "outdated"; "upgrade"; "new version"] _
             "please update" "update");
      [simpl; tauto | reflexivity].
Qed.

End ErrorHandlerMore.

(** ** progress.py: the percentage shown, and the last update *)

Section ProgressMore.
Import Progress.
Implicit Types (self : ProgressManager) (w : world).

Lemma update_downloading_percent_steps self chat_id message_id (percent : Py.val) w
    (capped clamped : Py.val) (shown : string) :
  Py.min2 (Py.VInt 100) percent = inr capped ->
  Py.max2 (Py.VInt 0) capped = inr clamped ->
  Py.format_0f clamped = inr shown ->
  update_downloading_percent self chat_id message_id percent w
  = update_progress self chat_id message_id ("Đang tải video... " +:+ shown +:+ "%") w.
Proof.
  intros H1 H2 H3. unfold update_downloading_percent, bind, lift.
  now rewrite H1, H2, H3.
Qed.

Lemma format_0f_small_int (c : Z) :
  0 <= c <= 100 -> Py.format_0f (Py.VInt c) = inr (Py.str_of_N (Z.to_N c)).
Proof.
  intros Hc.
  assert (Hall : forallb (fun k : nat =>
                   match Py.format_0f (Py.VInt (Z.of_nat k)) with
                   | inr s => String.eqb s (Py.str_of_N (N.of_nat k))
                   | inl _ => false
                   end) (seq 0 101) = true) by (vm_compute; reflexivity).
  rewrite forallb_forall in Hall. specialize (Hall (Z.to_nat c)).
  rewrite Z2Nat.id in Hall by lia.
  replace (N.of_nat (Z.to_nat c)) with (Z.to_N c) in Hall by lia.
  destruct (Py.format_0f (Py.VInt c)) as [e|s].
  - discriminate Hall. apply in_seq. lia.
  - f_equal. apply String.eqb_eq, Hall, in_seq. lia.
Qed.

Lemma round_half_even_bound (num den k : Z) :
  0 < den -> 0 <= num < k * den -> 0 <= Py.round_half_even num den <= k.
Proof.
  intros Hden Hnum. unfold Py.round_half_even.
  assert (Hq : 0 <= num / den < k).
  { split; [apply Z.div_pos; lia | apply Z.div_lt_upper_bound; nia]. }
  destruct (2 * (num mod den) ?= den); [destruct (Z.even (num / den))| |]; lia.
Qed.

(** A finite float against an int, by its numerator and denominator. *)
Lemma float_cmp_int_exact (s : bool) (m : positive) (e z : Z) :
  Py.float_cmp_int (S754_finite s m e) z
  = Some ((if s then Zneg m else Zpos m) * 2 ^ Z.max e 0 ?= z * 2 ^ Z.max (- e) 0).
Proof.
  unfold Py.float_cmp_int. destruct (Z.leb_spec 0 e) as [He|He].
  - rewrite (Z.max_l e 0), (Z.max_r (- e) 0) by lia. now rewrite Z.mul_1_r.
  - rewrite (Z.max_r e 0), (Z.max_l (- e) 0) by lia. now rewrite Z.mul_1_r.
Qed.

(** The three steps of [update_downloading_percent] on a float: what
    [min] keeps, what [max] keeps, and the text of the result. *)
Lemma shown_float (x : spec_float) :
  exists (capped clamped : Py.val) (n : N),
    Py.min2 (Py.VInt 100) (Py.VFloat x) = inr capped
    /\ Py.max2 (Py.VInt 0) capped = inr clamped
    /\ Py.format_0f clamped = inr (Py.str_of_N n)
    /\ (n <= 100)%N
    /\ MoreSpec.clamped_rounded x n.
Proof.
  destruct x as [s|s| |s m e].
  - exists (Py.VFloat (S754_zero s)), (Py.VInt 0), 0%N.
    repeat split; reflexivity || lia.
  - destruct s.
    + exists (Py.VFloat (S754_infinity true)), (Py.VInt 0), 0%N.
      repeat split; reflexivity || lia.
    + exists (Py.VInt 100), (Py.VInt 100), 100%N.
      repeat split; reflexivity || lia.
  - exists (Py.VInt 100), (Py.VInt 100), 100%N.
    repeat split; reflexivity || lia.
  - pose proof (float_cmp_int_exact s m e 100) as H100.
    pose proof (float_cmp_int_exact s m e 0) as H0.
    cbn [MoreSpec.clamped_rounded].
    set (num := (if s then Zneg m else Zpos m) * 2 ^ Z.max e 0) in *.
    set (den := 2 ^ Z.max (- e) 0) in *.
    assert (Hden : 0 < den) by (apply Z.pow_pos_nonneg; lia).
    rewrite Z.mul_0_l in H0.
    destruct (Z.compare_spec num (100 * den)) as [Heq|Hlt|Hgt].
    + exists (Py.VInt 100), (Py.VInt 100), 100%N.
      split; [unfold Py.min2, Py.lt; now rewrite H100|].
      repeat split; reflexivity || lia.
    + destruct (Z.compare_spec num 0) as [Heq0|Hlt0|Hgt0].
      * exists (Py.VFloat (S754_finite s m e)), (Py.VInt 0), 0%N.
        split; [unfold Py.min2, Py.lt; now rewrite H100|].
        split; [unfold Py.max2, Py.lt; now rewrite H0|].
        repeat split; reflexivity || lia.
      * exists (Py.VFloat (S754_finite s m e)), (Py.VInt 0), 0%N.
        split; [unfold Py.min2, Py.lt; now rewrite H100|].
        split; [unfold Py.max2, Py.lt; now rewrite H0|].
        repeat split; reflexivity || lia.
      * assert (Hs : s = false).
        { destruct s; [|reflexivity]. subst num.
          assert (0 < 2 ^ Z.max e 0) by (apply Z.pow_pos_nonneg; lia).
          pose proof (Z.mul_neg_pos (Z.neg m) (2 ^ Z.max e 0) ltac:(lia) ltac:(lia)). lia. }
        subst s.
        assert (Hscaled : 0 <= Py.scaled_digits 0 m e
                          /\ SenderSpec.nearest (Py.scaled_digits 0 m e) num den).
        { unfold Py.scaled_digits. change (10 ^ Z.of_nat 0) with 1. rewrite Z.mul_1_r.
          subst num den. destruct (Z.leb_spec 0 e) as [He|He].
          - rewrite (Z.max_l e 0), (Z.max_r (- e) 0) by lia.
            assert (0 < 2 ^ e) by (apply Z.pow_pos_nonneg; lia).
            split; [lia|]. unfold SenderSpec.nearest. simpl (2 ^ 0).
            rewrite Z.mul_1_r, Z.sub_diag. simpl. lia.
          - rewrite (Z.max_r e 0), (Z.max_l (- e) 0) by lia.
            simpl (2 ^ 0). rewrite Z.mul_1_r.
            assert (0 < 2 ^ (- e)) by (apply Z.pow_pos_nonneg; lia).
            split; [apply round_half_even_nonneg; lia|].
            apply round_half_even_nearest. lia. }
        destruct Hscaled as [Hpos Hnear].
        exists (Py.VFloat (S754_finite false m e)), (Py.VFloat (S754_finite false m e)),
          (Z.to_N (Py.scaled_digits 0 m e)).
        split; [unfold Py.min2, Py.lt; now rewrite H100|].
        split; [unfold Py.max2, Py.lt; now rewrite H0|].
        split.
        { simpl. change (10 ^ N.of_nat 0)%N with 1%N. rewrite N.div_1_r.
          now rewrite append_nil_l, append_empty_r. }
        assert (Hle : Py.scaled_digits 0 m e <= 100).
        { destruct Hnear as [Hnear _].
          destruct (Z.le_gt_cases (Py.scaled_digits 0 m e) 100) as [H|H]; [exact H|].
          assert (101 * den <= Py.scaled_digits 0 m e * den)
            by (apply Z.mul_le_mono_nonneg_r; lia).
          lia. }
        split; [lia|]. rewrite Z2N.id by exact Hpos.
        split; [lia | split; [lia | intros _; exact Hnear]].
    + exists (Py.VInt 100), (Py.VInt 100), 100%N.
      split; [unfold Py.min2, Py.lt; now rewrite H100|].
      repeat split; reflexivity || lia.
Qed.

(** [update_downloading_percent] never raises on a number and shows a
    whole percentage from 0 to 100.  An int is clamped to that range.  A
    float is clamped to it and then rounded to the nearest whole number,
    the even one at a tie: a float [num / den] below 0 shows 0, one
    above 100 shows 100, and one between them shows the whole number
    nearest to [num / den]; a NaN is shown as 100.  The text goes out
    through [update_progress], so that each call makes one
    [edit_message_text] and answers whether the transport accepted it. *)
Theorem update_downloading_percent_range self chat_id message_id w :
  (forall z : Z,
     update_downloading_percent self chat_id message_id (Py.VInt z) w
     = update_progress self chat_id message_id
         ("Đang tải video... " +:+ Py.str_of_N (Z.to_N (Z.max 0 (Z.min 100 z))) +:+ "%") w)
  /\ (forall x : spec_float, exists n : N,
        (n <= 100)%N
        /\ MoreSpec.clamped_rounded x n
        /\ update_downloading_percent self chat_id message_id (Py.VFloat x) w
           = update_progress self chat_id message_id
               ("Đang tải video... " +:+ Py.str_of_N n +:+ "%") w)
  /\ update_downloading_percent self chat_id message_id (Py.VFloat S754_nan) w
     = update_progress self chat_id message_id "Đang tải video... 100%" w
  /\ (forall percent, (exists z, percent = Py.VInt z) \/ (exists x, percent = Py.VFloat x) ->
        exists answer : bool,
          outcome (update_downloading_percent self chat_id message_id percent) w
          = inr answer).
Proof.
  assert (Hint : forall z : Z,
     update_downloading_percent self chat_id message_id (Py.VInt z) w
     = update_progress self chat_id message_id
         ("Đang tải video... " +:+ Py.str_of_N (Z.to_N (Z.max 0 (Z.min 100 z))) +:+ "%") w).
  { intros z.
    apply (update_downloading_percent_steps _ _ _ _ _
             (Py.VInt (Z.min 100 z)) (Py.VInt (Z.max 0 (Z.min 100 z)))).
    - unfold Py.min2, Py.lt. destruct (Z.ltb_spec z 100); do 2 f_equal; lia.
    - unfold Py.max2, Py.lt. destruct (Z.ltb_spec 0 (Z.min 100 z)); do 2 f_equal; lia.
    - apply format_0f_small_int. lia. }
  assert (Hfloat : forall x : spec_float, exists n : N,
        (n <= 100)%N
        /\ MoreSpec.clamped_rounded x n
        /\ update_downloading_percent self chat_id message_id (Py.VFloat x) w
           = update_progress self chat_id message_id
               ("Đang tải video... " +:+ Py.str_of_N n +:+ "%") w).
  { intros x. destruct (shown_float x) as (capped & clamped & n & H1 & H2 & H3 & Hn & Hspec).
    exists n. split; [exact Hn | split; [exact Hspec|]].
    exact (update_downloading_percent_steps _ _ _ _ _ _ _ _ H1 H2 H3). }
  assert (Htotal : forall text, exists answer : bool,
            outcome (update_progress self chat_id message_id text) w = inr answer).
  { intros text. pose proof (update_progress_total self chat_id message_id text w) as H.
    destruct (edit_message_text_result (bot self) chat_id message_id text).
    - exists false. tauto.
    - exists true. exact H. }
  split; [exact Hint | split; [exact Hfloat | split]].
  - exact (update_downloading_percent_steps self chat_id message_id (Py.VFloat S754_nan) w
             (Py.VInt 100) (Py.VInt 100) "100" eq_refl eq_refl eq_refl).
  - intros percent [[z ->] | [x ->]]; unfold outcome.
    + rewrite Hint. apply Htotal.
    + destruct (Hfloat x) as (n & _ & _ & ->). apply Htotal.
Qed.

(** What is not a number is refused before anything is sent: [None] and
    a string make [min] raise a TypeError, which comes out of
    [update_downloading_percent] (unlike the failures of the transport),
    with no call made and nothing logged. *)
Theorem update_downloading_percent_rejects self chat_id message_id (percent : Py.val) w :
  percent = Py.VNone \/ (exists s, percent = Py.VStr s) ->
  exists msg,
    update_downloading_percent self chat_id message_id percent w
    = (inl (Py.Exn "TypeError" msg), w).
Proof.
  intros [-> | [s ->]]; eexists; reflexivity.
Qed.

(** [finalize_progress] never raises and makes exactly one call on the
    transport: it deletes the status message when asked to, and edits it
    otherwise, to the given text, or to "Hoàn tất!" when no text or an
    empty one is given.  It answers whether the transport accepted the
    call. *)
Theorem finalize_progress_call self chat_id message_id (delete : bool)
    (final_text : option string) w :
  let text := match final_text with
              | Some t => if String.eqb t EmptyString then "Hoàn tất!" else t
              | None => "Hoàn tất!"
              end in
  let request := if delete then DeleteMessage chat_id message_id
                 else EditMessageText chat_id message_id text in
  let reply := if delete then delete_message_result (bot self) chat_id message_id
               else edit_message_text_result (bot self) chat_id message_id text in
  outcome (finalize_progress self chat_id message_id delete final_text) w
  = inr (match reply with inr _ => true | inl _ => false end)
  /\ w_calls (after (finalize_progress self chat_id message_id delete final_text) w)
     = (w_calls w ++ [request])%list
  /\ w_fs (after (finalize_progress self chat_id message_id delete final_text) w) = w_fs w.
Proof.
  intros text request reply. subst text request reply.
  unfold finalize_progress. destruct delete.
  - unfold outcome, after, delete_progress, try_except, bind, Transport.delete_message,
      bind, record_call, lift, log, ret.
    destruct (delete_message_result (bot self) chat_id message_id) as [e|[]]; simpl; auto.
  - unfold outcome, after, update_progress, try_except, bind, Transport.edit_message_text,
      bind, record_call, lift, log, ret.
    destruct (edit_message_text_result (bot self) chat_id message_id _) as [e|[]];
      simpl; auto.
Qed.

End ProgressMore.

Section ProgressCalls.
Import Progress.
Implicit Types (self : ProgressManager) (w : world).

(** Every operation on the status message makes exactly one call on the
    transport, with the chat, the message and the text it was given,
    whether the transport accepts it or raises, and none of them touches
    a file.  [send_downloading] sends "Đang tải video..." and
    [update_sending] edits to "Đang gửi video...". *)
Theorem status_message_one_call self chat_id message_id text w :
  (w_calls (after (send_progress self chat_id text) w)
   = (w_calls w ++ [SendMessage chat_id text])%list
   /\ w_fs (after (send_progress self chat_id text) w) = w_fs w)
  /\ (w_calls (after (update_progress self chat_id message_id text) w)
      = (w_calls w ++ [EditMessageText chat_id message_id text])%list
      /\ w_fs (after (update_progress self chat_id message_id text) w) = w_fs w)
  /\ (w_calls (after (delete_progress self chat_id message_id) w)
      = (w_calls w ++ [DeleteMessage chat_id message_id])%list
      /\ w_fs (after (delete_progress self chat_id message_id) w) = w_fs w)
  /\ w_calls (after (send_downloading self chat_id) w)
     = (w_calls w ++ [SendMessage chat_id "Đang tải video..."])%list
  /\ w_calls (after (update_sending self chat_id message_id) w)
     = (w_calls w ++ [EditMessageText chat_id message_id "Đang gửi video..."])%list.
Proof.
  assert (Hsend : forall t,
    w_calls (after (send_progress self chat_id t) w)
    = (w_calls w ++ [SendMessage chat_id t])%list
    /\ w_fs (after (send_progress self chat_id t) w) = w_fs w).
  { intros t. unfold after, send_progress, bind, Transport.send_message, bind, record_call,
      lift, log, ret.
    destruct (send_message_result (bot self) chat_id t); simpl; auto. }
  assert (Hedit : forall t,
    w_calls (after (update_progress self chat_id message_id t) w)
    = (w_calls w ++ [EditMessageText chat_id message_id t])%list
    /\ w_fs (after (update_progress self chat_id message_id t) w) = w_fs w).
  { intros t. unfold after, update_progress, try_except, bind, Transport.edit_message_text,
      bind, record_call, lift, log, ret.
    destruct (edit_message_text_result (bot self) chat_id message_id t) as [e|[]];
      simpl; auto. }
  split; [apply Hsend | split; [apply Hedit | split; [|split]]].
  - unfold after, delete_progress, try_except, bind, Transport.delete_message, bind,
      record_call, lift, log, ret.
    destruct (delete_message_result (bot self) chat_id message_id) as [e|[]]; simpl; auto.
  - apply Hsend.
  - apply Hedit.
Qed.

End ProgressCalls.

Lemma update_downloading_percent_range_witness :
  exists answer : bool,
    outcome (Progress.update_downloading_percent
               {| Progress.bot := ProgressSpec.refusing_bot |} 7 42 (Py.VInt 250))
      empty_world
    = inr answer.
Proof.
  apply (proj2 (proj2 (proj2 (update_downloading_percent_range
                                {| Progress.bot := ProgressSpec.refusing_bot |} 7 42
                                empty_world)))).
  left. exists 250. reflexivity.
Defined.

Lemma update_downloading_percent_rejects_witness :
  exists msg,
    Progress.update_downloading_percent {| Progress.bot := ProgressSpec.willing_bot |} 7 42
      Py.VNone empty_world
    = (inl (Py.Exn "TypeError" msg), empty_world).
Proof.
  apply (update_downloading_percent_rejects {| Progress.bot := ProgressSpec.willing_bot |}
           7 42 Py.VNone empty_world).
  left. reflexivity.
Defined.

(** ** auth.py: a handler wrapped twice *)

Section AuthMore.
Import Auth.
Context {payload context : Type}.

(** Wrapping a handler twice for the same owner is wrapping it once;
    wrapping it for two different owners gives a handler that never
    runs: it answers [None] on every update and leaves the world as it
    was. *)
Theorem auth_decorator_twice (owner1 owner2 : Z) (func : @handler payload context)
    (update : Update payload) (ctx : context) (w : world) :
  auth_decorator owner1 (auth_decorator owner2 func) update ctx w
  = if owner1 =? owner2 then auth_decorator owner1 func update ctx w
    else (inr Py.VNone, w).
Proof.
  unfold auth_decorator, is_authorized.
  destruct (effective_user update) as [user|]; [|now destruct (owner1 =? owner2)].
  destruct (Z.eqb_spec (id user) owner1) as [H1|H1];
    destruct (Z.eqb_spec (id user) owner2) as [H2|H2];
    destruct (Z.eqb_spec owner1 owner2) as [H|H]; simpl; try reflexivity; lia.
Qed.

End AuthMore.

(** ** downloader.py and sender.py: from the download to the delivery *)

Section Pipeline.
Import Models Downloader Sender.

Variable ydl_download : ydl_opts -> list string -> M unit.
Variable uuid4 : string.

Lemma getsize_value (path : string) (size : Z) (w w' : world) :
  Os.getsize path w = (inr size, w') ->
  w' = w /\ getsize_fault (w_faults w) path = None
  /\ exists n, w_fs w !! path = Some n /\ size = Z.of_N (node_size n).
Proof.
  unfold Os.getsize. destruct (getsize_fault (w_faults w) path); [discriminate|].
  destruct (w_fs w !! path) as [n|]; [|discriminate].
  intros [= <- <-]. eauto.
Qed.

Lemma probe_extensions_value (base_path : string) (exts : list string) (r : DownloadResult)
    (w w' : world) :
  probe_extensions base_path exts w = (inr r, w') -> success r = true ->
  w' = w /\ exists path n,
    file_path r = Some path /\ w_fs w !! path = Some n
    /\ getsize_fault (w_faults w) path = None /\ file_size r = Z.of_N (node_size n).
Proof.
  induction exts as [|ext rest IH]; intros H Hs.
  - injection H as <- <-. discriminate Hs.
  - rewrite probe_step in H. destruct (w_fs w !! (base_path +:+ ext)) as [n|] eqn:Hn.
    + destruct (getsize_fault (w_faults w) (base_path +:+ ext)) eqn:Hg; [discriminate|].
      injection H as <- <-. split; [reflexivity|]. exists (base_path +:+ ext), n. auto.
    + exact (IH H Hs).
Qed.

(** A success of [download_video] names a path that exists and whose
    size was read, in the world the call leaves. *)
Lemma download_success_readable (url dir : string) (max_size : Z) (cb : option callback)
    (r : DownloadResult) (w w1 : world) :
  download_video ydl_download uuid4 url dir max_size cb w = (inr r, w1) ->
  success r = true ->
  exists path n,
    file_path r = Some path /\ w_fs w1 !! path = Some n
    /\ getsize_fault (w_faults w1) path = None /\ file_size r = Z.of_N (node_size n).
Proof.
  unfold download_video.
  match goal with |- context [try_except (bind ?m ?k) ?h] =>
    set (engine := m); set (rest := k); set (handler := h)
  end.
  intros H Hs. destruct (engine w) as [[e|[]] w0] eqn:He.
  - rewrite (try_except_raises _ _ _ _ _ (bind_raises _ _ _ _ _ He)) in H.
    subst handler. cbv beta in H. rewrite handler_fails in H.
    injection H as <- <-. discriminate Hs.
  - assert (Hrun : bind engine rest w = rest tt w0) by (apply bind_value, He).
    destruct (rest tt w0) as [[e|r'] w2] eqn:Hrest.
    + rewrite (try_except_raises _ _ _ _ _ Hrun) in H.
      subst handler. cbv beta in H. rewrite handler_fails in H.
      injection H as <- <-. discriminate Hs.
    + rewrite (try_except_value _ _ _ _ _ Hrun) in H. injection H as -> ->.
      subst rest. cbv beta in Hrest.
      set (output_path := Os.path_join dir (uuid4 +:+ ".mp4")) in *.
      destruct (w_fs w0 !! output_path) as [n|] eqn:Hn.
      * rewrite (bind_value _ _ _ _ _ (path_exists_present _ _ _ Hn)) in Hrest.
        destruct (Os.getsize output_path w0) as [[e|size] w3] eqn:Hsize.
        -- rewrite (bind_raises _ _ _ _ _ Hsize) in Hrest. discriminate.
        -- rewrite (bind_value _ _ _ _ _ Hsize) in Hrest. injection Hrest as <- <-.
           destruct (getsize_value _ _ _ _ Hsize) as (-> & Hg & n' & Hn' & ->).
           exists output_path, n'. auto.
      * rewrite (bind_value _ _ _ _ _ (path_exists_absent _ _ Hn)) in Hrest.
        destruct (probe_extensions_value _ _ _ _ _ Hrest Hs) as (-> & Hfound).
        exact Hfound.
Qed.

(** What the two blocks of [send_video] can answer about a path that
    exists and whose size can be read. *)
Lemma attempt_on_readable bot chat_id file_path max_size w (n : node) :
  w_fs w !! file_path = Some n ->
  getsize_fault (w_faults w) file_path = None ->
  let answer := outcome (try_except (send_video_try bot chat_id file_path max_size)
                           send_video_except) w in
  answer = inr (true, None)
  \/ (exists e, answer = inr (false, Some ("Lỗi khi gửi video: " +:+ Py.exn_msg e)))
  \/ (exists size_mb max_mb, answer = inr (false, Some (too_large_msg size_mb max_mb))).
Proof.
  intros Hn Hg answer. subst answer. unfold outcome, try_except.
  destruct (Z.ltb_spec max_size (Z.of_N (node_size n))) as [Hlt|Hle].
  - assert (Htry : send_video_try bot chat_id file_path max_size w
      = match Py.int_truediv (Z.of_N (node_size n)) (1024 * 1024),
              Py.int_truediv max_size (1024 * 1024) with
        | inl e, _ => (inl e, w)
        | inr _, inl e => (inl e, w)
        | inr size_mb, inr max_mb =>
            (inr (false, Some (too_large_msg size_mb max_mb)),
             after (log WARNING ("File quá lớn: " +:+ file_path +:+ " ("
                                 +:+ Py.format_f 1 size_mb +:+ "MB)")) w)
        end).
    { unfold send_video_try.
      rewrite (bind_value _ _ _ _ _ (path_exists_present _ _ _ Hn)). cbn [negb].
      rewrite (bind_value _ _ _ _ _ (get_file_size_of_file _ _ _ Hn Hg)).
      destruct (Z.ltb_spec (Z.of_N (node_size n)) 0) as [Hneg|_]; [lia|].
      rewrite (proj2 (Z.ltb_lt _ _) Hlt).
      destruct (Py.int_truediv (Z.of_N (node_size n)) (1024 * 1024)) as [e1|size_mb];
        [reflexivity|].
      destruct (Py.int_truediv max_size (1024 * 1024)) as [e2|max_mb]; reflexivity. }
    rewrite Htry.
    destruct (Py.int_truediv (Z.of_N (node_size n)) (1024 * 1024)) as [e1|size_mb];
      [right; left; exists e1; reflexivity|].
    destruct (Py.int_truediv max_size (1024 * 1024)) as [e2|max_mb];
      [right; left; exists e2; reflexivity|].
    right. right. exists size_mb, max_mb. reflexivity.
  - rewrite (send_video_try_fits _ _ _ _ _ _ Hn Hg Hle).
    destruct (Py.int_truediv (Z.of_N (node_size n)) (1024 * 1024)) as [e|mb];
      [right; left; exists e; reflexivity|].
    destruct (open_fault (w_faults w) file_path) as [e|];
      [right; left; exists e; reflexivity|].
    destruct n as [size|size]; [|right; left; eexists; reflexivity].
    destruct (send_video_result bot chat_id file_path) as [e|u];
      [right; left; exists e; reflexivity | left; reflexivity].
Qed.

(** The download hands over to the delivery what the delivery checks.
    After a successful [download_video], and whatever was logged or said
    on the transport in between, the path of the result exists for
    [send_video]: the size [get_file_size] reads is the [file_size] of the
    result, the size check is [file_size <= max_size], a result larger
    than the ceiling is refused with no call on the transport, and
    [send_video] never answers that the file is missing or that its size
    cannot be read. *)
Theorem download_then_send (url dir : string) (dl_max : Z) (cb : option callback)
    (r : DownloadResult) (w w1 w2 : world) (bot : Bot) (chat_id max_size : Z) :
  download_video ydl_download uuid4 url dir dl_max cb w = (inr r, w1) ->
  success r = true ->
  w_fs w2 = w_fs w1 -> w_faults w2 = w_faults w1 ->
  exists path,
    file_path r = Some path
    /\ get_file_size path w2 = (inr (file_size r), w2)
    /\ is_file_size_valid path max_size w2 = (inr (file_size r <=? max_size), w2)
    /\ (max_size < file_size r ->
          w_calls (after (send_video bot chat_id path max_size) w2) = w_calls w2
          /\ exists msg,
               outcome (send_video bot chat_id path max_size) w2 = inr (false, Some msg))
    /\ outcome (send_video bot chat_id path max_size) w2
       <> inr (false, Some "File video không tồn tại")
    /\ outcome (send_video bot chat_id path max_size) w2
       <> inr (false, Some "Không thể đọc kích thước file").
Proof.
  intros Hrun Hs Hfs Hfaults.
  destruct (download_success_readable _ _ _ _ _ _ _ Hrun Hs) as (path & n & Hp & Hn & Hg & Hsize).
  rewrite <- Hfs in Hn. rewrite <- Hfaults in Hg.
  exists path. rewrite Hsize.
  split; [exact Hp|].
  split; [exact (get_file_size_of_file _ _ _ Hn Hg)|].
  split; [exact (is_file_size_valid_of_file _ _ _ _ Hn Hg)|].
  destruct (send_video_of_attempt bot chat_id path max_size w2) as (Hout & Hcalls).
  cbv zeta in Hout, Hcalls. rewrite Hout, Hcalls.
  split.
  - intros Hlt.
    destruct (attempt_too_large bot chat_id path max_size w2 n Hn Hg Hlt) as (Hc & Hmsg & _).
    split; [exact Hc | exact Hmsg].
  - pose proof (attempt_on_readable bot chat_id path max_size w2 n Hn Hg) as Hans.
    cbv zeta in Hans.
    split; intros Heq; rewrite Heq in Hans;
      destruct Hans as [H | [[e H] | (a & b & H)]];
      try discriminate H; injection H as H;
      apply (f_equal (String.get 0)) in H; lazy in H; discriminate H.
Qed.

(** The first candidate that exists decides, also when its size cannot
    be read: with the engine returned and nothing at the candidates
    before it, an existing candidate whose [getsize] raises makes the
    result the failure that carries the error, and no later candidate is
    looked at. *)
Theorem download_video_unreadable (url dir : string) (max_size : Z) (cb : option callback)
    (w w1 : world) (i : nat) (ext : string) (n : node) (e : Py.exn) :
  ydl_download (get_yt_dlp_options (Os.path_join dir (uuid4 +:+ ".mp4")) max_size cb)
    [url] w = (inr tt, w1) ->
  let at_ (x : string) := Os.path_join dir (uuid4 +:+ x) in
  [".mp4"; ".mkv"; ".webm"; ".m4a"] !! i = Some ext ->
  (forall (j : nat) x, (j < i)%nat -> [".mp4"; ".mkv"; ".webm"; ".m4a"] !! j = Some x ->
     w_fs w1 !! at_ x = None) ->
  w_fs w1 !! at_ ext = Some n ->
  getsize_fault (w_faults w1) (at_ ext) = Some e ->
  download_video ydl_download uuid4 url dir max_size cb w
  = (inr (failed (Py.exn_msg e)), w1).
Proof.
  intros Hengine at_ Hi Hbefore Hn Hg. subst at_. cbv beta in *.
  unfold download_video.
  assert (Hfail : forall m : M DownloadResult, m w1 = (inl e, w1) ->
    try_except (ydl_download
                  (get_yt_dlp_options (Os.path_join dir (uuid4 +:+ ".mp4")) max_size cb)
                  [url] ;;; m)
      (fun e0 => if String.eqb (Py.exn_type e0) "DownloadError"
                 then ret (failed (Py.exn_msg e0)) else ret (failed (Py.exn_msg e0))) w
    = (inr (failed (Py.exn_msg e)), w1)).
  { intros m Hm.
    rewrite (try_except_raises _ _ w w1 e).
    - apply handler_fails.
    - now rewrite (bind_value _ _ _ _ _ Hengine). }
  apply Hfail.
  destruct i as [|i].
  - injection Hi as <-.
    rewrite (bind_value _ _ _ _ _ (path_exists_present _ _ _ Hn)).
    unfold bind, Os.getsize. now rewrite Hg.
  - pose proof (Hbefore 0%nat ".mp4" ltac:(lia) eq_refl) as H0.
    rewrite (bind_value _ _ _ _ _ (path_exists_absent _ _ H0)).
    rewrite probe_step, base_path_ext, H0.
    destruct i as [|i].
    { injection Hi as <-. now rewrite probe_step, base_path_ext, Hn, Hg. }
    pose proof (Hbefore 1%nat ".mkv" ltac:(lia) eq_refl) as H1.
    rewrite probe_step, base_path_ext, H1.
    destruct i as [|i].
    { injection Hi as <-. now rewrite probe_step, base_path_ext, Hn, Hg. }
    pose proof (Hbefore 2%nat ".webm" ltac:(lia) eq_refl) as H2.
    rewrite probe_step, base_path_ext, H2.
    destruct i as [|i]; [|discriminate Hi].
    injection Hi as <-. now rewrite probe_step, base_path_ext, Hn, Hg.
Qed.

End Pipeline.

Lemma download_then_send_witness :
  outcome (Sender.send_video ProgressSpec.willing_bot 7
             "/tmp/12345678-1234-5678-1234-567812345678.mp4" (50 * 1024 * 1024))
    (after (Downloader.download_video DownloaderSpec.working_engine
              DownloaderSpec.sample_uuid "https://youtu.be/abc" "/tmp" (50 * 1024 * 1024)
              None) empty_world)
  <> inr (false, Some "File video không tồn tại").
Proof.
  destruct (download_then_send DownloaderSpec.working_engine DownloaderSpec.sample_uuid
              "https://youtu.be/abc" "/tmp" (50 * 1024 * 1024) None
              (Downloader.succeeded "/tmp/12345678-1234-5678-1234-567812345678.mp4"
                 (10 * 1024 * 1024))
              empty_world
              (after (Downloader.download_video DownloaderSpec.working_engine
                        DownloaderSpec.sample_uuid "https://youtu.be/abc" "/tmp"
                        (50 * 1024 * 1024) None) empty_world)
              (after (Downloader.download_video DownloaderSpec.working_engine
                        DownloaderSpec.sample_uuid "https://youtu.be/abc" "/tmp"
                        (50 * 1024 * 1024) None) empty_world)
              ProgressSpec.willing_bot 7 (50 * 1024 * 1024)
              eq_refl eq_refl eq_refl eq_refl)
    as (path & Hp & _ & _ & _ & Hne & _).
  injection Hp as <-. exact Hne.
Defined.

Lemma download_video_unreadable_witness :
  exists w1,
    Downloader.download_video DownloaderSpec.working_engine DownloaderSpec.sample_uuid
      "https://youtu.be/abc" "/tmp" (50 * 1024 * 1024) None SenderSpec.unreadable_world
    = (inr (Downloader.failed
              "[Errno 5] Input/output error: '/tmp/12345678-1234-5678-1234-567812345678.mp4'"),
       w1).
Proof.
  eexists.
  eapply (download_video_unreadable DownloaderSpec.working_engine DownloaderSpec.sample_uuid
            "https://youtu.be/abc" "/tmp" (50 * 1024 * 1024) None SenderSpec.unreadable_world
            _ 0 ".mp4" (File (10 * 1024 * 1024))
            (Py.Exn "OSError"
               "[Errno 5] Input/output error: '/tmp/12345678-1234-5678-1234-567812345678.mp4'")).
  - reflexivity.
  - reflexivity.
  - intros j x Hj. lia.
  - reflexivity.
  - reflexivity.
Defined.

(** ** downloader.py, error_handler.py and bot.py: what a failed download is called *)

Section Reports.
Import Models Downloader ErrorHandler ErrorSpec MoreSpec.

Variable ydl_download : ydl_opts -> list string -> M unit.
Variable uuid4 : string.
Variable db : Py.unicode.

Lemma get_user_friendly_error_outcome (error : Py.exn) (w : world) :
  outcome (get_user_friendly_error db error) w
  = inr (get_error_message (first_group (lower db (Py.exn_msg error)))).
Proof.
  pose proof (map_ytdlp_error_outcome db error w) as H.
  unfold outcome, get_user_friendly_error, bind in *.
  destruct (map_ytdlp_error db error w) as [[e|k] w']; simpl in H; [discriminate|].
  injection H as ->. reflexivity.
Qed.

Lemma download_video_engine_raises (url dir : string) (max_size : Z) (cb : option callback)
    (w w1 : world) (e : Py.exn) :
  ydl_download (get_yt_dlp_options (Os.path_join dir (uuid4 +:+ ".mp4")) max_size cb)
    [url] w = (inl e, w1) ->
  download_video ydl_download uuid4 url dir max_size cb w
  = (inr (failed (Py.exn_msg e)), w1).
Proof.
  intros He. unfold download_video.
  erewrite try_except_raises by (apply bind_raises; exact He).
  apply handler_fails.
Qed.

Lemma download_video_no_candidate (url dir : string) (max_size : Z) (cb : option callback)
    (w w1 : world) :
  ydl_download (get_yt_dlp_options (Os.path_join dir (uuid4 +:+ ".mp4")) max_size cb)
    [url] w = (inr tt, w1) ->
  (forall ext, In ext [".mp4"; ".mkv"; ".webm"; ".m4a"] ->
     w_fs w1 !! Os.path_join dir (uuid4 +:+ ext) = None) ->
  download_video ydl_download uuid4 url dir max_size cb w
  = (inr (failed "File không được tạo sau khi tải"), w1).
Proof.
  intros Hengine Hnone. unfold download_video. apply try_except_value.
  rewrite (bind_value _ _ _ _ _ Hengine).
  rewrite (bind_value _ _ _ _ _ (path_exists_absent _ _ (Hnone ".mp4" ltac:(simpl; tauto)))).
  rewrite probe_step, base_path_ext, (Hnone ".mp4") by (simpl; tauto).
  rewrite probe_step, base_path_ext, (Hnone ".mkv") by (simpl; tauto).
  rewrite probe_step, base_path_ext, (Hnone ".webm") by (simpl; tauto).
  rewrite probe_step, base_path_ext, (Hnone ".m4a") by (simpl; tauto).
  reflexivity.
Qed.

(** What the user is told about a failed download.  When the engine
    raises, the text [handle_message] gets for the failed result is the
    text [get_user_friendly_error] gives for the engine's own exception:
    nothing of the classification is lost on the way through
    [DownloadResult], an empty error text included.  When the engine
    returns and has written no file, the text is that of UNKNOWN_ERROR,
    "Lỗi không xác định" (the accented letters of the message of
    [download_video] are lower case already, and the Unicode database is
    taken to leave them as they are). *)
Theorem failed_download_report (url dir : string) (max_size : Z) (cb : option callback)
    (w w2 : world) :
  (forall e w1,
     ydl_download (get_yt_dlp_options (Os.path_join dir (uuid4 +:+ ".mp4")) max_size cb)
       [url] w = (inl e, w1) ->
     exists r,
       download_video ydl_download uuid4 url dir max_size cb w = (inr r, w1)
       /\ success r = false
       /\ outcome (get_user_friendly_error db (reported_error r)) w2
          = outcome (get_user_friendly_error db e) w2)
  /\ (forall w1,
        ydl_download (get_yt_dlp_options (Os.path_join dir (uuid4 +:+ ".mp4")) max_size cb)
          [url] w = (inr tt, w1) ->
        (forall ext, In ext [".mp4"; ".mkv"; ".webm"; ".m4a"] ->
           w_fs w1 !! Os.path_join dir (uuid4 +:+ ext) = None) ->
        lower db "File không được tạo sau khi tải" = "file không được tạo sau khi tải" ->
        exists r,
          download_video ydl_download uuid4 url dir max_size cb w = (inr r, w1)
          /\ success r = false
          /\ outcome (get_user_friendly_error db (reported_error r)) w2
             = inr "Lỗi không xác định").
Proof.
  split.
  - intros e w1 He. exists (failed (Py.exn_msg e)).
    split; [exact (download_video_engine_raises _ _ _ _ _ _ _ He) | split; [reflexivity|]].
    rewrite !get_user_friendly_error_outcome. unfold reported_error. simpl.
    destruct (String.eqb_spec (Py.exn_msg e) EmptyString) as [Hempty|_]; [|reflexivity].
    rewrite Hempty. now rewrite !lower_ascii.
  - intros w1 Hengine Hnone Hlower. exists (failed "File không được tạo sau khi tải").
    split; [exact (download_video_no_candidate _ _ _ _ _ _ Hengine Hnone)
           | split; [reflexivity|]].
    rewrite get_user_friendly_error_outcome.
    change (Py.exn_msg (reported_error (failed "File không được tạo sau khi tải")))
      with "File không được tạo sau khi tải".
    rewrite Hlower. vm_compute. reflexivity.
Qed.

End Reports.

Lemma failed_download_report_witness :
  (exists r,
     Downloader.download_video DownloaderSpec.failing_engine DownloaderSpec.sample_uuid
       "https://youtu.be/abc" "/tmp" (50 * 1024 * 1024) None empty_world
     = (inr r, empty_world)
     /\ Models.success r = false
     /\ outcome (ErrorHandler.get_user_friendly_error SampleUnicode.db
                   (MoreSpec.reported_error r)) empty_world
        = outcome (ErrorHandler.get_user_friendly_error SampleUnicode.db
                     (Py.Exn "DownloadError" "ERROR: Video unavailable")) empty_world)
  /\ (exists r,
        Downloader.download_video MoreSpec.idle_engine DownloaderSpec.sample_uuid
          "https://youtu.be/abc" "/tmp" (50 * 1024 * 1024) None empty_world
        = (inr r, empty_world)
        /\ Models.success r = false
        /\ outcome (ErrorHandler.get_user_friendly_error SampleUnicode.db
                      (MoreSpec.reported_error r)) empty_world
           = inr "Lỗi không xác định").
Proof.
  split.
  - apply (proj1 (failed_download_report DownloaderSpec.failing_engine
                    DownloaderSpec.sample_uuid SampleUnicode.db "https://youtu.be/abc" "/tmp"
                    (50 * 1024 * 1024) None empty_world empty_world)).
    reflexivity.
  - apply (proj2 (failed_download_report MoreSpec.idle_engine
                    DownloaderSpec.sample_uuid SampleUnicode.db "https://youtu.be/abc" "/tmp"
                    (50 * 1024 * 1024) None empty_world empty_world)).
    + reflexivity.
    + intros ext _. reflexivity.
    + vm_compute. reflexivity.
Defined.

(** ** downloader.py: the range of the percentage *)

Section ProgressRange.
Import Downloader DownloaderSpec MoreSpec.
Implicit Types (d : gmap string Py.val) (cb : callback) (w : world).

Lemma binary_round_aux_plus (mx ex : Z) (lx : location) :
  0 <= mx -> plus_signed (binary_round_aux Py.prec Py.emax false mx ex lx) = true.
Proof.
  intros H. unfold binary_round_aux.
  pose proof (shr_fexp_nonneg mx ex lx H) as H1.
  destruct (shr_fexp Py.prec Py.emax mx ex lx) as [mrs' e']. simpl in H1.
  pose proof (shr_fexp_nonneg _ e' loc_Exact
                (round_nearest_even_nonneg _ (loc_of_shr_record mrs') H1)) as H2.
  destruct (shr_fexp Py.prec Py.emax _ e' loc_Exact) as [mrs'' e'']. simpl in H2.
  destruct (shr_m mrs'') as [|p|p]; [reflexivity | | lia].
  destruct (e'' <=? Py.emax - Py.prec); reflexivity.
Qed.

Lemma div_plus (mx my : positive) (ex ey : Z) :
  plus_signed (SFdiv Py.prec Py.emax (S754_finite false mx ex) (S754_finite false my ey))
  = true.
Proof.
  unfold SFdiv, SFdiv_core_binary.
  set (s := _ - _ - Z.min _ _).
  set (m' := match s with Z0 => Zpos mx | Zpos _ => Z.shiftl (Zpos mx) s | Zneg _ => 0 end).
  assert (Hm' : 0 <= m').
  { subst m'. destruct s; try lia. apply Z.shiftl_nonneg. lia. }
  pose proof (Z.div_pos m' (Zpos my) Hm' eq_refl) as Hq.
  unfold Z.div in Hq. destruct (Z.div_eucl m' (Zpos my)) as [q r].
  apply binary_round_aux_plus, Hq.
Qed.

Lemma float_of_Z_plus (a : Z) : 0 <= a -> plus_signed (Py.float_of_Z a) = true.
Proof.
  intros H. unfold Py.float_of_Z, binary_normalize.
  destruct a as [|p|p]; [reflexivity | | lia].
  unfold binary_round. destruct (shl_align _ _ _) as [mz ez].
  apply binary_round_aux_plus. lia.
Qed.

(** A float that [> 0] accepts is finite or infinite, with the sign [+]. *)
Lemma gt_zero_float (y : spec_float) :
  SFltb (S754_zero false) y = true ->
  (exists m e, y = S754_finite false m e) \/ y = S754_infinity false.
Proof.
  destruct y as [s|s| |s m e]; try discriminate.
  - destruct s; [discriminate|]. auto.
  - destruct s; [discriminate|]. eauto.
Qed.

(** The quotient of a count that is not negative by a positive total. *)
Lemma truediv_plus (a : Z) (t : Py.val) (ratio : spec_float) :
  0 <= a -> Py.gt_zero t = inr true -> Py.truediv (Py.VInt a) t = inr ratio ->
  plus_signed ratio = true.
Proof.
  intros Ha Ht Hr. destruct t as [|b|y|]; try discriminate.
  - injection Ht as Hb. apply Z.ltb_lt in Hb. simpl in Hr. unfold Py.int_truediv in Hr.
    destruct (b =? 0); [discriminate|].
    destruct (Z.eqb_spec a 0) as [->|Hne].
    + injection Hr as <-. simpl. destruct (Z.ltb_spec b 0); [lia | reflexivity].
    + destruct (Z.ltb_spec a 0); [lia|]. destruct (Z.ltb_spec b 0); [lia|].
      pose proof (div_plus (Z.to_pos (Z.abs a)) (Z.to_pos (Z.abs b)) 0 0) as Hplus.
      destruct (Py.is_infinite _); [discriminate|]. injection Hr as <-. exact Hplus.
  - injection Ht as Hy. simpl in Hr. unfold Py.int_to_float in Hr.
    pose proof (float_of_Z_plus a Ha) as Hfx.
    destruct (Py.is_infinite (Py.float_of_Z a)) eqn:Hinf; [discriminate|].
    unfold Py.float_truediv in Hr. destruct (Py.is_zero y); [discriminate|].
    injection Hr as <-.
    destruct (Py.float_of_Z a) as [s|s| |s m e]; try discriminate;
      simpl in Hfx; apply negb_true_iff in Hfx; subst s;
      destruct (gt_zero_float y Hy) as [(my & ey & ->) | ->]; try reflexivity.
    apply div_plus.
Qed.

(** [min(ratio * 100.0, 99.0)] of such a quotient lies between 0 and 99. *)
Lemma capped_in_range (ratio : spec_float) :
  plus_signed ratio = true -> in_percent_range (capped ratio) = true.
Proof.
  intros Hr. unfold capped, Py.float_min, Py.float_mul.
  set (hundred := Py.float_of_Z 100). vm_compute in hundred. subst hundred.
  assert (Hp : plus_signed (SFmul Py.prec Py.emax ratio
                              (S754_finite false 7036874417766400 (-46))) = true).
  { destruct ratio as [s|s| |s m e]; try discriminate;
      simpl in Hr; apply negb_true_iff in Hr; subst s; try reflexivity.
    unfold SFmul. apply binary_round_aux_plus. lia. }
  destruct (SFltb (Py.float_of_Z 99) _) eqn:Hlt; [vm_compute; reflexivity|].
  unfold in_percent_range. rewrite Hlt.
  destruct (SFmul Py.prec Py.emax ratio _) as [s|s| |s m e]; try discriminate;
    simpl in Hp; apply negb_true_iff in Hp; subst s; try reflexivity.
  vm_compute in Hlt. discriminate.
Qed.

(** The percentage handed to the callback is a number from 0 to 99,
    never a NaN and never negative, whenever the count in the event (the
    bytes downloaded, or the index of the fragment when no total is
    known) is an int that is not negative; the total or the fragment
    count may be an int or a float. *)
Theorem progress_percentage_range d cb w (a : Z) :
  Py.eq_str (status d) "downloading" = true ->
  0 <= a ->
  (Py.gt_zero (total d) = inr true -> downloaded d = Py.VInt a ->
   forall ratio, Py.truediv (downloaded d) (total d) = inr ratio ->
     _handle_progress d (Some cb) w = cb (capped ratio) w
     /\ in_percent_range (capped ratio) = true)
  /\ (Py.gt_zero (total d) = inr false -> Py.gt_zero (fragment_count d) = inr true ->
      fragment_index d = Py.VInt a ->
      forall ratio, Py.truediv (fragment_index d) (fragment_count d) = inr ratio ->
        _handle_progress d (Some cb) w = cb (capped ratio) w
        /\ in_percent_range (capped ratio) = true).
Proof.
  intros Hs Ha. rewrite handle_progress_unfold, Hs. split.
  - intros Ht Hd ratio Hr. unfold bind, lift. rewrite Ht, Hr. split; [reflexivity|].
    rewrite Hd in Hr. exact (capped_in_range _ (truediv_plus _ _ _ Ha Ht Hr)).
  - intros Ht Hf Hi ratio Hr. unfold bind, lift. rewrite Ht, Hf, Hr. split; [reflexivity|].
    rewrite Hi in Hr. exact (capped_in_range _ (truediv_plus _ _ _ Ha Hf Hr)).
Qed.

End ProgressRange.

Lemma progress_percentage_range_witness :
  MoreSpec.in_percent_range
    (DownloaderSpec.capped (S754_finite false 4503599627370496 (-53))) = true.
Proof.
  apply (proj1 (progress_percentage_range DownloaderSpec.half_way DownloaderSpec.report
                  empty_world 50 eq_refl ltac:(lia)) eq_refl eq_refl
           (S754_finite false 4503599627370496 (-53)) eq_refl).
Defined.
